(** * PieToolbelt [dataset_utils.py]: mask composition, annotation decoding
      and class-count normalisation

    A shallow embedding of [MasksComposer], of the annotation decoder inside
    [SuperviselyDataset._process_target] and of [EmptyClassesAdd], together
    with the NumPy / OpenCV primitives these classes call. *)

From Stdlib Require Import String Ascii ZArith List Bool Lia Arith.
From Stdlib Require Import PrimFloat FloatOps SpecFloat Uint63 DecimalString.
From Stdlib Require Import Sorted Permutation.
Import ListNotations.

Set Implicit Arguments.

(* ================================================================== *)
(** * Exceptions and results *)

(** The Python exceptions the modelled code can raise. *)
Inductive exn : Type :=
| ValueError
| TypeError
| IndexError
| AttributeError
| CvError
| RuntimeError (msg : string)
| Exception_ (msg : string).

Inductive result (A : Type) : Type :=
| Ok (a : A)
| Raise (e : exn).
Arguments Ok {A} a.
Arguments Raise {A} e.

Definition bind {A B} (r : result A) (k : A -> result B) : result B :=
  match r with
  | Ok a => k a
  | Raise e => Raise e
  end.

Declare Scope result_scope.
Delimit Scope result_scope with result.
Notation "x <- r ;; k" := (bind r (fun x => k))
  (at level 61, r at next level, right associativity) : result_scope.

(* ================================================================== *)
(** * NumPy arrays *)

Module NumPy.

(** An [ndarray] is a shape and a flat buffer in C (row-major) order. *)
Record ndarray (A : Type) : Type := NdArray {
  shape : list nat;
  data : list A
}.
Arguments NdArray {A} shape data.
Arguments shape {A} n.
Arguments data {A} n.

Definition ndim {A} (a : ndarray A) : nat := length (shape a).

Definition size (s : list nat) : nat := fold_right Nat.mul 1 s.

(** Flat position of a multi-index in a C-ordered buffer of shape [s]. *)
Fixpoint ravel (s idx : list nat) : nat :=
  match s, idx with
  | _ :: s', i :: idx' => i * size s' + ravel s' idx'
  | _, _ => 0
  end.

Section Build.
Context {A : Type}.
Variable d : A.

(** The buffer of shape [s] whose element at multi-index [idx] is [f idx]. *)
Fixpoint tab (s : list nat) (f : list nat -> A) : list A :=
  match s with
  | [] => [f []]
  | n :: s' => flat_map (fun i => tab s' (fun idx => f (i :: idx))) (seq 0 n)
  end.

Definition build (s : list nat) (f : list nat -> A) : ndarray A :=
  NdArray s (tab s f).

Definition item (a : ndarray A) (idx : list nat) : A :=
  nth (ravel (shape a) idx) (data a) d.

Definition in_bounds (idx s : list nat) : Prop := Forall2 lt idx s.

End Build.

(** ** Two-dimensional [uint8] arrays

    The frames, masks and kernels of [MasksComposer]: [np.uint8] arrays of
    shape [(rows, cols)].  Element values are kept in [0, 256). *)
Record image : Type := Image {
  rows : nat;
  cols : nat;
  pixels : list Z
}.

Definition as_ndarray (m : image) : ndarray Z := NdArray [rows m; cols m] (pixels m).

Definition mk (h w : nat) (f : nat -> nat -> Z) : image :=
  Image h w (tab [h; w] (fun idx => match idx with [i; j] => f i j | _ => 0%Z end)).

Definition px (m : image) (i j : nat) : Z := nth (i * cols m + j) (pixels m) 0%Z.

Definition wrap8 (z : Z) : Z := (z mod 256)%Z.

Definition same_shape (a b : image) : bool :=
  (rows a =? rows b) && (cols a =? cols b).

(** [np.zeros(shape, dtype=np.uint8)] and [np.zeros_like]. *)
Definition zeros (h w : nat) : image := mk h w (fun _ _ => 0%Z).
Definition ones (h w : nat) : image := mk h w (fun _ _ => 1%Z).
Definition zeros_like (m : image) : image := zeros (rows m) (cols m).

(** Broadcasting: an axis of extent 1 is read at index 0 whatever the index. *)
Definition bpx (m : image) (i j : nat) : Z :=
  px m (if rows m =? 1 then 0 else i) (if cols m =? 1 then 0 else j).

Definition bdim (x y : nat) : option nat :=
  if x =? y then Some x
  else if x =? 1 then Some y
  else if y =? 1 then Some x
  else None.

(** [b] broadcasts to the extent [x] of an output axis. *)
Definition fits_axis (b x : nat) : bool := (b =? x) || (b =? 1).

(** [a + b] on [uint8] arrays: broadcast, add, wrap around. *)
Definition add (a b : image) : result image :=
  match bdim (rows a) (rows b), bdim (cols a) (cols b) with
  | Some h, Some w => Ok (mk h w (fun i j => wrap8 (bpx a i j + bpx b i j)))
  | _, _ => Raise ValueError
  end.

(** [a += b]: the output is [a], so [b] has to broadcast to the shape of [a]. *)
Definition iadd (a b : image) : result image :=
  if fits_axis (rows b) (rows a) && fits_axis (cols b) (cols a)
  then Ok (mk (rows a) (cols a) (fun i j => wrap8 (px a i j + bpx b i j)))
  else Raise ValueError.

(** [np.clip(a, lo, hi)]. *)
Definition clip (a : image) (lo hi : Z) : image :=
  mk (rows a) (cols a) (fun i j => Z.min (Z.max (px a i j) lo) hi).

(** [a[cond > 1] = 1] with a boolean index computed from [c]: the index must
    have the shape of [a]. *)
Definition set_where_gt1 (a c : image) : result image :=
  if same_shape a c
  then Ok (mk (rows a) (cols a) (fun i j => if (1 <? px c i j)%Z then 1%Z else px a i j))
  else Raise IndexError.

(** [a[a > 0] = 1]. *)
Definition binarize (a : image) : image :=
  mk (rows a) (cols a) (fun i j => if (0 <? px a i j)%Z then 1%Z else px a i j).

(** Python's [start:stop] on an axis of length [n]: negative bounds count from
    the end, then both are clamped to [0, n].  Returns the first index and the
    length of the selection. *)
Definition slice_bound (n : nat) (x : Z) : nat :=
  Z.to_nat (if (x <? 0)%Z then Z.max (x + Z.of_nat n) 0 else Z.min x (Z.of_nat n)).

Definition slice (n : nat) (start stop : Z) : nat * nat :=
  let s := slice_bound n start in
  let e := slice_bound n stop in
  (s, e - s).

Definition in_window (s len i : nat) : bool := (s <=? i) && (i <? s + len).

(** [a[r0:r1, c0:c1] = v]: [v] has to broadcast to the selected window. *)
Definition set_slice (a : image) (r0 r1 c0 c1 : Z) (v : image) : result image :=
  let '(rs, rl) := slice (rows a) r0 r1 in
  let '(cs, cl) := slice (cols a) c0 c1 in
  if fits_axis (rows v) rl && fits_axis (cols v) cl
  then Ok (mk (rows a) (cols a) (fun i j =>
         if in_window rs rl i && in_window cs cl j
         then bpx v (i - rs) (j - cs)
         else px a i j))
  else Raise ValueError.

(** [a[r0:r1, c0:c1] += v]: an in-place add on the selected window. *)
Definition iadd_slice (a : image) (r0 r1 c0 c1 : Z) (v : image) : result image :=
  let '(rs, rl) := slice (rows a) r0 r1 in
  let '(cs, cl) := slice (cols a) c0 c1 in
  if fits_axis (rows v) rl && fits_axis (cols v) cl
  then Ok (mk (rows a) (cols a) (fun i j =>
         if in_window rs rl i && in_window cs cl j
         then wrap8 (px a i j + bpx v (i - rs) (j - cs))
         else px a i j))
  else Raise ValueError.

(** ** Stacking

    [np.stack(arrays, axis)]: the arrays must share one shape; the result has
    one more axis, of extent [len(arrays)], at position [axis].  (NumPy's
    [AxisError] is a subclass of [ValueError].) *)
Definition shape_eqb (s1 s2 : list nat) : bool :=
  if list_eq_dec Nat.eq_dec s1 s2 then true else false.

Definition stack (arrays : list (ndarray Z)) (axis : nat) : result (ndarray Z) :=
  match arrays with
  | [] => Raise ValueError
  | a :: rest =>
      if forallb (fun b => shape_eqb (shape b) (shape a)) rest then
        if axis <=? ndim a then
          Ok (build
                (firstn axis (shape a) ++ [length arrays] ++ skipn axis (shape a))
                (fun idx =>
                   item 0%Z (nth (nth axis idx 0) arrays a)
                        (firstn axis idx ++ skipn (S axis) idx)))
        else Raise ValueError
      else Raise ValueError
  end.

(** ** Element types

    The two element types that reach [EmptyClassesAdd]: [uint8] from the
    composer and [float64] from a true division. *)
Inductive array : Type :=
| U8 (a : ndarray Z)
| F64 (a : ndarray float).

Definition array_shape (t : array) : list nat :=
  match t with
  | U8 a => shape a
  | F64 a => shape a
  end.

(** The integer part of a finite binary64 value, rounding toward zero
    (infinities and NaN, whose cast C leaves undefined, are given 0). *)
Definition trunc (x : float) : Z :=
  match Prim2SF x with
  | S754_finite s m e =>
      let mag := if (0 <=? e)%Z then (Z.pos m * 2 ^ e)%Z else (Z.pos m / 2 ^ (- e))%Z in
      if s then (- mag)%Z else mag
  | _ => 0%Z
  end.

(** The integers a 32-bit signed conversion can return. *)
Definition fits_int32 (z : Z) : bool := (- 2 ^ 31 <=? z)%Z && (z <? 2 ^ 31)%Z.

(** Storing a [float64] into a [uint8] array is a C cast: the value is
    converted to a 32-bit integer, which drops the fraction, and the low
    byte is kept.  C defines the conversion only when the integer part fits;
    otherwise the x86 conversion returns [-2^31], whose low byte is 0. *)
Definition f64_to_u8 (x : float) : Z :=
  if fits_int32 (trunc x) then wrap8 (trunc x) else 0%Z.

(** Element [idx] of [t] as stored into a [uint8] array. *)
Definition item_as_u8 (t : array) (idx : list nat) : Z :=
  match t with
  | U8 a => item 0%Z a idx
  | F64 a => f64_to_u8 (item PrimFloat.zero a idx)
  end.

(** [a / n] on a [uint8] array and a small non-negative [int]: true
    division, producing [float64]. *)
Definition divide (z n : Z) : float :=
  PrimFloat.div (PrimFloat.of_uint63 (Uint63.of_Z z)) (PrimFloat.of_uint63 (Uint63.of_Z n)).

Definition true_divide (a : ndarray Z) (n : Z) : ndarray float :=
  NdArray (shape a) (map (fun z => divide z n) (data a)).

End NumPy.

(* ================================================================== *)
(** * OpenCV primitives *)

Module OpenCV.
Import NumPy.

(** An absent or empty structuring element stands for the 3x3 rectangle. *)
Definition effective_kernel (kernel : option image) : image :=
  match kernel with
  | Some k => if (rows k =? 0) || (cols k =? 0) then ones 3 3 else k
  | None => ones 3 3
  end.

(** Displacements [(dy, dx)] of the non-zero kernel elements from the anchor,
    which defaults to the kernel centre [(rows / 2, cols / 2)]. *)
Definition nonzero_offsets (k : image) : list (Z * Z) :=
  let ay := Z.of_nat (rows k / 2) in
  let ax := Z.of_nat (cols k / 2) in
  flat_map (fun i =>
    flat_map (fun j =>
      if (px k i j =? 0)%Z then []
      else [(Z.of_nat i - ay, Z.of_nat j - ax)%Z])
    (seq 0 (cols k)))
  (seq 0 (rows k)).

(** The support of the structuring element.  OpenCV collects the positions
    of the non-zero elements; for a kernel without any it keeps the single
    position (0, 0), so the dilation then reads the source displaced by the
    anchor. *)
Definition kernel_offsets (k : image) : list (Z * Z) :=
  match nonzero_offsets k with
  | [] => [(- Z.of_nat (rows k / 2), - Z.of_nat (cols k / 2))%Z]
  | offs => offs
  end.

(** Source pixel at [(y, x)]; positions outside the image do not take part
    in the maximum (the default border of a dilation), which for [uint8]
    is the same as reading 0 there. *)
Definition sample (src : image) (y x : Z) : Z :=
  if ((0 <=? y) && (y <? Z.of_nat (rows src)) && (0 <=? x) && (x <? Z.of_nat (cols src)))%Z
  then px src (Z.to_nat y) (Z.to_nat x)
  else 0%Z.

Definition dilate_at (src : image) (offs : list (Z * Z)) (y x : Z) : Z :=
  fold_right (fun o acc => Z.max (sample src (y + fst o) (x + snd o)) acc) 0%Z offs.

(** [cv2.dilate(src, kernel)] with the default anchor, one iteration and the
    default border: every output pixel is the maximum of the source over the
    kernel's support placed at that pixel (OpenCV's documented definition;
    the composer's kernels are [np.ones((k, k))]). *)
Definition dilate_image (src : image) (kernel : option image) : image :=
  let offs := kernel_offsets (effective_kernel kernel) in
  mk (rows src) (cols src)
     (fun i j => dilate_at src offs (Z.of_nat i) (Z.of_nat j)).

(** A [None] source is rejected, and so is an empty one, an array with no
    row or no column. *)
Definition dilate (src : option image) (kernel : option image) : result image :=
  match src with
  | None => Raise CvError
  | Some src =>
      if (rows src =? 0) || (cols src =? 0) then Raise CvError
      else Ok (dilate_image src kernel)
  end.

End OpenCV.

(* ================================================================== *)
(** * [class MasksComposer] *)

Module MasksComposer.
Import NumPy.
Local Open Scope result_scope.

(** A value of the [_masks] dictionary: a bare array, or the dictionary
    [{'mask': ..., 'borders': ...}] of a class with border tracking. *)
Inductive entry : Type :=
| Plain (m : image)
| Bordered (mask borders : image).

(** [_masks] is a Python [dict]: keys in first-insertion order. *)
Definition dict : Type := list (Z * entry).

Fixpoint dict_get (d : dict) (k : Z) : option entry :=
  match d with
  | [] => None
  | (k', v) :: d' => if (k' =? k)%Z then Some v else dict_get d' k
  end.

Fixpoint dict_set (d : dict) (k : Z) (v : entry) : dict :=
  match d with
  | [] => [(k, v)]
  | (k', v') :: d' =>
      if (k' =? k)%Z then (k, v) :: d' else (k', v') :: dict_set d' k v
  end.

Definition dict_mem (d : dict) (k : Z) : bool :=
  match dict_get d k with Some _ => true | None => false end.

Record t : Type := Composer {
  _masks : dict;
  _mask_shape : nat * nat;
  _borders_as_class : bool;
  _borders_between_classes : option (list Z);
  _dilate_masks_kernel : option image
}.

Definition with_masks (self : t) (d : dict) : t :=
  Composer d (_mask_shape self) (_borders_as_class self)
           (_borders_between_classes self) (_dilate_masks_kernel self).

(** [__init__(target_shape)], [dtype] left at its default [np.uint8]. *)
Definition init (target_shape : nat * nat) : t :=
  Composer [] target_shape false None None.

Definition default_kernel : image := ones 2 2.

(** [add_borders_as_class(between_classes, dilate_masks_kernel)]. *)
Definition add_borders_as_class (self : t) (between_classes : option (list Z))
    (dilate_masks_kernel : option image) : t :=
  Composer (_masks self) (_mask_shape self) true between_classes dilate_masks_kernel.

(** [_calc_border_between_masks(mask1, mask2)]. *)
Definition _calc_border_between_masks (self : t) (mask1 : image) (mask2 : option image)
    : result image :=
  let borders := zeros_like mask1 in
  mask1_intern <- OpenCV.dilate (Some mask1) (_dilate_masks_kernel self) ;;
  mask2_intern <- OpenCV.dilate mask2 (_dilate_masks_kernel self) ;;
  add <- NumPy.add mask1_intern mask2_intern ;;
  set_where_gt1 borders add.

(** [cls in self._borders_between_classes]; [None] is not iterable. *)
Definition in_between_classes (self : t) (cls : Z) : result bool :=
  match _borders_between_classes self with
  | None => Raise TypeError
  | Some l => Ok (existsb (Z.eqb cls) l)
  end.

Definition entry_mask (e : entry) : image :=
  match e with
  | Plain m => m
  | Bordered m _ => m
  end.

(** The branch of [add_mask] taken for a class with border tracking; [e] is
    the current value of [_masks[cls]]. *)
Definition add_mask_bordered (self : t) (e : entry) (mask : option image)
    (offset : option (Z * Z)) : result entry :=
  placed <-
    match offset with
    | Some (r, c) =>
        let prev_borders := match e with Bordered _ b => Some b | Plain _ => None end in
        let target_mask := zeros_like (entry_mask e) in
        match mask with
        | None => Raise AttributeError
        | Some m =>
            target_mask <- set_slice target_mask
                             r (r + Z.of_nat (rows m)) c (c + Z.of_nat (cols m)) m ;;
            Ok (Some target_mask, prev_borders)
        end
    | None => Ok (mask, None)
    end ;;
  let '(target_mask, prev_borders) := placed in
  let origin_mask := entry_mask e in
  borders <- _calc_border_between_masks self origin_mask target_mask ;;
  borders <-
    match prev_borders with
    | Some prev => iadd borders prev
    | None => Ok borders
    end ;;
  origin_mask <-
    match target_mask with
    | Some tm => iadd origin_mask tm
    | None => Raise TypeError
    end ;;
  Ok (Bordered (clip origin_mask 0 1) (clip borders 0 1)).

(** The branch of [add_mask] taken for a class without border tracking. *)
Definition add_mask_plain (e : entry) (mask : option image)
    (offset : option (Z * Z)) : result entry :=
  match offset with
  | Some (r, c) =>
      match mask with
      | None => Raise AttributeError
      | Some m =>
          match e with
          | Bordered _ _ => Raise TypeError
          | Plain a =>
              a' <- iadd_slice a r (r + Z.of_nat (rows m)) c (c + Z.of_nat (cols m)) m ;;
              Ok (Plain a')
          end
      end
  | None =>
      match e, mask with
      | Plain a, Some m => a' <- iadd a m ;; Ok (Plain a')
      | _, _ => Raise TypeError
      end
  end.

(** [if cls not in self._masks: self._masks[cls] = np.zeros(...)]. *)
Definition ensure_class (self : t) (cls : Z) : t :=
  if dict_mem (_masks self) cls then self
  else with_masks self
         (dict_set (_masks self) cls
            (Plain (zeros (fst (_mask_shape self)) (snd (_mask_shape self))))).

(** [self._masks[cls]], read after [ensure_class]. *)
Definition get_class (self : t) (cls : Z) : entry :=
  match dict_get (_masks self) cls with
  | Some e => e
  | None => Plain (zeros (fst (_mask_shape self)) (snd (_mask_shape self)))
  end.

(** [self._borders_as_class and cls in self._borders_between_classes]. *)
Definition tracks_borders (self : t) (cls : Z) : result bool :=
  if _borders_as_class self then in_between_classes self cls else Ok false.

(** [add_mask(mask, cls, offset)].  The method mutates [self] and may raise:
    the result is the composer after the call and the exception, if any. *)
Definition add_mask (self : t) (mask : option image) (cls : Z)
    (offset : option (Z * Z)) : t * option exn :=
  let self := ensure_class self cls in
  let e := get_class self cls in
  let step :=
    tracked <- tracks_borders self cls ;;
    if tracked : bool then add_mask_bordered self e mask offset
    else add_mask_plain e mask offset in
  match step with
  | Ok e' => (with_masks self (dict_set (_masks self) cls e'), None)
  | Raise ex => (self, Some ex)
  end.

(** One iteration of the loop of [compose()] over [_masks.items()]. *)
Definition compose_step (res : option (ndarray Z)) (mask : entry)
    : result (option (ndarray Z)) :=
  match res with
  | None =>
      match mask with
      | Bordered m b =>
          r <- stack [as_ndarray m; as_ndarray b] 2 ;; Ok (Some r)
      | Plain m => Ok (Some (as_ndarray m))
      end
  | Some res =>
      match mask with
      | Bordered m b =>
          r <- stack [res; as_ndarray m; as_ndarray b] 2 ;; Ok (Some r)
      | Plain m =>
          r <- stack [res; as_ndarray m] 0 ;; Ok (Some r)
      end
  end.

Fixpoint compose_loop (items : dict) (res : option (ndarray Z))
    : result (option (ndarray Z)) :=
  match items with
  | [] => Ok res
  | (_, mask) :: items' =>
      res' <- compose_step res mask ;;
      compose_loop items' res'
  end.

(** [compose()]: [None] when no class was added. *)
Definition compose (self : t) : result (option (ndarray Z)) :=
  compose_loop (_masks self) None.

End MasksComposer.

(* ================================================================== *)
(** * [class SuperviselyDataset]: decoding annotations *)

Module SuperviselyDataset.
Import NumPy.
Local Open Scope result_scope.

(** [obj['bitmap']]: the base64 payload and the origin [[x, y]]. *)
Record bitmap_t : Type := Bitmap {
  bitmap_data : string;
  bitmap_origin : Z * Z
}.

(** One element of [target['objects']]; points are [[x, y]] pairs. *)
Record object_t : Type := Object {
  classTitle : string;
  bitmap : option bitmap_t;
  points_exterior : list (Z * Z);
  points_interior : list (Z * Z)
}.

(** The parsed annotation document, as far as [_process_target] reads it. *)
Record target_t : Type := Target {
  size_height : nat;
  size_width : nat;
  objects : list object_t
}.

(** Column-wise [pts.min(axis=0)] and [pts.max(axis=0)] of a non-empty
    [(n, 2)] array. *)
Definition pts_min (p : Z * Z) (pts : list (Z * Z)) : Z * Z :=
  fold_left (fun acc q => (Z.min (fst acc) (fst q), Z.min (snd acc) (snd q))) pts p.

Definition pts_max (p : Z * Z) (pts : list (Z * Z)) : Z * Z :=
  fold_left (fun acc q => (Z.max (fst acc) (fst q), Z.max (snd acc) (snd q))) pts p.

Section Decoder.
(** The two library pipelines the decoder calls are parameters:
    - [decode_alpha data] is
      [cv2.imdecode(np.fromstring(zlib.decompress(base64.b64decode(data)), np.uint8),
                    cv2.IMREAD_UNCHANGED)[:, :, 3].astype(np.uint8)],
      which raises on a corrupt payload;
    - [drawContours img pts color] is
      [cv2.drawContours(img, [pts], -1, color, cv2.FILLED)] on a canvas
      that is not empty; on an empty canvas OpenCV raises. *)
Variable decode_alpha : string -> result image.
Variable drawContours : image -> list (Z * Z) -> Z -> image.

(** The local function [object_to_mask(obj)] of [_process_target]. *)
Definition object_to_mask (obj : object_t) : result (option image * option (Z * Z)) :=
  match bitmap obj with
  | Some b =>
      n <- decode_alpha (bitmap_data b) ;;
      let origin := ((snd (bitmap_origin b)) mod 65536, (fst (bitmap_origin b)) mod 65536)%Z in
      Ok (Some (binarize n), Some origin)
  | None =>
      if 0 <? length (points_interior obj) + length (points_exterior obj) then
        match points_exterior obj with
        | [] => Raise ValueError
        | p :: ps =>
            let pts := p :: ps in
            let origin := pts_min p ps in
            let shape := (fst (pts_max p ps) - fst origin, snd (pts_max p ps) - snd origin)%Z in
            let canvas := zeros (Z.to_nat (snd shape)) (Z.to_nat (fst shape)) in
            if (rows canvas =? 0) || (cols canvas =? 0) then Raise CvError
            else
              let obj_mask :=
                drawContours canvas
                  (map (fun q => (fst q - fst origin, snd q - snd origin)%Z) pts) 1 in
              Ok (Some obj_mask, Some (snd origin, fst origin))
        end
      else Ok (None, None)
  end.

(** The adapter's configuration read by [_process_target]. *)
Record t : Type := Dataset {
  _use_border_as_class : bool;
  _border_thikness : option nat
}.

(** The loop [for obj in target['objects']] of [_process_target]: the first
    exception, of the decoder or of [add_mask], ends the read. *)
Fixpoint add_objects (composer : MasksComposer.t) (objs : list object_t)
    : result MasksComposer.t :=
  match objs with
  | [] => Ok composer
  | obj :: objs' =>
      decoded <- object_to_mask obj ;;
      match MasksComposer.add_mask composer (fst decoded) 0 (snd decoded) with
      | (composer', None) => add_objects composer' objs'
      | (_, Some ex) => Raise ex
      end
  end.

Definition _process_target (self : t) (target : target_t) : result (option (ndarray Z)) :=
  let target_shape := (size_height target, size_width target) in
  let composer := MasksComposer.init target_shape in
  let composer :=
    if _use_border_as_class self then
      match _border_thikness self with
      | None =>
          MasksComposer.add_borders_as_class composer (Some [0%Z])
            (Some MasksComposer.default_kernel)
      | Some k =>
          MasksComposer.add_borders_as_class composer (Some [0%Z]) (Some (ones k k))
      end
    else composer in
  composer <- add_objects composer (objects target) ;;
  MasksComposer.compose composer.
End Decoder.

End SuperviselyDataset.

(* ================================================================== *)
(** * [class EmptyClassesAdd] *)

Module EmptyClassesAdd.
Import NumPy.
Local Open Scope result_scope.
Local Open Scope string_scope.

(** [str.format] of an [int] and of a tuple of [int]s. *)
Definition format_int (z : Z) : string := NilZero.string_of_int (Z.to_int z).

Fixpoint format_items (l : list nat) : string :=
  match l with
  | [] => ""
  | [x] => format_int (Z.of_nat x)
  | x :: l' => format_int (Z.of_nat x) ++ ", " ++ format_items l'
  end.

Definition format_tuple (l : list nat) : string :=
  match l with
  | [x] => "(" ++ format_int (Z.of_nat x) ++ ",)"
  | _ => "(" ++ format_items l ++ ")"
  end.

Definition init_message (target_classes_num exists_class_idx : Z) : string :=
  "Target classes number (" ++ format_int target_classes_num
  ++ ") can't be less or equal than exists class index ("
  ++ format_int exists_class_idx ++ ")".

Definition ndim_message (target_shape : list nat) : string :=
  "Dataset produce target with channels number more than 3."
  ++ "Target shape from dataset: " ++ format_tuple target_shape.

Definition channels_message (target_shape : list nat) (target_classes_num : Z) : string :=
  "Dataset produce target with shape, that's first dimension greater than target classes num."
  ++ "Target shape from dataset: " ++ format_tuple target_shape
  ++ ", target classes num: " ++ format_int target_classes_num.

Local Close Scope string_scope.

Section Wrapper.
(** [D] is the type of the ['data'] field, which the wrapper passes on. *)
Variable D : Type.

Record sample : Type := Sample {
  sample_data : D;
  sample_target : array
}.

(** A wrapped dataset is anything indexable: [dataset[item]]. *)
Definition dataset : Type := Z -> result sample.

Record t : Type := Wrapper {
  _dataset : dataset;
  _target_classes_num : Z;
  _exists_class_idx : Z
}.

(** [__init__(dataset, target_classes_num, exists_class_idx)]. *)
Definition init (ds : dataset) (target_classes_num exists_class_idx : Z) : result t :=
  if (target_classes_num <=? exists_class_idx)%Z
  then Raise (Exception_ (init_message target_classes_num exists_class_idx))
  else Ok (Wrapper ds target_classes_num exists_class_idx).

(** [target = np.zeros((h, w, k), dtype=np.uint8); target[:, :, c] = value]
    for a value of shape [(h, w) ++ rest]: a value with a third axis only
    broadcasts into the [(h, w)] channel when it has shape [(1, 1, 1)]. *)
Definition write_channel (h w k c : nat) (rest : list nat) (value : array)
    : result (ndarray Z) :=
  match rest with
  | [] =>
      Ok (build [h; w; k] (fun idx =>
            match idx with
            | [i; j; ch] => if ch =? c then item_as_u8 value [i; j] else 0%Z
            | _ => 0%Z
            end))
  | [n] =>
      if (h =? 1) && (w =? 1) && (n =? 1) then
        Ok (build [h; w; k] (fun idx =>
              match idx with
              | [i; j; ch] => if ch =? c then item_as_u8 value [0; 0; 0] else 0%Z
              | _ => 0%Z
              end))
      else Raise ValueError
  | _ => Raise ValueError
  end.

(** [__getitem__(item)]. *)
Definition getitem (self : t) (item : Z) : result sample :=
  cur_res <- _dataset self item ;;
  let target_shape := array_shape (sample_target cur_res) in
  if 3 <? length target_shape then
    Raise (RuntimeError (ndim_message target_shape))
  else if (length target_shape =? 3)
          && (_target_classes_num self <? Z.of_nat (nth 2 target_shape 0%nat))%Z then
    Raise (RuntimeError (channels_message target_shape (_target_classes_num self)))
  else
    match target_shape with
    | h :: w :: rest =>
        if (_target_classes_num self <? 0)%Z then Raise ValueError
        else
          let k := _target_classes_num self in
          let c := if (_exists_class_idx self <? 0)%Z
                   then (_exists_class_idx self + k)%Z
                   else _exists_class_idx self in
          if ((c <? 0) || (k <=? c))%Z then Raise IndexError
          else
            target <- write_channel h w (Z.to_nat k) (Z.to_nat c) rest
                        (sample_target cur_res) ;;
            Ok (Sample (sample_data cur_res) (U8 target))
    | _ => Raise IndexError
    end.
End Wrapper.

End EmptyClassesAdd.

(* ================================================================== *)
(** * [class PixartDataset] *)

Module PixartDataset.
Import NumPy.

(** [__getitem__] once both files are read: the mask is divided by 255. *)
Definition getitem (D : Type) (img : D) (mask : ndarray Z) : EmptyClassesAdd.sample D :=
  EmptyClassesAdd.Sample img (F64 (true_divide mask 255)).

End PixartDataset.

(* ================================================================== *)
(** * [PixartDataset.__init__]: pairing images with masks *)

Module PixartPaths.
Local Open Scope result_scope.
Local Open Scope string_scope.

(** One element of [_image_pathes]: [{'data': ..., 'target': ...}]. *)
Record entry : Type := Entry {
  data : string;
  target : string
}.

(** Python's [sorted(l, key=...)] on elements already paired with their
    keys: the stable sort, written as an insertion sort that puts an element
    before the first one whose key is not smaller. *)
Fixpoint insert_by_key (x : Z * string) (l : list (Z * string)) : list (Z * string) :=
  match l with
  | [] => [x]
  | y :: l' => if (fst x <=? fst y)%Z then x :: l else y :: insert_by_key x l'
  end.

Definition sorted_by_key (l : list (Z * string)) : list (Z * string) :=
  fold_right insert_by_key [] l.

Section Init.
(** The library calls of [__init__] are parameters: [os.path.splitext],
    [int] on a string (which raises [ValueError]), [os.path.join] and
    [os.path.exists]. *)
Variable splitext : string -> string * string.
Variable int : string -> result Z.
Variable join : string -> string -> string.
Variable exists_ : string -> bool.

Definition base_dir : string := "datasets/pixart".
Definition images_dir : string := join base_dir "train".
Definition masks_dir : string := join base_dir "train_mask".

(** The keys [int(os.path.splitext(p)[0])], computed for every path before
    any comparison; the first failure ends the construction. *)
Fixpoint with_keys (images_pathes : list string) : result (list (Z * string)) :=
  match images_pathes with
  | [] => Ok []
  | p :: ps =>
      k <- int (fst (splitext p)) ;;
      rest <- with_keys ps ;;
      Ok ((k, p) :: rest)
  end.

Definition mask_of (p : string) : string :=
  join masks_dir (fst (splitext p) ++ ".png").

(** The loop over the sorted paths. *)
Fixpoint collect (images_pathes : list string) : list entry :=
  match images_pathes with
  | [] => []
  | p :: ps =>
      if exists_ (mask_of p)
      then Entry (join images_dir p) (mask_of p) :: collect ps
      else collect ps
  end.

(** [__init__(images_pathes)]: the value of [self._image_pathes]. *)
Definition init (images_pathes : list string) : result (list entry) :=
  keyed <- with_keys images_pathes ;;
  Ok (collect (map snd (sorted_by_key keyed))).

(** [__len__()]. *)
Definition len (_image_pathes : list entry) : nat := length _image_pathes.
End Init.

End PixartPaths.

(* ================================================================== *)
(** * [SuperviselyDataset._filter_items] *)

Module SuperviselyItems.
Import SuperviselyDataset.
Local Open Scope result_scope.
Local Open Scope string_scope.

(** The parsed JSON document of an item: its [tags] and the part
    [_process_target] reads.  A document is taken to hold the keys the code
    reads, ['tags'], ['size'] and ['objects'], and every object its
    ['classTitle']; the [KeyError] of a document that lacks one is not
    modelled. *)
Record document : Type := Document {
  tags : list string;
  annotation : target_t
}.

(** An item before filtering, [{'data': path, 'target': path}], and after,
    [{'data': path, 'target': document}]. *)
Record item : Type := Item {
  item_data : string;
  item_target : string
}.

Record loaded : Type := Loaded {
  loaded_data : string;
  loaded_target : document
}.

Definition mem (s : string) (l : list string) : bool := existsb (String.eqb s) l.

Definition not_neutral (obj : object_t) : bool := negb (classTitle obj =? "neutral").

Definition with_objects (d : document) (objs : list object_t) : document :=
  Document (tags d)
    (Target (size_height (annotation d)) (size_width (annotation d)) objs).

Section Filter.
(** [load path] is [json.load(open(path, 'r'))]; it raises on a missing or
    malformed file. *)
Variable load : string -> result document.

(** [_filter_items(items, include_not_marked_people, include_neutral_objects)]. *)
Fixpoint _filter_items (items : list item)
    (include_not_marked_people include_neutral_objects : bool) : result (list loaded) :=
  match items with
  | [] => Ok []
  | it :: items' =>
      target <- load (item_target it) ;;
      if negb include_not_marked_people && mem "not-marked-people" (tags target) then
        _filter_items items' include_not_marked_people include_neutral_objects
      else
        let target :=
          if negb include_neutral_objects
          then with_objects target (filter not_neutral (objects (annotation target)))
          else target in
        rest <- _filter_items items' include_not_marked_people include_neutral_objects ;;
        Ok (Loaded (item_data it) target :: rest)
  end.
End Filter.

End SuperviselyItems.

(* ================================================================== *)
(** * [class AugmentedDataset] *)

Module AugmentedDataset.
Local Open Scope result_scope.

(** The keys an item is addressed by: the keys of a [dict], the positions
    [enumerate] gives for a list. *)
Inductive key : Type :=
| Name (s : string)
| Index (n : nat).

Definition key_eqb (a b : key) : bool :=
  match a, b with
  | Name s, Name t => String.eqb s t
  | Index n, Index m => Nat.eqb n m
  | _, _ => false
  end.

Section Wrapper.
(** [V] is the type of the fields of an item. *)
Variable V : Type.

(** What the wrapped dataset yields: a [dict] or a list. *)
Inductive sample : Type :=
| Dict (items : list (key * V))
| Seq (items : list V).

(** A callable registered with [add_aug], as it acts on one field and on a
    whole item. *)
Record aug : Type := Aug {
  on_field : V -> result V;
  on_sample : sample -> result sample
}.

Record t : Type := Wrapper {
  _dataset : Z -> result sample;
  _augs : list (key * aug);
  _augs_for_whole : list aug
}.

(** [__init__(dataset)]. *)
Definition init (dataset : Z -> result sample) : t := Wrapper dataset [] [].

Fixpoint augs_get (augs : list (key * aug)) (k : key) : option aug :=
  match augs with
  | [] => None
  | (k', a) :: augs' => if key_eqb k' k then Some a else augs_get augs' k
  end.

(** [self._augs[identificator] = aug]. *)
Fixpoint augs_set (augs : list (key * aug)) (k : key) (a : aug) : list (key * aug) :=
  match augs with
  | [] => [(k, a)]
  | (k', a') :: augs' =>
      if key_eqb k' k then (k, a) :: augs' else (k', a') :: augs_set augs' k a
  end.

(** [add_aug(aug, identificator)]; it returns [self]. *)
Definition add_aug (self : t) (a : aug) (identificator : option key) : t :=
  match identificator with
  | None => Wrapper (_dataset self) (_augs self) (_augs_for_whole self ++ [a])
  | Some k => Wrapper (_dataset self) (augs_set (_augs self) k a) (_augs_for_whole self)
  end.

(** [if k in self._augs: res[k] = self._augs[k](v)] for one pair. *)
Definition apply_field (augs : list (key * aug)) (k : key) (v : V) : result V :=
  match augs_get augs k with
  | Some a => on_field a v
  | None => Ok v
  end.

(** The first loop of [__getitem__] over [res.items()] ... *)
Fixpoint apply_dict (augs : list (key * aug)) (items : list (key * V))
    : result (list (key * V)) :=
  match items with
  | [] => Ok []
  | (k, v) :: items' =>
      v' <- apply_field augs k v ;;
      rest <- apply_dict augs items' ;;
      Ok ((k, v') :: rest)
  end.

(** ... or over [enumerate(res)], from position [n] on. *)
Fixpoint apply_seq (augs : list (key * aug)) (n : nat) (items : list V)
    : result (list V) :=
  match items with
  | [] => Ok []
  | v :: items' =>
      v' <- apply_field augs (Index n) v ;;
      rest <- apply_seq augs (S n) items' ;;
      Ok (v' :: rest)
  end.

Definition apply_fields (augs : list (key * aug)) (res : sample) : result sample :=
  match res with
  | Dict items => items' <- apply_dict augs items ;; Ok (Dict items')
  | Seq items => items' <- apply_seq augs 0 items ;; Ok (Seq items')
  end.

(** The second loop: [for aug in self._augs_for_whole: res = aug(res)]. *)
Fixpoint apply_whole (augs : list aug) (res : sample) : result sample :=
  match augs with
  | [] => Ok res
  | a :: augs' => res' <- on_sample a res ;; apply_whole augs' res'
  end.

(** [__getitem__(item)]. *)
Definition getitem (self : t) (item : Z) : result sample :=
  res <- _dataset self item ;;
  res <- apply_fields (_augs self) res ;;
  apply_whole (_augs_for_whole self) res.
End Wrapper.

End AugmentedDataset.

(* ================================================================== *)
(** * [SuperviselyDataset.__init__]: pairing the files of a directory *)

Module SuperviselyFiles.
Import SuperviselyItems.
Local Open Scope result_scope.
Local Open Scope string_scope.

(** The value [items[name]] while the directory is scanned: a [dict] with at
    most the keys ['data'] and ['target']. *)
Record slot : Type := Slot {
  slot_data : option string;
  slot_target : option string
}.

Inductive item_type : Type :=
| DataFile
| TargetFile.

Definition item_type_eqb (a b : item_type) : bool :=
  match a, b with
  | DataFile, DataFile | TargetFile, TargetFile => true
  | _, _ => false
  end.

(** The [if ext == '.json' ... elif ext == '.png' or ext == '.jpg' ... else]
    chain; [None] is the [continue]. *)
Definition item_type_of (ext : string) : option item_type :=
  if ext =? ".json" then Some TargetFile
  else if (ext =? ".png") || (ext =? ".jpg") then Some DataFile
  else None.

Definition slot_get (s : slot) (ty : item_type) : option string :=
  match ty with
  | DataFile => slot_data s
  | TargetFile => slot_target s
  end.

Definition slot_set (s : slot) (ty : item_type) (path : string) : slot :=
  match ty with
  | DataFile => Slot (Some path) (slot_target s)
  | TargetFile => Slot (slot_data s) (Some path)
  end.

(** The [dict] [items], in insertion order. *)
Fixpoint items_get (items : list (string * slot)) (name : string) : option slot :=
  match items with
  | [] => None
  | (k, s) :: items' => if k =? name then Some s else items_get items' name
  end.

Fixpoint items_set (items : list (string * slot)) (name : string) (s : slot)
    : list (string * slot) :=
  match items with
  | [] => [(name, s)]
  | (k, s') :: items' =>
      if k =? name then (k, s) :: items' else (k, s') :: items_set items' name s
  end.

(** The second loop of [__init__]: the entries with both keys. *)
Fixpoint paired (items : list (string * slot)) : list item :=
  match items with
  | [] => []
  | (_, Slot (Some d) (Some t)) :: items' => Item d t :: paired items'
  | _ :: items' => paired items'
  end.

Section Init.
(** [os.path.splitext], [os.path.join] and the loading of an annotation
    file are parameters; what [os.walk(path)] yields is given as the list of
    its [(root, files)]. *)
Variable splitext : string -> string * string.
Variable join : string -> string -> string.
Variable load : string -> result document.

(** The body of the inner loop, for one [file] of [root]. *)
Definition add_file (root : string) (items : list (string * slot)) (file : string)
    : list (string * slot) :=
  let (name, ext) := splitext file in
  match item_type_of ext with
  | None => items
  | Some ty =>
      match items_get items name with
      | Some s => items_set items name (slot_set s ty (join root file))
      | None => items_set items name (slot_set (Slot None None) ty (join root file))
      end
  end.

Definition scan (walk : list (string * list string)) : list (string * slot) :=
  fold_left (fun items rf => fold_left (add_file (fst rf)) (snd rf) items) walk [].

(** [__init__(path, include_not_marked_people, include_neutral_objects)]:
    the value of [self._items] and the two border settings. *)
Definition init (walk : list (string * list string))
    (include_not_marked_people include_neutral_objects : bool)
    : result (list loaded * SuperviselyDataset.t) :=
  items <- _filter_items load (paired (scan walk))
             include_not_marked_people include_neutral_objects ;;
  Ok (items, SuperviselyDataset.Dataset false None).

(** [use_border_as_class(border_thikness)]. *)
Definition use_border_as_class (self : SuperviselyDataset.t) (border_thikness : option nat)
    : SuperviselyDataset.t :=
  SuperviselyDataset.Dataset true border_thikness.
End Init.

End SuperviselyFiles.

(* ================================================================== *)
(** * [create_augmented_dataset]: the index file *)

Module IndexFile.
Local Open Scope string_scope.

Definition newline : ascii := "010"%char.

(** [file.readlines()] on the text of a file opened in text mode: its lines,
    each with the newline that ends it; the last line comes without one
    when the text does not end in a newline.  [cur] is the part of the
    current line read so far. *)
Fixpoint readlines_from (cur text : string) : list string :=
  match text with
  | EmptyString => if cur =? "" then [] else [cur]
  | String c text' =>
      if Ascii.eqb c newline
      then (cur ++ String c "") :: readlines_from "" text'
      else readlines_from (cur ++ String c "") text'
  end.

Definition readlines (text : string) : list string := readlines_from "" text.

(** [p[:len(p) - 1]]. *)
Definition drop_last (p : string) : string := substring 0 (String.length p - 1) p.

(** The names [create_augmented_dataset] reads from the index file:
    [[p[:len(p) - 1] for p in file.readlines() if p != '']]. *)
Definition pathes (text : string) : list string :=
  map drop_last (filter (fun p => negb (p =? "")) (readlines text)).

End IndexFile.

(* ================================================================== *)
(** * [class MulticlassColormapVisualizer] *)

Module MulticlassColormapVisualizer.
Import NumPy.
Local Open Scope result_scope.

(** Three-dimensional [uint8] arrays of shape [(height, width, channels)]:
    the masks and the colour images of the visualizers. *)
Record image3 : Type := Image3 {
  height : nat;
  width : nat;
  channels : nat;
  voxels : list Z
}.

Definition as_ndarray3 (m : image3) : ndarray Z :=
  NdArray [height m; width m; channels m] (voxels m).

Definition mk3 (h w c : nat) (f : nat -> nat -> nat -> Z) : image3 :=
  Image3 h w c
    (tab [h; w; c] (fun idx => match idx with [i; j; k] => f i j k | _ => 0%Z end)).

Definition px3 (m : image3) (i j k : nat) : Z := item 0%Z (as_ndarray3 m) [i; j; k].

(** The attributes [process_img] reads and writes; [proportions] and
    [colormap] belong to the parent class. *)
Record t : Type := Visualizer {
  _main_class : Z;
  _other_colors : option (list (list Z))
}.

(** Python's index [k] on an axis of extent [n]. *)
Definition axis_index (n : nat) (k : Z) : result nat :=
  if (0 <=? k)%Z && (k <? Z.of_nat n)%Z then Ok (Z.to_nat k)
  else if (- Z.of_nat n <=? k)%Z && (k <? 0)%Z then Ok (Z.to_nat (k + Z.of_nat n))
  else Raise IndexError.

(** [mask[:, :, k]]. *)
Definition channel (mask : image3) (k : Z) : result image :=
  ch <- axis_index (channels mask) k ;;
  Ok (mk (height mask) (width mask) (fun i j => px3 mask i j ch)).

(** [np.delete(mask, k, 2)]. *)
Definition delete (mask : image3) (k : Z) : result image3 :=
  ch <- axis_index (channels mask) k ;;
  Ok (mk3 (height mask) (width mask) (channels mask - 1)
        (fun i j c => px3 mask i j (if c <? ch then c else S c))).

(** [self._other_colors[k][i]]. *)
Definition color (colors : list (list Z)) (k i : nat) : result Z :=
  match nth_error colors k with
  | Some row =>
      match nth_error row i with
      | Some v => Ok v
      | None => Raise IndexError
      end
  | None => Raise IndexError
  end.

(** [img[:, :, k][cls > 0] = v]: a write through the view of channel [k],
    at the positions of a boolean index that must have the view's shape.
    A Python [int] outside [0, 256) wraps around, as it does in the NumPy
    versions that still have [np.int]. *)
Definition paint (img : image3) (k : nat) (cls : image) (v : Z) : result image3 :=
  if (k <? channels img) && (height img =? rows cls) && (width img =? cols cls)
  then Ok (mk3 (height img) (width img) (channels img)
             (fun i j c =>
                if (c =? k) && (0 <? px cls i j)%Z then wrap8 v else px3 img i j c))
  else Raise IndexError.

(** The body of the loop for the class [i] of [other_classes]. *)
Definition overlay_class (colors : list (list Z)) (other : image3) (img : image3)
    (i : nat) : result image3 :=
  let cls := mk (height other) (width other) (fun r c => px3 other r c i) in
  v0 <- color colors 0 i ;;
  img <- paint img 0 cls v0 ;;
  v1 <- color colors 1 i ;;
  img <- paint img 1 cls v1 ;;
  v2 <- color colors 2 i ;;
  paint img 2 cls v2.

Fixpoint overlay (colors : list (list Z)) (other : image3) (img : image3)
    (classes : list nat) : result image3 :=
  match classes with
  | [] => Ok img
  | i :: classes' =>
      img' <- overlay_class colors other img i ;;
      overlay colors other img' classes'
  end.

Section ProcessImg.
(** The library side is a parameter: [process_img_super image main_target]
    is [ColormapVisualizer.process_img], the colour map of the main class
    blended with the image by OpenCV, and [linspace start stop num] is
    [np.linspace(start, stop, num=num, dtype=np.uint8)]. *)
Variable Img : Type.
Variable process_img_super : Img -> image -> result image3.
Variable linspace : Z -> Z -> nat -> list Z.

Definition default_colors (num : nat) : list (list Z) :=
  [linspace 127 0 num; linspace 255 127 num; linspace 127 255 num].

(** [process_img(image, mask)]: the visualizer after the call, which keeps
    the colours it computed, and the result. *)
Definition process_img (self : t) (image : Img) (mask : image3) : t * result image3 :=
  match channel mask (_main_class self) with
  | Raise ex => (self, Raise ex)
  | Ok main_target =>
      match delete mask (_main_class self) with
      | Raise ex => (self, Raise ex)
      | Ok other_classes =>
          match process_img_super image main_target with
          | Raise ex => (self, Raise ex)
          | Ok img =>
              let colors :=
                match _other_colors self with
                | Some colors => colors
                | None => default_colors (height other_classes)
                end in
              (Visualizer (_main_class self) (Some colors),
               overlay colors other_classes img (seq 0 (channels other_classes)))
          end
      end
  end.
End ProcessImg.

End MulticlassColormapVisualizer.

(* ================================================================== *)
(** * Specification vocabulary *)

Module ComposerSpec.
Import NumPy MasksComposer.

(** Every pixel is 0 or 1. *)
Definition binary (m : image) : Prop :=
  forall i j, i < rows m -> j < cols m -> px m i j = 0%Z \/ px m i j = 1%Z.

(** Mask [m] put at [offset = (r, c)] lies within an [H] x [W] frame. *)
Definition fits (H W : nat) (m : image) (offset : Z * Z) : Prop :=
  (0 <= fst offset)%Z /\ (fst offset + Z.of_nat (rows m) <= Z.of_nat H)%Z
  /\ (0 <= snd offset)%Z /\ (snd offset + Z.of_nat (cols m) <= Z.of_nat W)%Z.

(** A contribution to an [H] x [W] frame: full-frame when it comes without
    an offset, within the frame when it comes with one. *)
Definition admissible (H W : nat) (m : image) (offset : option (Z * Z)) : Prop :=
  match offset with
  | None => rows m = H /\ cols m = W
  | Some o => fits H W m o
  end.

(** The full-frame image of a contribution: [m[i, j]] at [(r + i, c + j)],
    zero elsewhere. *)
Definition placement (H W : nat) (m : image) (offset : option (Z * Z)) : image :=
  match offset with
  | None => m
  | Some (r, c) =>
      mk H W (fun i j =>
        if in_window (Z.to_nat r) (rows m) i && in_window (Z.to_nat c) (cols m) j
        then px m (i - Z.to_nat r) (j - Z.to_nat c)
        else 0%Z)
  end.

Definition clip01 (z : Z) : Z := Z.min (Z.max z 0) 1.

(** The arrays of an entry have the frame's shape. *)
Definition entry_shaped (H W : nat) (e : entry) : Prop :=
  match e with
  | Plain m => rows m = H /\ cols m = W
  | Bordered m b => (rows m = H /\ cols m = W) /\ (rows b = H /\ cols b = W)
  end.

(** The accumulated mask of class [cls]: [_masks[cls]], or its ['mask']. *)
Definition stored_mask (self : MasksComposer.t) (cls : Z) : image :=
  entry_mask (get_class self cls).

(** What a call leaves of an accumulated value it adds nothing to: classes
    with border tracking are wrapped and clipped on every call. *)
Definition kept (tracked : bool) (z : Z) : Z :=
  if tracked then clip01 (wrap8 z) else z.

(** The value stored after adding [v] to the accumulated value [z]. *)
Definition summed (tracked : bool) (z v : Z) : Z :=
  if tracked then clip01 (wrap8 (z + v)) else wrap8 (z + v).

(** The border pixel the earlier calls left behind, as far as [add_mask]
    looks at it: only with an offset, and only in a [{'mask', 'borders'}]
    entry. *)
Definition carried_border (e : entry) (offset : option (Z * Z)) (i j : nat) : Z :=
  match offset, e with
  | Some _, Bordered _ b => px b i j
  | _, _ => 0%Z
  end.

(** The target mask [add_mask] derives from its arguments in the branch
    with border tracking. *)
Definition target_mask (e : entry) (m : image) (o : option (Z * Z)) : result image :=
  match o with
  | Some (r, c) =>
      set_slice (zeros_like (entry_mask e)) r (r + Z.of_nat (rows m)) c
                (c + Z.of_nat (cols m)) m
  | None => Ok m
  end.

End ComposerSpec.

Module Polygon.
Import NumPy.





(** The square of the spec, as [[x, y]] points, and a contour whose points
    lie on one horizontal line. *)
Definition square : list (Z * Z) := [(0, 0); (0, 10); (10, 10); (10, 0)]%Z.

(** A stand-in for the rasteriser that colours the whole canvas. *)
Definition flood (img : image) (pts : list (Z * Z)) (color : Z) : image :=
  mk (rows img) (cols img) (fun _ _ => color).

End Polygon.

Module NormalizerExamples.
Import NumPy EmptyClassesAdd.

(** [msg] quotes [s]. *)
Fixpoint contains (s msg : string) : bool :=
  if String.prefix s msg then true
  else match msg with
       | EmptyString => false
       | String _ msg' => contains s msg'
       end.

(** A dataset whose every item has the given target; ['data'] is a unit. *)
Definition constant (target : array) : dataset unit :=
  fun _ => Ok (Sample tt target).


(** A four-dimensional target, and a three-dimensional one whose two
    channels are within a class count of 3. *)
Definition four_dims : array := U8 (NdArray [1; 1; 1; 1] [0%Z]).
Definition two_channels : array := U8 (NdArray [2; 2; 2] [1; 0; 1; 0; 1; 0; 1; 0]%Z).

(** A 2x2 [uint8] target. *)
Definition small : array := U8 (NdArray [2; 2] [1; 0; 0; 1]%Z).

(** The expanded target [__getitem__] builds from a two-dimensional one. *)
Definition expanded (h w : nat) (k c : Z) (value : array) : ndarray Z :=
  build [h; w; Z.to_nat k] (fun idx =>
    match idx with
    | [i; j; ch] => if ch =? Z.to_nat c then item_as_u8 value [i; j] else 0%Z
    | _ => 0%Z
    end).

End NormalizerExamples.

Module NormalizerSpec.
Import NumPy.


(** The channel that the index [idx] selects among [total]: NumPy counts a
    negative index from the end. *)
Definition channel_of (total idx : Z) : Z :=
  if (idx <? 0)%Z then (idx + total)%Z else idx.

End NormalizerSpec.

Module ComposerRuns.
Import NumPy MasksComposer ComposerSpec.

(** The classes of a composer, in the order [compose()] visits them. *)
Definition keys (d : dict) : list Z := map fst d.

(** Every stored array has the frame's shape. *)
Definition all_shaped (H W : nat) (d : dict) : Prop :=
  Forall (fun kv => entry_shaped H W (snd kv)) d.

(** [n] calls [add_mask(m, cls)] in a row, without an offset. *)
Fixpoint add_many (self : MasksComposer.t) (m : image) (cls : Z) (n : nat)
    : MasksComposer.t :=
  match n with
  | 0 => self
  | S n' => fst (add_mask (add_many self m cls n') (Some m) cls None)
  end.

End ComposerRuns.

Module FilterSpec.
Import SuperviselyDataset SuperviselyItems.
Local Open Scope string_scope.

(** An item passes the tag test of [_filter_items]: its annotation loads,
    and it is not tagged ['not-marked-people'] unless such items are asked
    for. *)
Definition passes (load : string -> result document) (include_not_marked_people : bool)
    (it : item) : bool :=
  match load (item_target it) with
  | Ok d => include_not_marked_people || negb (mem "not-marked-people" (tags d))
  | Raise _ => false
  end.

(** [l] is what [_filter_items] makes of the item [it]: the same image
    path, and the item's annotation with, at most, its neutral objects
    removed. *)
Definition made_of (load : string -> result document) (include_neutral_objects : bool)
    (it : item) (l : loaded) : Prop :=
  loaded_data l = item_data it
  /\ exists d, load (item_target it) = Ok d
       /\ tags (loaded_target l) = tags d
       /\ size_height (annotation (loaded_target l)) = size_height (annotation d)
       /\ size_width (annotation (loaded_target l)) = size_width (annotation d)
       /\ objects (annotation (loaded_target l))
          = if include_neutral_objects then objects (annotation d)
            else filter not_neutral (objects (annotation d)).

End FilterSpec.

Module FilesSpec.
Import SuperviselyFiles.
Local Open Scope string_scope.

(** The files of a walk in the order they are visited, each with its
    directory. *)
Definition listing (walk : list (string * list string)) : list (string * string) :=
  flat_map (fun rf => map (pair (fst rf)) (snd rf)) walk.

(** The file [rf] has the stem [name] and an extension of the kind [ty]. *)
Definition file_is (splitext : string -> string * string) (ty : item_type) (name : string)
    (rf : string * string) : bool :=
  (fst (splitext (snd rf)) =? name)
  && match item_type_of (snd (splitext (snd rf))) with
     | Some ty' => item_type_eqb ty' ty
     | None => false
     end.

(** The path of the last visited file with stem [name] and kind [ty]. *)
Definition last_of (splitext : string -> string * string)
    (join : string -> string -> string) (ty : item_type) (name : string)
    (files : list (string * string)) : option string :=
  match find (file_is splitext ty name) (rev files) with
  | Some rf => Some (join (fst rf) (snd rf))
  | None => None
  end.

(** The inner loop's body on a file paired with its directory. *)
Definition step (splitext : string -> string * string)
    (join : string -> string -> string) (items : list (string * slot))
    (rf : string * string) : list (string * slot) :=
  add_file splitext join (fst rf) items (snd rf).

(** What the scan knows about a stem after the files [l]. *)
Definition known (splitext : string -> string * string)
    (join : string -> string -> string) (name : string) (l : list (string * string))
    : option slot :=
  match last_of splitext join DataFile name l, last_of splitext join TargetFile name l with
  | None, None => None
  | d, t => Some (Slot d t)
  end.

End FilesSpec.

Module IndexSpec.
Import IndexFile.
Local Open Scope string_scope.

(** No character of [s] is a newline. *)
Fixpoint one_line (s : string) : bool :=
  match s with
  | EmptyString => true
  | String c s' => negb (Ascii.eqb c newline) && one_line s'
  end.

(** The text of a file that holds the given names, one per line, every
    line ended by a newline. *)
Fixpoint unlines (names : list string) : string :=
  match names with
  | [] => ""
  | n :: names' => n ++ String newline (unlines names')
  end.

End IndexSpec.

Module VisualizerSpec.
Import NumPy MulticlassColormapVisualizer.

(** [m] has the shape [(h, w, c)]. *)
Definition shaped (h w c : nat) (m : image3) : Prop :=
  height m = h /\ width m = w /\ channels m = c.

(** The channel of the mask that holds the [c]-th of the other classes,
    when the main class is channel [main]. *)
Definition skip (main c : nat) : nat := if c <? main then c else S c.

(** The last of the classes [0 .. n-1] that is present, [f c > 0]. *)
Fixpoint last_present (f : nat -> Z) (n : nat) : option nat :=
  match n with
  | 0 => None
  | S n' => if (0 <? f n')%Z then Some n' else last_present f n'
  end.

Definition color_at (colors : list (list Z)) (k i : nat) : Z :=
  nth i (nth k colors []) 0%Z.

End VisualizerSpec.

(* ================================================================== *)
(** * Concrete composers, annotations and frames *)

Module BorderExamples.
Import NumPy MasksComposer.

(** A 1x3 frame, class 0 with border tracking and the default 2x2 kernel. *)
Definition fresh : MasksComposer.t :=
  add_borders_as_class (init (1, 3)) (Some [0%Z]) (Some default_kernel).

Definition row (a b c : Z) : image := Image 1 3 [a; b; c].

(** Two adjacent one-pixel instances: their dilations meet at column 1. *)
Definition after_two : MasksComposer.t :=
  let c := fst (add_mask fresh (Some (row 1 0 0)) 0 None) in
  fst (add_mask c (Some (row 0 1 0)) 0 None).

(** A third, empty, full-frame mask added without an offset ... *)
Definition third_without_offset : MasksComposer.t * option exn :=
  add_mask after_two (Some (row 0 0 0)) 0 None.

(** ... and the same mask added with the offset (0, 0). *)
Definition third_with_offset : MasksComposer.t * option exn :=
  add_mask after_two (Some (row 0 0 0)) 0 (Some (0, 0)%Z).

End BorderExamples.

Module OffsetExamples.
Import NumPy MasksComposer.

(** A 2x2 frame without border tracking. *)
Definition frame : MasksComposer.t := init (2, 2).

Definition with_canvas (a b c d : Z) : MasksComposer.t :=
  with_masks frame [(0%Z, Plain (Image 2 2 [a; b; c; d]))].

Definition pixel : image := Image 1 1 [1%Z].
Definition column : image := Image 2 1 [1; 1]%Z.

(** The frame after [add_borders_as_class()] with its defaults: border
    tracking is on and no list of classes is set. *)
Definition no_classes : MasksComposer.t :=
  add_borders_as_class frame None (Some default_kernel).

(** Class 0 gets a [{'mask', 'borders'}] entry while it has border tracking;
    then border tracking is set up again, for class 1 alone. *)
Definition left_behind : MasksComposer.t :=
  let c := add_borders_as_class frame (Some [0%Z]) (Some default_kernel) in
  let c := fst (add_mask c (Some pixel) 0 (Some (0, 0)%Z)) in
  add_borders_as_class c (Some [1%Z]) (Some default_kernel).

End OffsetExamples.

Module ComposeExamples.
Import NumPy MasksComposer.

(** Two classes without border tracking on a 1x2 frame: class 0 is [[1, 1]],
    class 1 is [[0, 0]]. *)
Definition two_plain : MasksComposer.t :=
  let c := init (1, 2) in
  let c := fst (add_mask c (Some (Image 1 2 [1; 1]%Z)) 0 None) in
  fst (add_mask c (Some (Image 1 2 [0; 0]%Z)) 1 None).

(** The same with a third class. *)
Definition three_plain : MasksComposer.t :=
  fst (add_mask two_plain (Some (Image 1 2 [0; 1]%Z)) 2 None).

(** Two classes with border tracking. *)
Definition two_bordered : MasksComposer.t :=
  let c := add_borders_as_class (init (1, 2)) (Some [0; 1]%Z) (Some default_kernel) in
  let c := fst (add_mask c (Some (Image 1 2 [1; 1]%Z)) 0 None) in
  fst (add_mask c (Some (Image 1 2 [0; 0]%Z)) 1 None).

End ComposeExamples.

Module EmptyObjectExample.
Import SuperviselyDataset.

(** An object with neither bitmap nor points, and an annotation holding it. *)
Definition empty_object (title : string) : object_t := Object title None [] [].

Definition one_empty_object (height width : nat) (title : string) : target_t :=
  Target height width [empty_object title].

End EmptyObjectExample.

Module PixartExamples.
Local Open Scope string_scope.

(** A directory listing [10, 2, 7] in which only [2] and [10] have a mask;
    names carry no extension, [int] knows the three names. *)
Definition splitext (p : string) : string * string := (p, "").

Definition int (s : string) : result Z :=
  if s =? "2" then Ok 2%Z
  else if s =? "7" then Ok 7%Z
  else if s =? "10" then Ok 10%Z
  else Raise ValueError.

Definition join (a b : string) : string := a ++ "/" ++ b.

Definition exists_ (p : string) : bool :=
  (p =? "datasets/pixart/train_mask/2.png") || (p =? "datasets/pixart/train_mask/10.png").

Definition listing : list string := ["10"; "2"; "7"].

End PixartExamples.

Module FilterExamples.
Import SuperviselyDataset SuperviselyItems.
Local Open Scope string_scope.

Definition person : object_t := Object "person" None [] [].
Definition neutral : object_t := Object "neutral" None [] [].

(** Two annotation files: [a.json] with a person and a neutral object,
    [b.json] tagged ['not-marked-people']. *)
Definition load (path : string) : result document :=
  if path =? "a.json" then Ok (Document [] (Target 4 4 [person; neutral]))
  else if path =? "b.json" then Ok (Document ["not-marked-people"] (Target 4 4 [person]))
  else Raise (Exception_ "FileNotFoundError").

Definition items : list item := [Item "b.png" "b.json"; Item "a.png" "a.json"].

Definition filtered : list loaded :=
  [Loaded "a.png" (Document [] (Target 4 4 [person]))].

End FilterExamples.

Module AugmentedExamples.
Import AugmentedDataset.

(** A dataset of items [{'data': 1, 'target': 2}] and a transform that adds
    ten to a field. *)
Definition pairs : Z -> result (sample Z) :=
  fun _ => Ok (Dict [(Name "data", 1%Z); (Name "target", 2%Z)]).

Definition plus_ten : aug Z := Aug (fun v => Ok (v + 10)%Z) (fun res => Ok res).

End AugmentedExamples.

Module VisualizerExamples.
Import NumPy MulticlassColormapVisualizer.

(** A one-row mask with four classes, of which class 0 is the main one, and
    a blend that is black everywhere. *)
Definition mask : image3 :=
  Image3 1 2 4 [1; 0; 1; 1;
                0; 0; 0; 0]%Z.

Definition black (_ : unit) (m : image) : result image3 :=
  Ok (mk3 (rows m) (cols m) 3 (fun _ _ _ => 0%Z)).

Definition palette : list (list Z) :=
  [[10; 20; 30]; [11; 21; 31]; [12; 22; 32]]%Z.

(** A stand-in for [np.linspace] that has the right length. *)
Definition ramp (start stop : Z) (num : nat) : list Z := repeat start num.

End VisualizerExamples.

(* ================================================================== *)
(** * Facts about the array primitives *)

Module NumPyFacts.
Import NumPy.

Section Build.
Context {A : Type}.
Variable d : A.

Lemma length_flat_map_uniform (B : Type) (g : B -> list A) (m : nat) (l : list B) :
  (forall b, In b l -> length (g b) = m) ->
  length (flat_map g l) = length l * m.
Proof.
  induction l as [|b l IH]; intros Hg; simpl; [reflexivity|].
  rewrite length_app, Hg by (simpl; auto).
  rewrite IH; [reflexivity|].
  intros b' Hb'. apply Hg. simpl; auto.
Qed.

Lemma nth_flat_map_uniform (B : Type) (g : B -> list A) (m : nat) (db : B) (l : list B) :
  (forall b, In b l -> length (g b) = m) ->
  forall k j, k < length l -> j < m ->
  nth (k * m + j) (flat_map g l) d = nth j (g (nth k l db)) d.
Proof.
  induction l as [|b l IH]; intros Hg k j Hk Hj; simpl in Hk; [lia|].
  simpl flat_map.
  assert (Hb : length (g b) = m) by (apply Hg; simpl; auto).
  destruct k as [|k].
  - simpl. rewrite app_nth1 by lia. reflexivity.
  - rewrite app_nth2 by (rewrite Hb; simpl; lia).
    rewrite Hb.
    replace (S k * m + j - m) with (k * m + j) by (simpl; lia).
    simpl nth at 2.
    apply IH; [|lia|assumption].
    intros b' Hb'. apply Hg. simpl; auto.
Qed.

Lemma length_tab (s : list nat) : forall f : list nat -> A, length (tab s f) = size s.
Proof.
  induction s as [|n s IH]; intros f; simpl; [reflexivity|].
  rewrite length_flat_map_uniform with (m := size s).
  - now rewrite length_seq.
  - intros i _. apply IH.
Qed.

Lemma ravel_lt (s : list nat) : forall idx, in_bounds idx s -> ravel s idx < size s.
Proof.
  induction s as [|n s IH]; intros idx H; inversion H; subst; simpl; [lia|].
  match goal with Hi : _ < n |- _ => revert Hi end.
  match goal with Ht : Forall2 lt _ s |- _ => specialize (IH _ Ht) end.
  intros Hi. nia.
Qed.

Lemma nth_tab (s : list nat) :
  forall (f : list nat -> A) idx,
  in_bounds idx s -> nth (ravel s idx) (tab s f) d = f idx.
Proof.
  induction s as [|n s IH]; intros f idx H; inversion H; subst; simpl.
  - reflexivity.
  - match goal with Ht : Forall2 lt _ s |- _ => rename Ht into Hrest end.
    match goal with Hi : _ < n |- _ => rename Hi into Hx end.
    rewrite nth_flat_map_uniform with (m := size s) (db := 0).
    + rewrite seq_nth by assumption. simpl.
      exact (IH (fun idx => f (x :: idx)) l Hrest).
    + intros i _. apply length_tab.
    + now rewrite length_seq.
    + now apply ravel_lt.
Qed.

Lemma item_build (s : list nat) (f : list nat -> A) idx :
  in_bounds idx s -> item d (build s f) idx = f idx.
Proof. intros H. unfold item, build; simpl. now apply nth_tab. Qed.

Lemma tab_ext (s : list nat) :
  forall f g : list nat -> A,
  (forall idx, in_bounds idx s -> f idx = g idx) -> tab s f = tab s g.
Proof.
  induction s as [|n s IH]; intros f g H; simpl.
  - f_equal. apply H. constructor.
  - assert (Hs : forall i, In i (seq 0 n) -> i < n) by (intros i Hi; apply in_seq in Hi; lia).
    induction (seq 0 n) as [|i l IHl]; simpl; [reflexivity|].
    f_equal.
    + apply IH. intros idx Hidx. apply H. constructor; [apply Hs; simpl; auto|assumption].
    + apply IHl. intros j Hj. apply Hs. simpl; auto.
Qed.

End Build.

Lemma px_mk h w f i j : i < h -> j < w -> px (mk h w f) i j = f i j.
Proof.
  intros Hi Hj.
  assert (E : i * w + j = ravel [h; w] [i; j]) by (simpl; lia).
  unfold px, mk. cbn [cols pixels]. rewrite E.
  apply (nth_tab 0%Z (s := [h; w])
           (fun idx => match idx with [i; j] => f i j | _ => 0%Z end)).
  repeat constructor; assumption.
Qed.

Lemma rows_mk h w f : rows (mk h w f) = h.
Proof. reflexivity. Qed.

Lemma cols_mk h w f : cols (mk h w f) = w.
Proof. reflexivity. Qed.

Lemma mk_ext h w f g :
  (forall i j, i < h -> j < w -> f i j = g i j) -> mk h w f = mk h w g.
Proof.
  intros H. unfold mk. f_equal. apply tab_ext.
  intros idx Hb.
  inversion Hb as [|i n idx1 s1 Hi Hb1]; subst.
  inversion Hb1 as [|j n2 idx2 s2 Hj Hb2]; subst.
  inversion Hb2; subst. now apply H.
Qed.

End NumPyFacts.

(* ================================================================== *)
(** * Facts about the composer *)

Module ComposerFacts.
Import NumPy NumPyFacts OpenCV MasksComposer ComposerSpec.

Lemma dict_get_set (d : dict) (k : Z) (v : entry) :
  dict_get (dict_set d k v) k = Some v.
Proof.
  induction d as [|[k' v'] d IH]; simpl.
  - now rewrite Z.eqb_refl.
  - destruct (k' =? k)%Z eqn:E; simpl; [now rewrite Z.eqb_refl|now rewrite E].
Qed.

Lemma px_zeros (h w i j : nat) : i < h -> j < w -> px (zeros h w) i j = 0%Z.
Proof. intros Hi Hj. unfold zeros. now rewrite px_mk. Qed.

Lemma bpx_px (m : image) (i j : nat) :
  i < rows m -> j < cols m -> bpx m i j = px m i j.
Proof.
  intros Hi Hj. unfold bpx.
  destruct (Nat.eqb_spec (rows m) 1) as [E|_];
    destruct (Nat.eqb_spec (cols m) 1) as [F|_];
    repeat f_equal; lia.
Qed.

Lemma fits_axis_refl (n : nat) : fits_axis n n = true.
Proof. unfold fits_axis. now rewrite Nat.eqb_refl. Qed.

Lemma slice_within (n h : nat) (r : Z) :
  (0 <= r)%Z -> (r + Z.of_nat h <= Z.of_nat n)%Z ->
  slice n r (r + Z.of_nat h) = (Z.to_nat r, h).
Proof.
  intros H0 H1. unfold slice, slice_bound.
  replace (r <? 0)%Z with false by (symmetry; apply Z.ltb_ge; lia).
  replace (r + Z.of_nat h <? 0)%Z with false by (symmetry; apply Z.ltb_ge; lia).
  f_equal; lia.
Qed.

Lemma in_window_iff (s len i : nat) : in_window s len i = true <-> s <= i < s + len.
Proof.
  unfold in_window. rewrite andb_true_iff, Nat.leb_le, Nat.ltb_lt. reflexivity.
Qed.

(** Within the frame, the target mask [add_mask] builds is the placement. *)
Lemma set_slice_zeros_fits (H W : nat) (m : image) (r c : Z) :
  fits H W m (r, c) ->
  set_slice (zeros H W) r (r + Z.of_nat (rows m)) c (c + Z.of_nat (cols m)) m
  = Ok (placement H W m (Some (r, c))).
Proof.
  intros [Hr0 [Hr1 [Hc0 Hc1]]]. cbn [fst snd] in *.
  unfold set_slice. cbn [rows cols zeros mk].
  rewrite (slice_within H (rows m) Hr0 Hr1), (slice_within W (cols m) Hc0 Hc1).
  rewrite !fits_axis_refl. cbn [andb]. f_equal.
  unfold placement. apply mk_ext. intros i j Hi Hj.
  destruct (in_window (Z.to_nat r) (rows m) i) eqn:Ei;
    destruct (in_window (Z.to_nat c) (cols m) j) eqn:Ej; cbn [andb];
    try (apply px_zeros; assumption).
  apply in_window_iff in Ei. apply in_window_iff in Ej.
  apply bpx_px; lia.
Qed.

Lemma rows_placement (H W : nat) (m : image) (o : option (Z * Z)) :
  admissible H W m o -> rows (placement H W m o) = H /\ cols (placement H W m o) = W.
Proof. destruct o as [[r c]|]; simpl; [now split|tauto]. Qed.

Lemma add_same_shape (a b : image) :
  rows a = rows b -> cols a = cols b ->
  add a b = Ok (mk (rows a) (cols a) (fun i j => wrap8 (bpx a i j + bpx b i j))).
Proof.
  intros Hr Hc. unfold add, bdim. rewrite <- Hr, <- Hc, !Nat.eqb_refl. reflexivity.
Qed.

Lemma iadd_same_shape (a b : image) :
  rows a = rows b -> cols a = cols b ->
  iadd a b = Ok (mk (rows a) (cols a) (fun i j => wrap8 (px a i j + bpx b i j))).
Proof.
  intros Hr Hc. unfold iadd. rewrite <- Hr, <- Hc, !fits_axis_refl. reflexivity.
Qed.

Lemma set_where_same_shape (a c : image) :
  rows a = rows c -> cols a = cols c ->
  set_where_gt1 a c
  = Ok (mk (rows a) (cols a) (fun i j => if (1 <? px c i j)%Z then 1%Z else px a i j)).
Proof.
  intros Hr Hc. unfold set_where_gt1, same_shape.
  rewrite <- Hr, <- Hc, !Nat.eqb_refl. reflexivity.
Qed.

Lemma entry_mask_shaped (H W : nat) (e : entry) :
  entry_shaped H W e -> rows (entry_mask e) = H /\ cols (entry_mask e) = W.
Proof. destruct e; simpl; tauto. Qed.

(** A source that is not empty is dilated. *)
Lemma dilate_some (src : image) (kernel : option image) :
  0 < rows src -> 0 < cols src ->
  dilate (Some src) kernel = Ok (dilate_image src kernel).
Proof.
  intros Hr Hc. unfold dilate.
  destruct (Nat.eqb_spec (rows src) 0) as [E|_]; [lia|].
  destruct (Nat.eqb_spec (cols src) 0) as [E|_]; [lia|]. reflexivity.
Qed.

(** An empty source is rejected. *)
Lemma dilate_empty (src : image) (kernel : option image) :
  rows src = 0 \/ cols src = 0 -> dilate (Some src) kernel = Raise CvError.
Proof.
  intros [E|E]; unfold dilate; rewrite E; [reflexivity|].
  now rewrite Nat.eqb_refl, orb_true_r.
Qed.

(** The branch with border tracking, once the target mask [t] is built, on
    a frame that is not empty. *)
Lemma bordered_step_target (self : MasksComposer.t) (e : entry) (m : image)
    (o : option (Z * Z)) (H W : nat) (t : image) :
  0 < H -> 0 < W ->
  entry_shaped H W e -> rows t = H -> cols t = W ->
  target_mask e m o = Ok t ->
  exists M B,
    add_mask_bordered self e (Some m) o = Ok (Bordered M B)
    /\ (rows M = H /\ cols M = W) /\ (rows B = H /\ cols B = W)
    /\ (forall i j, i < H -> j < W ->
        px M i j = clip01 (wrap8 (px (entry_mask e) i j + px t i j)))
    /\ (forall i j, i < H -> j < W ->
        px B i j
        = clip01 (wrap8
            ((if (1 <? wrap8 (px (dilate_image (entry_mask e) (_dilate_masks_kernel self)) i j
                              + px (dilate_image t
                                      (_dilate_masks_kernel self)) i j))%Z
              then 1 else 0) + carried_border e o i j))).
Proof.
  intros HH HW He Pr Pc Htarget. unfold target_mask in Htarget.
  destruct (@entry_mask_shaped H W e He) as [Hr Hc].
  unfold add_mask_bordered.
  assert (Hplaced :
    match o with
    | Some (r, c) =>
        bind (set_slice (zeros_like (entry_mask e)) r (r + Z.of_nat (rows m)) c
                  (c + Z.of_nat (cols m)) m)
          (fun target_mask =>
             Ok (Some target_mask,
                 match e with Bordered _ b => Some b | Plain _ => None end))
    | None => Ok (Some m, None)
    end = Ok (Some t,
              match o, e with Some _, Bordered _ b => Some b | _, _ => None end)).
  { destruct o as [[r c]|]; [now rewrite Htarget|].
    now inversion Htarget. }
  rewrite Hplaced. cbn [bind].
  unfold _calc_border_between_masks.
  rewrite (@dilate_some (entry_mask e)) by lia.
  rewrite (@dilate_some t) by lia. cbn [bind].
  rewrite add_same_shape by (cbn [dilate_image rows cols mk]; congruence).
  cbn [bind].
  rewrite set_where_same_shape by reflexivity.
  cbn [bind].
  rewrite (iadd_same_shape (entry_mask e) (t)) by congruence.
  cbn [bind].
  match goal with |- context [mk ?h ?w ?f] =>
    match f with context [dilate_image] => set (B0 := mk h w f) end end.
  assert (HB0 : rows B0 = H /\ cols B0 = W) by (subst B0; cbn; now split).
  assert (PB0 : forall i j, i < H -> j < W ->
            px B0 i j
            = if (1 <? wrap8 (px (dilate_image (entry_mask e) (_dilate_masks_kernel self)) i j
                              + px (dilate_image t
                                      (_dilate_masks_kernel self)) i j))%Z
              then 1%Z else 0%Z).
  { intros i j Hi Hj. subst B0.
    rewrite px_mk by (cbn; lia).
    rewrite px_mk by (cbn; lia).
    rewrite !bpx_px by (cbn; lia).
    unfold zeros_like. rewrite px_zeros by lia. reflexivity. }
  clearbody B0.
  assert (Hbord : exists B1,
    match
      match o with
      | Some _ => match e with Plain _ => None | Bordered _ b => Some b end
      | None => None
      end
    with
    | Some prev => iadd B0 prev
    | None => Ok B0
    end = Ok B1
    /\ (rows B1 = H /\ cols B1 = W)
    /\ forall i j, i < H -> j < W ->
       clip01 (px B1 i j) = clip01 (wrap8 (px B0 i j + carried_border e o i j))).
  { assert (Hsame : forall i j, i < H -> j < W ->
              clip01 (px B0 i j) = clip01 (wrap8 (px B0 i j + 0))).
    { intros i j Hi Hj. rewrite PB0 by assumption.
      now destruct (1 <? _)%Z. }
    destruct o as [[r c]|]; [destruct e as [a|a b]|];
      cbn [carried_border]; try (exists B0; now repeat split).
    destruct He as [_ [Hbr Hbc]].
    rewrite iadd_same_shape by (destruct HB0; congruence).
    eexists. split; [reflexivity|]. split; [exact HB0|].
    intros i j Hi Hj. destruct HB0 as [E1 E2].
    rewrite px_mk by lia. now rewrite bpx_px by lia. }
  destruct Hbord as [B1 [-> [[HB1r HB1c] PB1]]]. cbn [bind].
  eexists. eexists. split; [reflexivity|].
  split; [cbn; now split|]. split; [cbn; now split|].
  split; intros i j Hi Hj; unfold clip; rewrite px_mk by (cbn; lia).
  - rewrite px_mk by lia. now rewrite bpx_px by lia.
  - rewrite <- PB0 by assumption. now apply PB1.
Qed.

Lemma target_mask_placement (e : entry) (m : image) (o : option (Z * Z)) (H W : nat) :
  entry_shaped H W e -> admissible H W m o ->
  target_mask e m o = Ok (placement H W m o).
Proof.
  intros He Hadm. destruct (@entry_mask_shaped H W e He) as [Hr Hc].
  destruct o as [[r c]|]; [|reflexivity].
  unfold target_mask, zeros_like. rewrite Hr, Hc. now apply set_slice_zeros_fits.
Qed.

(** The same for a contribution that is admissible: the target mask is its
    placement. *)
Lemma bordered_step (self : MasksComposer.t) (e : entry) (m : image)
    (o : option (Z * Z)) (H W : nat) :
  0 < H -> 0 < W ->
  entry_shaped H W e -> admissible H W m o ->
  exists M B,
    add_mask_bordered self e (Some m) o = Ok (Bordered M B)
    /\ (rows M = H /\ cols M = W) /\ (rows B = H /\ cols B = W)
    /\ (forall i j, i < H -> j < W ->
        px M i j = clip01 (wrap8 (px (entry_mask e) i j + px (placement H W m o) i j)))
    /\ (forall i j, i < H -> j < W ->
        px B i j
        = clip01 (wrap8
            ((if (1 <? wrap8 (px (dilate_image (entry_mask e) (_dilate_masks_kernel self)) i j
                              + px (dilate_image (placement H W m o)
                                      (_dilate_masks_kernel self)) i j))%Z
              then 1 else 0) + carried_border e o i j))).
Proof.
  intros HH HW He Hadm.
  destruct (@rows_placement H W m o Hadm) as [Pr Pc].
  exact (@bordered_step_target self e m o H W (placement H W m o) HH HW He Pr Pc
           (@target_mask_placement e m o H W He Hadm)).
Qed.

(** A mask that fits an empty frame is assigned, and the dilation of the
    empty canvas raises. *)
Lemma bordered_step_empty_fits (self : MasksComposer.t) (e : entry) (m : image)
    (r c : Z) (H W : nat) :
  entry_shaped H W e -> fits H W m (r, c) -> H = 0 \/ W = 0 ->
  add_mask_bordered self e (Some m) (Some (r, c)) = Raise CvError.
Proof.
  intros He Hf Hemp. destruct (@entry_mask_shaped H W e He) as [Hr Hc].
  pose proof (@target_mask_placement e m (Some (r, c)) H W He Hf) as Ht.
  unfold target_mask in Ht.
  unfold add_mask_bordered. rewrite Ht. cbn [bind].
  unfold _calc_border_between_masks.
  rewrite dilate_empty by (rewrite Hr, Hc; exact Hemp). reflexivity.
Qed.

(** Without a second mask the border computation raises, in the dilation
    of the first mask or in that of [None]. *)
Lemma calc_border_of_None (self : MasksComposer.t) (mask1 : image) :
  _calc_border_between_masks self mask1 None = Raise CvError.
Proof.
  unfold _calc_border_between_masks, dilate.
  destruct ((rows mask1 =? 0) || (cols mask1 =? 0)); reflexivity.
Qed.

(** On an empty frame the branch with border tracking raises: the
    assignment of the mask may fail first, the dilation of the empty canvas
    fails otherwise. *)
Lemma bordered_step_empty (self : MasksComposer.t) (e : entry) (m : image)
    (r c : Z) (H W : nat) :
  entry_shaped H W e -> H = 0 \/ W = 0 ->
  add_mask_bordered self e (Some m) (Some (r, c)) = Raise ValueError
  \/ add_mask_bordered self e (Some m) (Some (r, c)) = Raise CvError.
Proof.
  intros He Hemp. destruct (@entry_mask_shaped H W e He) as [Hr Hc].
  unfold add_mask_bordered.
  destruct (set_slice (zeros_like (entry_mask e)) r (r + Z.of_nat (rows m)) c
              (c + Z.of_nat (cols m)) m) as [t|ex] eqn:E; cbn [bind].
  - right. unfold _calc_border_between_masks.
    rewrite dilate_empty by (rewrite Hr, Hc; exact Hemp). reflexivity.
  - left. unfold set_slice in E.
    destruct (slice _ r _) as [rs rl]. destruct (slice _ c _) as [cs cl].
    destruct (fits_axis _ _ && fits_axis _ _); [discriminate|]. now inversion E.
Qed.

Lemma bordered_step_raise (self : MasksComposer.t) (e : entry) (m : image)
    (o : option (Z * Z)) (ex : exn) :
  target_mask e m o = Raise ex -> add_mask_bordered self e (Some m) o = Raise ex.
Proof.
  unfold target_mask, add_mask_bordered. destruct o as [[r c]|]; [|discriminate].
  intros ->. reflexivity.
Qed.

(** ** Dilation keeps masks binary *)

Lemma dilate_at_ind (P : Z -> Prop) (src : image) (offs : list (Z * Z)) (y x : Z) :
  P 0%Z -> (forall a b, P a -> P b -> P (Z.max a b)) ->
  (forall v u, P (sample src v u)) ->
  P (dilate_at src offs y x).
Proof.
  intros P0 Pmax Ps. unfold dilate_at.
  induction offs as [|o offs IH]; simpl; [exact P0|].
  apply Pmax; [apply Ps|exact IH].
Qed.

Lemma sample_cases (src : image) (y x : Z) :
  sample src y x = 0%Z
  \/ exists i j, i < rows src /\ j < cols src /\ sample src y x = px src i j.
Proof.
  unfold sample.
  destruct ((0 <=? y) && (y <? Z.of_nat (rows src)) && (0 <=? x)
            && (x <? Z.of_nat (cols src)))%Z eqn:E; [|now left].
  right. exists (Z.to_nat y), (Z.to_nat x).
  rewrite !andb_true_iff in E. destruct E as [[[E1 E2] E3] E4].
  apply Z.leb_le in E1, E3. apply Z.ltb_lt in E2, E4.
  repeat split; lia.
Qed.

Lemma dilate_binary (src : image) (kernel : option image) (i j : nat) :
  binary src -> i < rows src -> j < cols src ->
  px (dilate_image src kernel) i j = 0%Z \/ px (dilate_image src kernel) i j = 1%Z.
Proof.
  intros Hb Hi Hj. unfold dilate_image. rewrite px_mk by assumption.
  apply dilate_at_ind with (P := fun v => v = 0%Z \/ v = 1%Z).
  - now left.
  - intros a b [->| ->] [->| ->]; cbn; auto.
  - intros v u. destruct (sample_cases src v u) as [E|[i' [j' [Hi' [Hj' E]]]]];
      rewrite E; [now left|now apply Hb].
Qed.

Lemma dilate_zero (src : image) (kernel : option image) (i j : nat) :
  (forall i j, i < rows src -> j < cols src -> px src i j = 0%Z) ->
  i < rows src -> j < cols src ->
  px (dilate_image src kernel) i j = 0%Z.
Proof.
  intros Hz Hi Hj. unfold dilate_image. rewrite px_mk by assumption.
  apply dilate_at_ind with (P := fun v => v = 0%Z).
  - reflexivity.
  - intros a b -> ->. reflexivity.
  - intros v u. destruct (sample_cases src v u) as [E|[i' [j' [Hi' [Hj' E]]]]];
      rewrite E; [reflexivity|now apply Hz].
Qed.

Lemma placement_binary (H W : nat) (m : image) (o : option (Z * Z)) :
  binary m -> admissible H W m o -> binary (placement H W m o).
Proof.
  intros Hb Hadm. destruct o as [[r c]|]; [|exact Hb].
  intros i j Hi Hj. cbn [placement rows cols mk] in *.
  rewrite px_mk by assumption.
  destruct (in_window (Z.to_nat r) (rows m) i) eqn:Ei;
    destruct (in_window (Z.to_nat c) (cols m) j) eqn:Ej; cbn [andb]; try now left.
  apply in_window_iff in Ei. apply in_window_iff in Ej.
  apply Hb; lia.
Qed.

(** ** The steps of [add_mask] *)

Lemma get_class_ensure (self : MasksComposer.t) (cls : Z) :
  get_class (ensure_class self cls) cls = get_class self cls.
Proof.
  unfold ensure_class, get_class, dict_mem.
  destruct (dict_get (_masks self) cls) eqn:E; [now rewrite E|].
  cbn [with_masks _masks _mask_shape]. now rewrite dict_get_set.
Qed.

Lemma tracks_borders_ensure (self : MasksComposer.t) (cls : Z) :
  tracks_borders (ensure_class self cls) cls = tracks_borders self cls.
Proof. unfold ensure_class. now destruct (dict_mem (_masks self) cls). Qed.

Lemma kernel_ensure (self : MasksComposer.t) (cls : Z) :
  _dilate_masks_kernel (ensure_class self cls) = _dilate_masks_kernel self.
Proof. unfold ensure_class. now destruct (dict_mem (_masks self) cls). Qed.

Lemma shape_ensure (self : MasksComposer.t) (cls : Z) :
  _mask_shape (ensure_class self cls) = _mask_shape self.
Proof. unfold ensure_class. now destruct (dict_mem (_masks self) cls). Qed.

Lemma ensure_class_present (self : MasksComposer.t) (cls : Z) (e : entry) :
  dict_get (_masks self) cls = Some e -> ensure_class self cls = self.
Proof. intros E. unfold ensure_class, dict_mem. now rewrite E. Qed.

Lemma tracks_borders_true (self : MasksComposer.t) (cls : Z) (l : list Z) :
  _borders_as_class self = true -> _borders_between_classes self = Some l ->
  In cls l -> tracks_borders self cls = Ok true.
Proof.
  intros Hb Hl Hin. unfold tracks_borders, in_between_classes. rewrite Hb, Hl.
  f_equal. apply existsb_exists. exists cls. split; [exact Hin|apply Z.eqb_refl].
Qed.

(** A successful call on a class with border tracking. *)
Lemma add_mask_tracked (self : MasksComposer.t) (mask : option image) (cls : Z)
    (offset : option (Z * Z)) (e' : entry) :
  tracks_borders self cls = Ok true ->
  add_mask_bordered (ensure_class self cls) (get_class self cls) mask offset = Ok e' ->
  exists st,
    add_mask self mask cls offset = (st, None)
    /\ dict_get (_masks st) cls = Some e'
    /\ _mask_shape st = _mask_shape self
    /\ _dilate_masks_kernel st = _dilate_masks_kernel self
    /\ tracks_borders st cls = Ok true.
Proof.
  intros Ht Hstep. unfold add_mask.
  rewrite tracks_borders_ensure, Ht, get_class_ensure. cbn [bind]. rewrite Hstep.
  eexists. split; [reflexivity|].
  cbn [with_masks _masks _mask_shape _dilate_masks_kernel].
  rewrite dict_get_set, shape_ensure, kernel_ensure.
  repeat split.
  rewrite <- Ht, <- (tracks_borders_ensure self cls). reflexivity.
Qed.

Lemma slice_nonneg (n h : nat) (r : Z) :
  (0 <= r)%Z ->
  slice n r (r + Z.of_nat h)
  = (Nat.min (Z.to_nat r) n, Nat.min (Z.to_nat r + h) n - Nat.min (Z.to_nat r) n).
Proof.
  intros H0. unfold slice, slice_bound.
  replace (r <? 0)%Z with false by (symmetry; apply Z.ltb_ge; lia).
  replace (r + Z.of_nat h <? 0)%Z with false by (symmetry; apply Z.ltb_ge; lia).
  f_equal; lia.
Qed.

(** A window cut at the frame's edge that still takes the mask is empty. *)
Lemma cut_window_is_empty (n h : nat) (r : Z) :
  (0 <= r)%Z -> (Z.of_nat n < r + Z.of_nat h)%Z ->
  fits_axis h (Nat.min (Z.to_nat r + h) n - Nat.min (Z.to_nat r) n) = true ->
  Nat.min (Z.to_nat r + h) n - Nat.min (Z.to_nat r) n = 0.
Proof.
  intros H0 Hex Hfit. unfold fits_axis in Hfit.
  apply orb_true_iff in Hfit. destruct Hfit as [E|E]; apply Nat.eqb_eq in E; lia.
Qed.

Lemma in_window_empty (s i : nat) : in_window s 0 i = false.
Proof.
  unfold in_window. destruct (s <=? i) eqn:E; [|reflexivity].
  apply Nat.leb_le in E. cbn [andb]. apply Nat.ltb_ge. lia.
Qed.

Lemma not_fits_cases (H W : nat) (m : image) (r c : Z) :
  (0 <= r)%Z -> (0 <= c)%Z -> ~ fits H W m (r, c) ->
  (Z.of_nat H < r + Z.of_nat (rows m))%Z \/ (Z.of_nat W < c + Z.of_nat (cols m))%Z.
Proof. unfold fits. cbn [fst snd]. lia. Qed.

Lemma window_test_empty (H W : nat) (m : image) (r c : Z) (i j : nat) :
  (0 <= r)%Z -> (0 <= c)%Z -> ~ fits H W m (r, c) ->
  fits_axis (rows m) (Nat.min (Z.to_nat r + rows m) H - Nat.min (Z.to_nat r) H)
  && fits_axis (cols m) (Nat.min (Z.to_nat c + cols m) W - Nat.min (Z.to_nat c) W) = true ->
  in_window (Nat.min (Z.to_nat r) H)
            (Nat.min (Z.to_nat r + rows m) H - Nat.min (Z.to_nat r) H) i
  && in_window (Nat.min (Z.to_nat c) W)
               (Nat.min (Z.to_nat c + cols m) W - Nat.min (Z.to_nat c) W) j = false.
Proof.
  intros Hr Hc Hno Hfit. apply andb_true_iff in Hfit. destruct Hfit as [F1 F2].
  destruct (not_fits_cases Hr Hc Hno) as [E|E].
  - rewrite (cut_window_is_empty H (rows m) Hr E F1), in_window_empty. reflexivity.
  - rewrite (cut_window_is_empty W (cols m) Hc E F2), in_window_empty.
    apply andb_false_r.
Qed.

(** [a[r:r+h, c:c+w] += m] within the frame. *)
Lemma iadd_slice_fits (a m : image) (r c : Z) :
  fits (rows a) (cols a) m (r, c) ->
  iadd_slice a r (r + Z.of_nat (rows m)) c (c + Z.of_nat (cols m)) m
  = Ok (mk (rows a) (cols a) (fun i j =>
          if in_window (Z.to_nat r) (rows m) i && in_window (Z.to_nat c) (cols m) j
          then wrap8 (px a i j + px m (i - Z.to_nat r) (j - Z.to_nat c))
          else px a i j)).
Proof.
  intros [Hr0 [Hr1 [Hc0 Hc1]]]. cbn [fst snd] in *.
  unfold iadd_slice.
  rewrite (slice_within (rows a) (rows m) Hr0 Hr1), (slice_within (cols a) (cols m) Hc0 Hc1).
  rewrite !fits_axis_refl. cbn [andb]. f_equal.
  apply mk_ext. intros i j Hi Hj.
  destruct (in_window (Z.to_nat r) (rows m) i) eqn:Ei;
    destruct (in_window (Z.to_nat c) (cols m) j) eqn:Ej; cbn [andb]; try reflexivity.
  apply in_window_iff in Ei. apply in_window_iff in Ej.
  rewrite bpx_px by lia. reflexivity.
Qed.

(** Beyond the frame (non-negative offset): [ValueError], or nothing is
    written. *)
Lemma iadd_slice_exceeds (a m : image) (r c : Z) :
  (0 <= r)%Z -> (0 <= c)%Z -> ~ fits (rows a) (cols a) m (r, c) ->
  iadd_slice a r (r + Z.of_nat (rows m)) c (c + Z.of_nat (cols m)) m = Raise ValueError
  \/ iadd_slice a r (r + Z.of_nat (rows m)) c (c + Z.of_nat (cols m)) m
     = Ok (mk (rows a) (cols a) (fun i j => px a i j)).
Proof.
  intros Hr Hc Hno. unfold iadd_slice.
  rewrite (slice_nonneg (rows a) (rows m) Hr), (slice_nonneg (cols a) (cols m) Hc).
  destruct (fits_axis (rows m) _ && fits_axis (cols m) _) eqn:Hfit; [right|now left].
  f_equal. apply mk_ext. intros i j Hi Hj.
  now rewrite (window_test_empty i j Hr Hc Hno Hfit).
Qed.

Lemma set_slice_exceeds (a m : image) (r c : Z) :
  (0 <= r)%Z -> (0 <= c)%Z -> ~ fits (rows a) (cols a) m (r, c) ->
  set_slice a r (r + Z.of_nat (rows m)) c (c + Z.of_nat (cols m)) m = Raise ValueError
  \/ set_slice a r (r + Z.of_nat (rows m)) c (c + Z.of_nat (cols m)) m
     = Ok (mk (rows a) (cols a) (fun i j => px a i j)).
Proof.
  intros Hr Hc Hno. unfold set_slice.
  rewrite (slice_nonneg (rows a) (rows m) Hr), (slice_nonneg (cols a) (cols m) Hc).
  destruct (fits_axis (rows m) _ && fits_axis (cols m) _) eqn:Hfit; [right|now left].
  f_equal. apply mk_ext. intros i j Hi Hj.
  now rewrite (window_test_empty i j Hr Hc Hno Hfit).
Qed.

(** [add_mask] in terms of the branch it takes. *)
Lemma add_mask_step (self : MasksComposer.t) (mask : option image) (cls : Z)
    (offset : option (Z * Z)) (tracked : bool) :
  tracks_borders self cls = Ok tracked ->
  add_mask self mask cls offset
  = match (if tracked
           then add_mask_bordered (ensure_class self cls) (get_class self cls) mask offset
           else add_mask_plain (get_class self cls) mask offset)
    with
    | Ok e' =>
        (with_masks (ensure_class self cls)
           (dict_set (_masks (ensure_class self cls)) cls e'), None)
    | Raise ex => (ensure_class self cls, Some ex)
    end.
Proof.
  intros Ht. unfold add_mask.
  rewrite tracks_borders_ensure, Ht, get_class_ensure. reflexivity.
Qed.

Lemma get_class_set (self : MasksComposer.t) (cls : Z) (e : entry) :
  get_class (with_masks self (dict_set (_masks self) cls e)) cls = e.
Proof.
  unfold get_class. cbn [with_masks _masks]. now rewrite dict_get_set.
Qed.

Lemma px_clip01 (a : image) (i j : nat) :
  i < rows a -> j < cols a ->
  px (clip a 0 1) i j = 0%Z \/ px (clip a 0 1) i j = 1%Z.
Proof.
  intros Hi Hj. unfold clip. rewrite px_mk by assumption. lia.
Qed.

(** Whatever the branch with border tracking stores is clipped to {0, 1}. *)
Lemma bordered_result_is_binary (self : MasksComposer.t) (e : entry)
    (mask : option image) (o : option (Z * Z)) (e' : entry) :
  add_mask_bordered self e mask o = Ok e' ->
  exists M B, e' = Bordered M B /\ binary M /\ binary B.
Proof.
  unfold add_mask_bordered.
  destruct (match o with Some _ => _ | None => _ end) as [[tm prev]|ex];
    cbn [bind]; [|discriminate].
  destruct (_calc_border_between_masks self (entry_mask e) tm) as [b0|ex];
    cbn [bind]; [|discriminate].
  destruct (match prev with Some _ => _ | None => _ end) as [b1|ex];
    cbn [bind]; [|discriminate].
  destruct (match tm with Some _ => _ | None => _ end) as [m1|ex];
    cbn [bind]; [|discriminate].
  intros E. inversion E. eexists. eexists. split; [reflexivity|].
  split; intros i j Hi Hj; apply px_clip01; assumption.
Qed.

End ComposerFacts.

(* ================================================================== *)
(** * Facts about polygons *)

Module PolygonFacts.
Import NumPy NumPyFacts SuperviselyDataset Polygon.











End PolygonFacts.

(* ================================================================== *)
(** * Facts about the normaliser *)

Module NormalizerFacts.
Import NumPy NumPyFacts EmptyClassesAdd NormalizerExamples.

Lemma prefix_app (s t : string) : String.prefix s (s ++ t) = true.
Proof.
  induction s as [|a s IH]; simpl; [destruct t; reflexivity|].
  destruct (ascii_dec a a) as [_|N]; [exact IH|now elim N].
Qed.

Lemma append_empty_r (s : string) : (s ++ "")%string = s.
Proof. induction s as [|a s IH]; simpl; [reflexivity|now rewrite IH]. Qed.

Lemma append_assoc (a b c : string) :
  (a ++ (b ++ c))%string = ((a ++ b) ++ c)%string.
Proof. induction a as [|x a IH]; simpl; [reflexivity|now rewrite IH]. Qed.

Lemma contains_prefix (s msg : string) :
  String.prefix s msg = true -> contains s msg = true.
Proof. intros H. destruct msg; simpl; simpl in H; now rewrite H. Qed.

Lemma contains_app (s pre post : string) :
  contains s (pre ++ s ++ post) = true.
Proof.
  induction pre as [|a pre IH].
  - change ("" ++ s ++ post)%string with (s ++ post)%string.
    apply contains_prefix, prefix_app.
  - change (String a pre ++ s ++ post)%string with (String a (pre ++ s ++ post)).
    cbn [contains]. rewrite IH.
    now destruct (String.prefix s (String a (pre ++ s ++ post))).
Qed.

Lemma contains_end (s pre : string) : contains s (pre ++ s) = true.
Proof.
  rewrite <- (append_empty_r s) at 2. apply contains_app.
Qed.

Lemma init_inv (D : Type) (ds : dataset D) (k c : Z) (w : t D) :
  init ds k c = Ok w -> w = Wrapper ds k c /\ (c < k)%Z.
Proof.
  unfold init. destruct (k <=? c)%Z eqn:E; intros H; inversion H.
  apply Z.leb_gt in E. now split.
Qed.

(** A read of a two-dimensional target through a wrapper whose channel
    index selects one of its channels, counted from either end, succeeds
    with the expanded target. *)
Lemma getitem_2d_channel (D : Type) (w : t D) (item : Z) (d : D) (target : array)
    (h wd : nat) :
  _dataset w item = Ok (Sample d target) ->
  array_shape target = [h; wd] ->
  (- _target_classes_num w <= _exists_class_idx w < _target_classes_num w)%Z ->
  getitem w item
  = Ok (Sample d (U8 (expanded h wd (_target_classes_num w)
                        (NormalizerSpec.channel_of (_target_classes_num w)
                           (_exists_class_idx w)) target))).
Proof.
  intros Hds Hshape Hc.
  unfold getitem, NormalizerSpec.channel_of.
  rewrite Hds. cbn [bind sample_target sample_data]. rewrite Hshape.
  cbn [length Nat.ltb Nat.leb Nat.eqb andb].
  replace (_target_classes_num w <? 0)%Z with false by (symmetry; apply Z.ltb_ge; lia).
  destruct (Z.ltb_spec (_exists_class_idx w) 0).
  - replace (_exists_class_idx w + _target_classes_num w <? 0)%Z
      with false by (symmetry; apply Z.ltb_ge; lia).
    replace (_target_classes_num w <=? _exists_class_idx w + _target_classes_num w)%Z
      with false by (symmetry; apply Z.leb_gt; lia).
    reflexivity.
  - replace (_exists_class_idx w <? 0)%Z with false by (symmetry; apply Z.ltb_ge; lia).
    replace (_target_classes_num w <=? _exists_class_idx w)%Z
      with false by (symmetry; apply Z.leb_gt; lia).
    reflexivity.
Qed.

(** A read of a target with at least two dimensions that passes the two
    shape checks, through a wrapper whose channel index selects no
    channel. *)
Lemma getitem_bad_channel (D : Type) (w : t D) (item : Z) (s : sample D) :
  _dataset w item = Ok s ->
  length (array_shape (sample_target s)) = 2 ->
  ((_target_classes_num w < 0)%Z -> getitem w item = Raise ValueError)
  /\ ((0 <= _target_classes_num w)%Z ->
      (_exists_class_idx w < - _target_classes_num w
       \/ _target_classes_num w <= _exists_class_idx w)%Z ->
      getitem w item = Raise IndexError).
Proof.
  intros Hds Hl. unfold getitem. rewrite Hds. cbn [bind].
  destruct (array_shape (sample_target s)) as [|h [|wd [|n rest]]]; try discriminate.
  cbn [length Nat.ltb Nat.leb Nat.eqb andb]. split.
  - intros Hk. now replace (_target_classes_num w <? 0)%Z with true
      by (symmetry; apply Z.ltb_lt; lia).
  - intros Hk Hc.
    replace (_target_classes_num w <? 0)%Z with false by (symmetry; apply Z.ltb_ge; lia).
    destruct (Z.ltb_spec (_exists_class_idx w) 0).
    + replace (_exists_class_idx w + _target_classes_num w <? 0)%Z
        with true by (symmetry; apply Z.ltb_lt; lia).
      reflexivity.
    + replace (_exists_class_idx w <? 0)%Z with false by (symmetry; apply Z.ltb_ge; lia).
      replace (_target_classes_num w <=? _exists_class_idx w)%Z
        with true by (symmetry; apply Z.leb_le; lia).
      reflexivity.
Qed.

Lemma item_expanded (h w : nat) (k c : Z) (value : array) (i j ch : nat) :
  i < h -> j < w -> ch < Z.to_nat k ->
  item 0%Z (expanded h w k c value) [i; j; ch]
  = if ch =? Z.to_nat c then item_as_u8 value [i; j] else 0%Z.
Proof.
  intros Hi Hj Hch. unfold expanded. rewrite item_build; [reflexivity|].
  repeat constructor; assumption.
Qed.

(** Whatever a read returns has a [uint8] target. *)
Lemma getitem_returns_u8 (D : Type) (w : t D) (item : Z) (r : sample D) :
  getitem w item = Ok r -> exists out, sample_target r = U8 out.
Proof.
  unfold getitem. destruct (_dataset w item) as [cur|ex]; cbn [bind]; [|discriminate].
  destruct (3 <? length (array_shape (sample_target cur))); [discriminate|].
  destruct ((length (array_shape (sample_target cur)) =? 3) && _); [discriminate|].
  destruct (array_shape (sample_target cur)) as [|h [|wd rest]]; try discriminate.
  destruct (_target_classes_num w <? 0)%Z; [discriminate|].
  destruct ((_ <? 0) || _)%Z; [discriminate|].
  destruct (write_channel _ _ _ _ _ _) as [target|ex]; cbn [bind]; [|discriminate].
  intros E. inversion E. eexists. reflexivity.
Qed.

End NormalizerFacts.

Module CastFacts.
Import NumPy.

Lemma divide_by_255_table :
  forallb (fun n => Z.eqb (f64_to_u8 (divide (Z.of_nat n) 255))
                          (if n =? 255 then 1%Z else 0%Z))
          (seq 0 256) = true.
Proof. vm_compute. reflexivity. Qed.

Lemma f64_to_u8_divide_by_255 (z : Z) :
  (0 <= z <= 255)%Z ->
  f64_to_u8 (divide z 255) = if (z =? 255)%Z then 1%Z else 0%Z.
Proof.
  intros Hz.
  pose proof divide_by_255_table as T.
  rewrite forallb_forall in T.
  specialize (T (Z.to_nat z)).
  rewrite Z2Nat.id in T by lia.
  assert (Hin : In (Z.to_nat z) (seq 0 256)) by (apply in_seq; lia).
  apply T in Hin. apply Z.eqb_eq in Hin. rewrite Hin.
  destruct (Z.eqb_spec z 255) as [->|Hne]; [reflexivity|].
  destruct (Nat.eqb_spec (Z.to_nat z) 255) as [E|_]; [lia|reflexivity].
Qed.

Lemma f64_to_u8_range (x : float) : (0 <= f64_to_u8 x < 256)%Z.
Proof.
  unfold f64_to_u8, wrap8. destruct (fits_int32 (trunc x)); [|lia].
  apply Z.mod_pos_bound. lia.
Qed.

Lemma fits_int32_iff (z : Z) : fits_int32 z = true <-> (- 2 ^ 31 <= z < 2 ^ 31)%Z.
Proof.
  unfold fits_int32. rewrite andb_true_iff, Z.leb_le, Z.ltb_lt. reflexivity.
Qed.

(** Within the range of the conversion the stored byte is the integer part
    modulo 256. *)
Lemma f64_to_u8_fits (x : float) :
  (- 2 ^ 31 <= trunc x < 2 ^ 31)%Z -> f64_to_u8 x = wrap8 (trunc x).
Proof.
  intros Hx. unfold f64_to_u8. apply fits_int32_iff in Hx. now rewrite Hx.
Qed.



Lemma item_true_divide (a : ndarray Z) (idx : list nat) :
  item PrimFloat.zero (true_divide a 255) idx = divide (item 0%Z a idx) 255.
Proof.
  unfold item, true_divide. cbn [shape data].
  change PrimFloat.zero with ((fun z => divide z 255) 0%Z).
  apply (map_nth (fun z => divide z 255)).
Qed.

End CastFacts.

(* ================================================================== *)
(** * Facts about runs of the composer *)

Module ComposerMoreFacts.
Import NumPy NumPyFacts OpenCV MasksComposer ComposerSpec ComposerFacts ComposerRuns.

Lemma dict_get_set_other (d : dict) (k k' : Z) (v : entry) :
  k' <> k -> dict_get (dict_set d k v) k' = dict_get d k'.
Proof.
  intros Hne. induction d as [|[k0 v0] d IH]; simpl.
  - destruct (Z.eqb_spec k k'); [congruence|reflexivity].
  - destruct (Z.eqb_spec k0 k) as [->|Hk]; simpl.
    + destruct (Z.eqb_spec k k'); [congruence|reflexivity].
    + destruct (k0 =? k')%Z; [reflexivity|exact IH].
Qed.

Lemma keys_dict_set (d : dict) (k : Z) (v : entry) :
  keys (dict_set d k v) = if dict_mem d k then keys d else keys d ++ [k].
Proof.
  unfold dict_mem, keys. induction d as [|[k0 v0] d IH]; simpl; [reflexivity|].
  destruct (Z.eqb_spec k0 k) as [->|Hk]; simpl; [reflexivity|].
  rewrite IH. now destruct (dict_get d k).
Qed.

Lemma dict_mem_set (d : dict) (k : Z) (v : entry) : dict_mem (dict_set d k v) k = true.
Proof. unfold dict_mem. now rewrite dict_get_set. Qed.

Lemma keys_ensure (self : MasksComposer.t) (cls : Z) :
  keys (_masks (ensure_class self cls))
  = if dict_mem (_masks self) cls then keys (_masks self) else keys (_masks self) ++ [cls].
Proof.
  unfold ensure_class. destruct (dict_mem (_masks self) cls) eqn:E; [reflexivity|].
  cbn [with_masks _masks]. now rewrite keys_dict_set, E.
Qed.

Lemma dict_mem_ensure (self : MasksComposer.t) (cls : Z) :
  dict_mem (_masks (ensure_class self cls)) cls = true.
Proof.
  unfold ensure_class. destruct (dict_mem (_masks self) cls) eqn:E; [exact E|].
  cbn [with_masks _masks]. apply dict_mem_set.
Qed.

Lemma dict_get_ensure_other (self : MasksComposer.t) (cls cls' : Z) :
  cls' <> cls ->
  dict_get (_masks (ensure_class self cls)) cls' = dict_get (_masks self) cls'.
Proof.
  intros Hne. unfold ensure_class. destruct (dict_mem (_masks self) cls); [reflexivity|].
  cbn [with_masks _masks]. now apply dict_get_set_other.
Qed.

(** The composer [add_mask] leaves behind: the class allocated, and its
    entry replaced when the call returns normally. *)
Lemma add_mask_state (self : MasksComposer.t) (mask : option image) (cls : Z)
    (offset : option (Z * Z)) :
  (snd (add_mask self mask cls offset) <> None
   /\ fst (add_mask self mask cls offset) = ensure_class self cls)
  \/ (snd (add_mask self mask cls offset) = None
      /\ exists e',
           fst (add_mask self mask cls offset)
           = with_masks (ensure_class self cls)
               (dict_set (_masks (ensure_class self cls)) cls e')).
Proof.
  unfold add_mask.
  destruct (bind (tracks_borders (ensure_class self cls) cls) _) as [e'|ex]; cbn [fst snd].
  - right. split; [reflexivity|]. now exists e'.
  - left. split; [discriminate|reflexivity].
Qed.

End ComposerMoreFacts.

Module ComposerShapeFacts.
Import NumPy NumPyFacts OpenCV MasksComposer ComposerSpec ComposerFacts ComposerRuns.

Lemma iadd_shape (a b a' : image) :
  iadd a b = Ok a' -> rows a' = rows a /\ cols a' = cols a.
Proof.
  unfold iadd. destruct (fits_axis _ _ && fits_axis _ _); [|discriminate].
  intros E. inversion E. now split.
Qed.

Lemma iadd_slice_shape (a v a' : image) (r0 r1 c0 c1 : Z) :
  iadd_slice a r0 r1 c0 c1 v = Ok a' -> rows a' = rows a /\ cols a' = cols a.
Proof.
  unfold iadd_slice.
  destruct (slice (rows a) r0 r1) as [rs rl]. destruct (slice (cols a) c0 c1) as [cs cl].
  destruct (fits_axis _ _ && fits_axis _ _); [|discriminate].
  intros E. inversion E. now split.
Qed.

Lemma set_where_shape (a c a' : image) :
  set_where_gt1 a c = Ok a' -> rows a' = rows a /\ cols a' = cols a.
Proof.
  unfold set_where_gt1. destruct (same_shape a c); [|discriminate].
  intros E. inversion E. now split.
Qed.

Lemma calc_border_shape (self : MasksComposer.t) (m1 : image) (m2 : option image)
    (b : image) :
  _calc_border_between_masks self m1 m2 = Ok b -> rows b = rows m1 /\ cols b = cols m1.
Proof.
  unfold _calc_border_between_masks.
  destruct (dilate (Some m1) _) as [d1|ex]; cbn [bind]; [|discriminate].
  destruct (dilate m2 _) as [d2|ex]; cbn [bind]; [|discriminate].
  destruct (add d1 d2) as [s|ex]; cbn [bind]; [|discriminate].
  intros E. apply set_where_shape in E. exact E.
Qed.

(** What the branch with border tracking stores has the shape of the
    accumulated mask it started from. *)
Lemma bordered_result_shape (self : MasksComposer.t) (e : entry)
    (mask : option image) (o : option (Z * Z)) (e' : entry) (H W : nat) :
  rows (entry_mask e) = H -> cols (entry_mask e) = W ->
  add_mask_bordered self e mask o = Ok e' -> entry_shaped H W e'.
Proof.
  intros Hr Hc. unfold add_mask_bordered.
  destruct (match o with Some _ => _ | None => _ end) as [[tm prev]|ex];
    cbn [bind]; [|discriminate].
  destruct (_calc_border_between_masks self (entry_mask e) tm) as [b0|ex] eqn:Eb;
    cbn [bind]; [|discriminate].
  apply calc_border_shape in Eb. destruct Eb as [Br Bc].
  destruct (match prev with Some _ => _ | None => _ end) as [b1|ex] eqn:Ep;
    cbn [bind]; [|discriminate].
  assert (Hb1 : rows b1 = H /\ cols b1 = W).
  { destruct prev as [pb|].
    - apply iadd_shape in Ep. destruct Ep; split; congruence.
    - inversion Ep; subst. split; congruence. }
  destruct (match tm with Some _ => _ | None => _ end) as [m1|ex] eqn:Em;
    cbn [bind]; [|discriminate].
  assert (Hm1 : rows m1 = H /\ cols m1 = W).
  { destruct tm as [t|]; [|discriminate].
    apply iadd_shape in Em. destruct Em; split; congruence. }
  intros E. inversion E. cbn. tauto.
Qed.

Lemma plain_result_shape (e : entry) (mask : option image) (o : option (Z * Z))
    (e' : entry) (H W : nat) :
  entry_shaped H W e -> add_mask_plain e mask o = Ok e' -> entry_shaped H W e'.
Proof.
  intros He. unfold add_mask_plain.
  destruct o as [[r c]|].
  - destruct mask as [m|]; [|discriminate]. destruct e as [a|a b]; [|discriminate].
    destruct (iadd_slice a _ _ _ _ m) as [a'|ex] eqn:E; cbn [bind]; [|discriminate].
    apply iadd_slice_shape in E. intros E'. inversion E'. cbn in *.
    destruct E, He; split; congruence.
  - destruct e as [a|a b]; [|discriminate]. destruct mask as [m|]; [|discriminate].
    destruct (iadd a m) as [a'|ex] eqn:E; cbn [bind]; [|discriminate].
    apply iadd_shape in E. intros E'. inversion E'. cbn in *.
    destruct E, He; split; congruence.
Qed.

Lemma all_shaped_set (H W : nat) (d : dict) (k : Z) (v : entry) :
  all_shaped H W d -> entry_shaped H W v -> all_shaped H W (dict_set d k v).
Proof.
  unfold all_shaped. intros Hd Hv. induction d as [|[k0 v0] d IH]; simpl.
  - constructor; [exact Hv|constructor].
  - inversion Hd; subst. destruct (k0 =? k)%Z; constructor; auto.
Qed.

Lemma all_shaped_get (H W : nat) (d : dict) (k : Z) (e : entry) :
  all_shaped H W d -> dict_get d k = Some e -> entry_shaped H W e.
Proof.
  unfold all_shaped. intros Hd. induction d as [|[k0 v0] d IH]; simpl; [discriminate|].
  inversion Hd; subst. destruct (k0 =? k)%Z; [|now apply IH].
  intros E. inversion E; subst. assumption.
Qed.

Lemma zeros_shaped (H W : nat) : entry_shaped H W (Plain (zeros H W)).
Proof. now split. Qed.

Lemma all_shaped_ensure (self : MasksComposer.t) (cls : Z) (H W : nat) :
  _mask_shape self = (H, W) -> all_shaped H W (_masks self) ->
  all_shaped H W (_masks (ensure_class self cls)).
Proof.
  intros Hs Hd. unfold ensure_class.
  destruct (dict_mem (_masks self) cls); [exact Hd|].
  cbn [with_masks _masks]. rewrite Hs. apply all_shaped_set; [exact Hd|apply zeros_shaped].
Qed.

Lemma get_class_shaped (self : MasksComposer.t) (cls : Z) (H W : nat) :
  _mask_shape self = (H, W) -> all_shaped H W (_masks self) ->
  entry_shaped H W (get_class self cls).
Proof.
  intros Hs Hd. unfold get_class.
  destruct (dict_get (_masks self) cls) as [e|] eqn:E.
  - eapply all_shaped_get; eassumption.
  - rewrite Hs. apply zeros_shaped.
Qed.

End ComposerShapeFacts.

Module PlainRunFacts.
Import NumPy NumPyFacts OpenCV MasksComposer ComposerSpec ComposerFacts ComposerRuns.

Lemma tracks_borders_off (self : MasksComposer.t) (cls : Z) :
  _borders_as_class self = false -> tracks_borders self cls = Ok false.
Proof. intros E. unfold tracks_borders. now rewrite E. Qed.

Lemma flag_add_mask (self : MasksComposer.t) (mask : option image) (cls : Z)
    (offset : option (Z * Z)) :
  _borders_as_class (fst (add_mask self mask cls offset)) = _borders_as_class self.
Proof.
  unfold add_mask, ensure_class.
  destruct (dict_mem (_masks self) cls);
    destruct (bind _ _); reflexivity.
Qed.

(** One call without an offset on a class without border tracking whose
    canvas has the mask's shape. *)
Lemma plain_full_frame_step (self : MasksComposer.t) (m a : image) (cls : Z) :
  _borders_as_class self = false ->
  get_class self cls = Plain a -> rows a = rows m -> cols a = cols m ->
  snd (add_mask self (Some m) cls None) = None
  /\ get_class (fst (add_mask self (Some m) cls None)) cls
     = Plain (mk (rows a) (cols a) (fun i j => wrap8 (px a i j + bpx m i j))).
Proof.
  intros Hoff Hget Hr Hc.
  rewrite (@add_mask_step self (Some m) cls None false (tracks_borders_off self cls Hoff)).
  rewrite Hget. cbn [add_mask_plain].
  rewrite iadd_same_shape by assumption. cbn [bind fst snd].
  split; [reflexivity|]. apply get_class_set.
Qed.

End PlainRunFacts.

Module ComposeFacts.
Import NumPy NumPyFacts MasksComposer ComposerSpec ComposerRuns.

Lemma shape_eqb_eq (s1 s2 : list nat) : shape_eqb s1 s2 = true <-> s1 = s2.
Proof. unfold shape_eqb. destruct (list_eq_dec Nat.eq_dec s1 s2); split; congruence. Qed.

Lemma item_as_ndarray (m : image) (i j : nat) :
  item 0%Z (as_ndarray m) [i; j] = px m i j.
Proof.
  unfold item, as_ndarray, px. cbn [shape data ravel size fold_right].
  f_equal. lia.
Qed.

Lemma stack_raises (arrays : list (ndarray Z)) (axis : nat) (ex : exn) :
  stack arrays axis = Raise ex -> ex = ValueError.
Proof.
  unfold stack. destruct arrays as [|a rest]; [now inversion 1|].
  destruct (forallb _ rest); [|now inversion 1].
  destruct (axis <=? ndim a); [discriminate|now inversion 1].
Qed.

(** A successful stack: every array has the first one's shape, and the
    result has one more axis. *)
Lemma stack_ok (a : ndarray Z) (rest : list (ndarray Z)) (axis : nat) (r : ndarray Z) :
  stack (a :: rest) axis = Ok r ->
  (forall b, In b rest -> shape b = shape a) /\ ndim r = S (ndim a).
Proof.
  unfold stack.
  destruct (forallb _ rest) eqn:Eall; [|discriminate].
  destruct (axis <=? ndim a) eqn:Eax; [|discriminate].
  intros E. inversion E. split.
  - intros b Hb. rewrite forallb_forall in Eall. now apply shape_eqb_eq, Eall.
  - apply Nat.leb_le in Eax. unfold ndim in *. cbn [build shape].
    rewrite length_app, length_firstn. cbn [app length]. rewrite length_skipn. lia.
Qed.

Lemma compose_step_raises (res : option (ndarray Z)) (e : entry) (ex : exn) :
  compose_step res e = Raise ex -> ex = ValueError.
Proof.
  unfold compose_step. destruct res as [r|]; destruct e as [a|m b]; try discriminate;
    match goal with |- context [stack ?l ?k] =>
      destruct (stack l k) eqn:E; cbn [bind]; [discriminate|]
    end;
    intros E'; inversion E'; subst; eapply stack_raises; eassumption.
Qed.

Lemma compose_step_first (e : entry) (x : option (ndarray Z)) :
  compose_step None e = Ok x ->
  exists r, x = Some r
            /\ match e with Plain _ => ndim r = 2 | Bordered _ _ => ndim r = 3 end.
Proof.
  unfold compose_step. destruct e as [a|m b].
  - intros E. inversion E. eexists. split; reflexivity.
  - destruct (stack _ 2) as [r|ex] eqn:E; cbn [bind]; [|discriminate].
    intros E'. inversion E'. exists r. split; [reflexivity|].
    apply stack_ok in E. now destruct E.
Qed.

Lemma compose_step_next (res : ndarray Z) (e : entry) (x : option (ndarray Z)) :
  compose_step (Some res) e = Ok x ->
  ndim res = 2 /\ exists r, x = Some r /\ ndim r = 3.
Proof.
  unfold compose_step. destruct e as [a|m b];
    match goal with |- context [stack ?l ?k] =>
      destruct (stack l k) as [r|ex] eqn:E; cbn [bind]; [|discriminate]
    end;
    intros E'; inversion E'; apply stack_ok in E; destruct E as [Hsh Hnd].
  - assert (Hres : ndim res = 2).
    { unfold ndim. rewrite <- (Hsh (as_ndarray a)) by (simpl; auto). reflexivity. }
    split; [exact Hres|]. exists r. split; [reflexivity|]. now rewrite Hnd, Hres.
  - assert (Hres : ndim res = 2).
    { unfold ndim. rewrite <- (Hsh (as_ndarray m)) by (simpl; auto). reflexivity. }
    split; [exact Hres|]. exists r. split; [reflexivity|]. now rewrite Hnd, Hres.
Qed.

Lemma compose_loop_raises (items : dict) :
  forall res ex, compose_loop items res = Raise ex -> ex = ValueError.
Proof.
  induction items as [|[k e] items IH]; intros res ex; cbn [compose_loop]; [discriminate|].
  destruct (compose_step res e) as [x|ex'] eqn:E; cbn [bind].
  - apply IH.
  - intros E'. inversion E'; subst. eapply compose_step_raises; eassumption.
Qed.

(** Once the result has three axes no further class can be stacked. *)
Lemma compose_loop_after_3d (items : dict) (res : ndarray Z) :
  ndim res = 3 -> items <> [] -> compose_loop items (Some res) = Raise ValueError.
Proof.
  intros Hnd Hne. destruct items as [|[k e] items]; [congruence|].
  cbn [compose_loop].
  destruct (compose_step (Some res) e) as [x|ex] eqn:E; cbn [bind].
  - apply compose_step_next in E. destruct E as [E _]. lia.
  - apply compose_step_raises in E. now subst.
Qed.

End ComposeFacts.

(* ================================================================== *)
(** * Facts about reading an annotation *)

Module DecoderFacts.
Import NumPy NumPyFacts OpenCV MasksComposer ComposerSpec ComposerFacts ComposerRuns
       SuperviselyDataset.

Lemma dict_mem_after_add_mask (self : MasksComposer.t) (mask : option image) (cls k : Z)
    (offset : option (Z * Z)) :
  dict_mem (_masks self) k = true \/ k = cls ->
  dict_mem (_masks (fst (add_mask self mask cls offset))) k = true.
Proof.
  intros Hk.
  assert (He : dict_mem (_masks (ensure_class self cls)) k = true).
  { destruct Hk as [Hk| ->]; [|apply ComposerMoreFacts.dict_mem_ensure].
    destruct (Z.eq_dec k cls) as [->|Hne]; [apply ComposerMoreFacts.dict_mem_ensure|].
    unfold dict_mem in *. now rewrite ComposerMoreFacts.dict_get_ensure_other. }
  destruct (ComposerMoreFacts.add_mask_state self mask cls offset)
    as [[_ ->]|[_ [e' ->]]]; [exact He|].
  cbn [with_masks _masks].
  destruct (Z.eq_dec k cls) as [->|Hne]; [apply ComposerMoreFacts.dict_mem_set|].
  unfold dict_mem in *. now rewrite ComposerMoreFacts.dict_get_set_other.
Qed.

Section Reads.
Variable decode_alpha : string -> result image.
Variable drawContours : image -> list (Z * Z) -> Z -> image.

(** After a successful loop over the objects class 0 is present, unless
    there was no object and it was absent before. *)
Lemma add_objects_keeps_class_0 (objs : list object_t) :
  forall composer composer',
    add_objects decode_alpha drawContours composer objs = Ok composer' ->
    dict_mem (_masks composer) 0 = true \/ objs <> [] ->
    dict_mem (_masks composer') 0 = true.
Proof.
  induction objs as [|obj objs IH]; intros composer composer'; cbn [add_objects].
  - intros E [H|H]; [inversion E; now subst|congruence].
  - destruct (object_to_mask decode_alpha drawContours obj) as [[mask origin]|ex];
      cbn [bind fst snd]; [|discriminate].
    destruct (add_mask composer mask 0 origin) as [c1 [ex|]] eqn:Ec; [discriminate|].
    intros E _. apply (IH c1 composer' E). left.
    replace c1 with (fst (add_mask composer mask 0 origin)) by now rewrite Ec.
    apply dict_mem_after_add_mask. now right.
Qed.

Lemma add_objects_nil_inv (composer composer' : MasksComposer.t) :
  add_objects decode_alpha drawContours composer [] = Ok composer' -> composer' = composer.
Proof. cbn. now inversion 1. Qed.
End Reads.

Lemma compose_loop_some (items : dict) :
  forall res x, compose_loop items (Some res) = Ok x -> x <> None.
Proof.
  induction items as [|[k e] items IH]; intros res x; cbn [compose_loop].
  - intros E. inversion E. discriminate.
  - destruct (compose_step (Some res) e) as [y|ex] eqn:E; cbn [bind]; [|discriminate].
    apply ComposeFacts.compose_step_next in E. destruct E as [_ [r [-> _]]]. apply IH.
Qed.

Lemma compose_nonempty (items : dict) (x : option (ndarray Z)) :
  items <> [] -> compose_loop items None = Ok x -> x <> None.
Proof.
  destruct items as [|[k e] items]; [congruence|]. intros _. cbn [compose_loop].
  destruct (compose_step None e) as [y|ex] eqn:E; cbn [bind]; [|discriminate].
  apply ComposeFacts.compose_step_first in E. destruct E as [r [-> _]].
  apply compose_loop_some.
Qed.

Lemma binarize_spec (a : image) (i j : nat) :
  i < rows a -> j < cols a -> (0 <= px a i j)%Z ->
  (px (binarize a) i j = 0%Z \/ px (binarize a) i j = 1%Z)
  /\ (px (binarize a) i j = 1%Z <-> (0 < px a i j)%Z).
Proof.
  intros Hi Hj H0. unfold binarize. rewrite px_mk by assumption.
  destruct (Z.ltb_spec 0 (px a i j)); split; try split; try lia; auto.
Qed.

End DecoderFacts.

Module ReadFacts.
Import NumPy NumPyFacts OpenCV MasksComposer ComposerSpec ComposerFacts ComposerRuns.

Lemma compose_loop_single_bordered (k : Z) (m b : image) (H W : nat) :
  rows m = H -> cols m = W -> rows b = H -> cols b = W ->
  exists r,
    compose_loop [(k, Bordered m b)] None = Ok (Some r)
    /\ shape r = [H; W; 2]
    /\ forall i j, i < H -> j < W ->
       item 0%Z r [i; j; 0] = px m i j /\ item 0%Z r [i; j; 1] = px b i j.
Proof.
  intros Mr Mc Br Bc.
  cbn [compose_loop]. unfold compose_step. cbn [bind].
  unfold stack, as_ndarray, ndim. cbn [shape forallb length].
  rewrite Mr, Mc, Br, Bc.
  assert (Hsame : shape_eqb [H; W] [H; W] = true) by now apply ComposeFacts.shape_eqb_eq.
  rewrite Hsame. cbn [andb Nat.leb bind firstn skipn app].
  eexists. split; [reflexivity|]. split; [reflexivity|].
  intros i j Hi Hj.
  split; rewrite item_build by (repeat constructor; lia); cbn [nth firstn skipn app].
  - rewrite <- (ComposeFacts.item_as_ndarray m i j). unfold as_ndarray. congruence.
  - rewrite <- (ComposeFacts.item_as_ndarray b i j). unfold as_ndarray. congruence.
Qed.

(** The first mask of a class with border tracking, on a frame that is not
    empty: the mask is stored as placed and no border is found. *)
Lemma first_bordered_call (self : MasksComposer.t) (m : image) (o : option (Z * Z))
    (H W : nat) :
  0 < H -> 0 < W ->
  binary m -> admissible H W m o ->
  exists M B,
    add_mask_bordered self (Plain (zeros H W)) (Some m) o = Ok (Bordered M B)
    /\ (rows M = H /\ cols M = W) /\ (rows B = H /\ cols B = W)
    /\ (forall i j, i < H -> j < W -> px M i j = px (placement H W m o) i j)
    /\ (forall i j, i < H -> j < W -> px B i j = 0%Z).
Proof.
  intros HH HW Hb Ha.
  destruct (@bordered_step self (Plain (zeros H W)) m o H W HH HW (conj eq_refl eq_refl) Ha)
    as [M [B [Hstep [HM [HB [PM PB]]]]]].
  pose proof (@placement_binary H W m o Hb Ha) as Hp.
  destruct (@rows_placement H W m o Ha) as [Hpr Hpc].
  exists M, B. split; [exact Hstep|]. split; [exact HM|]. split; [exact HB|].
  cbn [entry_mask] in PM, PB. split.
  - intros i j Hi Hj. rewrite PM, px_zeros by assumption.
    destruct (Hp i j) as [E|E]; try lia; rewrite E; reflexivity.
  - intros i j Hi Hj. rewrite PB by assumption.
    replace (carried_border (Plain (zeros H W)) o i j) with 0%Z by (now destruct o).
    rewrite dilate_zero by (cbn; try assumption; intros; now apply px_zeros).
    destruct (@dilate_binary (placement H W m o) (_dilate_masks_kernel self) i j Hp)
      as [E|E]; try lia; rewrite E; reflexivity.
Qed.

End ReadFacts.

(* ================================================================== *)
(** * Facts about the dataset wrappers *)

Module AugmentedFacts.
Import AugmentedDataset.

Lemma key_eqb_eq (a b : key) : key_eqb a b = true <-> a = b.
Proof.
  destruct a as [s|n], b as [t|m]; cbn; split; try discriminate.
  - intros E. apply String.eqb_eq in E. now subst.
  - intros E. inversion E. apply String.eqb_refl.
  - intros E. apply Nat.eqb_eq in E. now subst.
  - intros E. inversion E. apply Nat.eqb_refl.
Qed.

Lemma key_eqb_refl (a : key) : key_eqb a a = true.
Proof. now apply key_eqb_eq. Qed.

Lemma key_eqb_neq (a b : key) : a <> b -> key_eqb a b = false.
Proof.
  intros Hne. destruct (key_eqb a b) eqn:E; [|reflexivity].
  apply key_eqb_eq in E. contradiction.
Qed.

Lemma bind_ok (A : Type) (r : result A) : bind r (fun a => Ok a) = r.
Proof. now destruct r. Qed.

Lemma bind_assoc (A B C : Type) (r : result A) (f : A -> result B) (g : B -> result C) :
  bind (bind r f) g = bind r (fun a => bind (f a) g).
Proof. now destruct r. Qed.

Section Values.
Variable V : Type.

Lemma apply_dict_nil (items : list (key * V)) : apply_dict [] items = Ok items.
Proof.
  induction items as [|[k v] items IH]; cbn [apply_dict]; [reflexivity|].
  unfold apply_field. cbn [augs_get bind]. now rewrite IH.
Qed.

Lemma apply_seq_nil (items : list V) : forall n, apply_seq [] n items = Ok items.
Proof.
  induction items as [|v items IH]; intros n; cbn [apply_seq]; [reflexivity|].
  unfold apply_field. cbn [augs_get bind]. now rewrite IH.
Qed.

Lemma apply_whole_app (l : list (aug V)) (a : aug V) :
  forall res, apply_whole (l ++ [a]) res = bind (apply_whole l res) (on_sample a).
Proof.
  induction l as [|b l IH]; intros res; cbn [app apply_whole].
  - cbn [bind]. now destruct (on_sample a res).
  - destruct (on_sample b res) as [res'|ex]; cbn [bind]; [apply IH|reflexivity].
Qed.

Lemma augs_get_set_other (augs : list (key * aug V)) (k k' : key) (a : aug V) :
  k' <> k -> augs_get (augs_set augs k a) k' = augs_get augs k'.
Proof.
  intros Hne. induction augs as [|[k0 a0] augs IH]; cbn [augs_set augs_get].
  - rewrite key_eqb_neq by congruence. reflexivity.
  - destruct (key_eqb k0 k) eqn:E; cbn [augs_get].
    + apply key_eqb_eq in E. subst k0.
      rewrite !key_eqb_neq by congruence. reflexivity.
    + destruct (key_eqb k0 k'); [reflexivity|exact IH].
Qed.

Lemma augs_set_set (augs : list (key * aug V)) (k : key) (a b : aug V) :
  augs_set (augs_set augs k a) k b = augs_set augs k b.
Proof.
  induction augs as [|[k0 a0] augs IH]; cbn [augs_set].
  - now rewrite key_eqb_refl.
  - destruct (key_eqb k0 k) eqn:E; cbn [augs_set].
    + now rewrite key_eqb_refl.
    + now rewrite E, IH.
Qed.

Lemma apply_dict_set_absent (augs : list (key * aug V)) (k : key) (a : aug V)
    (items : list (key * V)) :
  ~ In k (map fst items) ->
  apply_dict (augs_set augs k a) items = apply_dict augs items.
Proof.
  induction items as [|[k' v] items IH]; intros Hk; cbn [apply_dict]; [reflexivity|].
  cbn [map fst In] in Hk.
  unfold apply_field. rewrite augs_get_set_other by (intros ->; apply Hk; now left).
  rewrite IH by (intros Hin; apply Hk; now right). reflexivity.
Qed.

Lemma apply_seq_set_absent (augs : list (key * aug V)) (k : key) (a : aug V)
    (items : list V) :
  forall n, (forall i, n <= i < n + length items -> k <> Index i) ->
  apply_seq (augs_set augs k a) n items = apply_seq augs n items.
Proof.
  induction items as [|v items IH]; intros n Hk; cbn [apply_seq]; [reflexivity|].
  unfold apply_field.
  rewrite augs_get_set_other
    by (intros E; apply (Hk n); [cbn [length]; lia|now symmetry]).
  rewrite IH by (intros i Hi; apply Hk; cbn [length]; lia). reflexivity.
Qed.
End Values.

End AugmentedFacts.

Module PixartFacts.
Import PixartPaths.

Lemma insert_by_key_perm (x : Z * string) (l : list (Z * string)) :
  Permutation (insert_by_key x l) (x :: l).
Proof.
  induction l as [|y l IH]; cbn [insert_by_key]; [reflexivity|].
  destruct (fst x <=? fst y)%Z; [reflexivity|].
  rewrite IH. apply perm_swap.
Qed.

Lemma sorted_by_key_perm (l : list (Z * string)) : Permutation (sorted_by_key l) l.
Proof.
  induction l as [|x l IH]; cbn [sorted_by_key fold_right]; [reflexivity|].
  rewrite insert_by_key_perm. now constructor.
Qed.

Lemma insert_by_key_sorted (x : Z * string) (l : list (Z * string)) :
  Sorted Z.le (map fst l) -> Sorted Z.le (map fst (insert_by_key x l)).
Proof.
  induction l as [|y l IH]; intros Hs; cbn [insert_by_key map].
  - repeat constructor.
  - destruct (fst x <=? fst y)%Z eqn:E; cbn [map].
    + constructor; [exact Hs|]. constructor. now apply Z.leb_le.
    + apply Z.leb_gt in E. inversion Hs as [|? ? Hs' Hhd]; subst.
      constructor; [now apply IH|].
      destruct l as [|z l]; cbn [insert_by_key map].
      * constructor. lia.
      * destruct (fst x <=? fst z)%Z; cbn [map]; constructor; [lia|].
        now inversion Hhd.
Qed.

Lemma sorted_by_key_sorted (l : list (Z * string)) :
  Sorted Z.le (map fst (sorted_by_key l)).
Proof.
  induction l as [|x l IH]; cbn [sorted_by_key fold_right]; [constructor|].
  now apply insert_by_key_sorted.
Qed.

Section Init.
Variable splitext : string -> string * string.
Variable int : string -> result Z.
Variable join : string -> string -> string.
Variable exists_ : string -> bool.

Lemma with_keys_ok (paths : list string) :
  forall keyed, with_keys splitext int paths = Ok keyed ->
  map snd keyed = paths
  /\ Forall (fun kp => int (fst (splitext (snd kp))) = Ok (fst kp)) keyed.
Proof.
  induction paths as [|p ps IH]; intros keyed E; cbn [with_keys] in E.
  - inversion E. split; constructor.
  - destruct (int (fst (splitext p))) as [k|ex] eqn:Ek; cbn [bind] in E; [|discriminate].
    destruct (with_keys splitext int ps) as [rest|ex]; cbn [bind] in E; [|discriminate].
    inversion E; subst. destruct (IH rest eq_refl) as [Hs Hf].
    split; [cbn [map snd]; now rewrite Hs|]. constructor; [exact Ek|exact Hf].
Qed.

Lemma with_keys_raises (paths : list string) :
  (exists p, In p paths /\ exists ex, int (fst (splitext p)) = Raise ex)
  <-> exists ex, with_keys splitext int paths = Raise ex.
Proof.
  induction paths as [|p ps IH]; cbn [with_keys].
  - split; [intros (p & [] & _)|intros (ex & E); discriminate].
  - destruct (int (fst (splitext p))) as [k|ex] eqn:Ek; cbn [bind].
    + split.
      * intros (q & [->|Hq] & ex & Eq); [congruence|].
        destruct (proj1 IH (ex_intro _ q (conj Hq (ex_intro _ ex Eq)))) as (ex' & E).
        rewrite E. now exists ex'.
      * intros (ex & E).
        destruct (with_keys splitext int ps) as [rest|ex'] eqn:Er; cbn [bind] in E;
          [discriminate|].
        destruct (proj2 IH (ex_intro _ ex' eq_refl)) as (q & Hq & Eq).
        exists q. split; [now right|exact Eq].
    + split; [intros _; now exists ex|].
      intros _. exists p. split; [now left|now exists ex].
Qed.

Lemma collect_filter_map (ps : list string) :
  collect splitext join exists_ ps
  = map (fun p => Entry (join (images_dir join) p) (mask_of splitext join p))
      (filter (fun p => exists_ (mask_of splitext join p)) ps).
Proof.
  induction ps as [|p ps IH]; cbn [collect filter map]; [reflexivity|].
  destruct (exists_ (mask_of splitext join p)); cbn [map]; now rewrite IH.
Qed.

Lemma init_ok (paths : list string) (entries : list entry) :
  init splitext int join exists_ paths = Ok entries ->
  exists keyed,
    Permutation (map snd keyed) paths
    /\ Forall (fun kp => int (fst (splitext (snd kp))) = Ok (fst kp)) keyed
    /\ Sorted Z.le (map fst keyed)
    /\ entries
       = map (fun p => Entry (join (images_dir join) p) (mask_of splitext join p))
           (filter (fun p => exists_ (mask_of splitext join p)) (map snd keyed)).
Proof.
  unfold init. intros E.
  destruct (with_keys splitext int paths) as [keyed|ex] eqn:Ek; cbn [bind] in E;
    [|discriminate].
  inversion E; subst. destruct (with_keys_ok _ Ek) as [Hs Hf].
  exists (sorted_by_key keyed). repeat split.
  - rewrite <- Hs. apply Permutation_map, sorted_by_key_perm.
  - apply Forall_forall. intros kp Hin. rewrite Forall_forall in Hf. apply Hf.
    eapply Permutation_in; [apply sorted_by_key_perm|exact Hin].
  - apply sorted_by_key_sorted.
  - apply collect_filter_map.
Qed.
End Init.

End PixartFacts.

Module FilterFacts.
Import SuperviselyDataset SuperviselyItems.
Local Open Scope string_scope.

Lemma mem_In (s : string) (l : list string) : mem s l = true <-> In s l.
Proof.
  unfold mem. rewrite existsb_exists. split.
  - intros (x & Hx & E). apply String.eqb_eq in E. now subst.
  - intros H. exists s. split; [exact H|apply String.eqb_refl].
Qed.

Section Filter.
Variable load : string -> result document.

Lemma filter_items_made_of (nmp neu : bool) (items : list item) :
  forall res, _filter_items load items nmp neu = Ok res ->
  Forall2 (FilterSpec.made_of load neu) (filter (FilterSpec.passes load nmp) items) res.
Proof.
  induction items as [|it items IH]; intros res E; cbn [_filter_items] in E.
  - inversion E. constructor.
  - cbn [filter]. unfold FilterSpec.passes at 1.
    destruct (load (item_target it)) as [d|ex] eqn:El; cbn [bind] in E; [|discriminate].
    destruct nmp; cbn [negb andb orb] in *.
    + destruct (_filter_items load items true neu) as [rest|ex]; cbn [bind] in E;
        [|discriminate].
      inversion E; subst. constructor; [|now apply IH].
      split; [reflexivity|]. exists d. split; [exact El|].
      destruct neu; cbn [negb]; repeat split; reflexivity.
    + destruct (mem "not-marked-people" (tags d)); cbn [negb].
      * now apply IH.
      * destruct (_filter_items load items false neu) as [rest|ex]; cbn [bind] in E;
          [|discriminate].
        inversion E; subst. constructor; [|now apply IH].
        split; [reflexivity|]. exists d. split; [exact El|].
        destruct neu; cbn [negb]; repeat split; reflexivity.
Qed.

Lemma filter_items_raises (nmp neu : bool) (items : list item) :
  (exists it, In it items /\ exists ex, load (item_target it) = Raise ex)
  <-> exists ex, _filter_items load items nmp neu = Raise ex.
Proof.
  induction items as [|it items IH]; cbn [_filter_items].
  - split; [intros (p & [] & _)|intros (ex & E); discriminate].
  - destruct (load (item_target it)) as [d|ex] eqn:El; cbn [bind].
    + assert (R : (exists it0, In it0 (it :: items)
                     /\ exists ex, load (item_target it0) = Raise ex)
                  <-> exists ex, _filter_items load items nmp neu = Raise ex).
      { rewrite <- IH. split.
        - intros (q & [->|Hq] & ex & Eq); [congruence|]. exists q. split; [exact Hq|].
          now exists ex.
        - intros (q & Hq & Eq). exists q. split; [now right|exact Eq]. }
      rewrite R.
      destruct (negb nmp && mem "not-marked-people" (tags d)); [reflexivity|].
      destruct (_filter_items load items nmp neu) as [rest|ex']; cbn [bind].
      * split; intros (ex & E); discriminate.
      * split; intros _; now exists ex'.
    + split; [intros _; now exists ex|].
      intros _. exists it. split; [now left|now exists ex].
Qed.
End Filter.

End FilterFacts.

Module FilesFacts.
Import SuperviselyItems SuperviselyFiles FilesSpec.
Local Open Scope string_scope.
Local Open Scope list_scope.

Lemma items_get_set (items : list (string * slot)) (name name' : string) (s : slot) :
  items_get (items_set items name s) name'
  = if name =? name' then Some s else items_get items name'.
Proof.
  induction items as [|[k s'] items IH]; cbn [items_set items_get].
  - reflexivity.
  - destruct (k =? name) eqn:E; cbn [items_get].
    + apply String.eqb_eq in E. subst k. now destruct (name =? name').
    + destruct (k =? name') eqn:E'; [|exact IH].
      destruct (name =? name') eqn:E''; [|reflexivity].
      apply String.eqb_eq in E', E''. subst. now rewrite String.eqb_refl in E.
Qed.

Lemma keys_items_set (items : list (string * slot)) (name : string) (s : slot) :
  map fst (items_set items name s)
  = if existsb (String.eqb name) (map fst items) then map fst items
    else map fst items ++ [name].
Proof.
  induction items as [|[k s'] items IH]; cbn [items_set map fst existsb app].
  - reflexivity.
  - rewrite (String.eqb_sym name k). destruct (k =? name) eqn:E; cbn [map fst orb].
    + reflexivity.
    + rewrite IH. now destruct (existsb (String.eqb name) (map fst items)).
Qed.

Lemma nodup_items_set (items : list (string * slot)) (name : string) (s : slot) :
  NoDup (map fst items) -> NoDup (map fst (items_set items name s)).
Proof.
  intros Hn. rewrite keys_items_set.
  destruct (existsb (String.eqb name) (map fst items)) eqn:E; [exact Hn|].
  apply NoDup_app; [exact Hn|repeat constructor; intros []|].
  intros k Hk [->|[]].
  assert (existsb (String.eqb k) (map fst items) = true); [|congruence].
  apply existsb_exists. exists k. split; [exact Hk|apply String.eqb_refl].
Qed.

Lemma items_get_In (items : list (string * slot)) (name : string) (s : slot) :
  NoDup (map fst items) ->
  (In (name, s) items <-> items_get items name = Some s).
Proof.
  induction items as [|[k s'] items IH]; intros Hn; cbn [items_get In].
  - split; [intros []|discriminate].
  - cbn [map fst] in Hn. inversion Hn as [|? ? Hk Hn']; subst.
    destruct (k =? name) eqn:E.
    + apply String.eqb_eq in E. subst k. split.
      * intros [H|H]; [congruence|]. exfalso. apply Hk.
        change name with (fst (name, s)). now apply in_map.
      * intros H. left. congruence.
    + rewrite <- (IH Hn'). split; [|now right].
      intros [H|H]; [|exact H]. inversion H; subst. now rewrite String.eqb_refl in E.
Qed.

Lemma paired_In (items : list (string * slot)) (d t : string) :
  In (Item d t) (paired items)
  <-> exists name, In (name, Slot (Some d) (Some t)) items.
Proof.
  induction items as [|[k [[d'|] [t'|]]] items IH]; cbn [paired In].
  - split; [intros []|intros (name & [])].
  - rewrite IH. split.
    + intros [H|(name & H)]; [inversion H; subst; exists k; now left|].
      exists name. now right.
    + intros (name & [H|H]); [inversion H; subst; now left|]. right. now exists name.
  - rewrite IH. split; [intros (name & H); exists name; now right|].
    intros (name & [H|H]); [discriminate|now exists name].
  - rewrite IH. split; [intros (name & H); exists name; now right|].
    intros (name & [H|H]); [discriminate|now exists name].
  - rewrite IH. split; [intros (name & H); exists name; now right|].
    intros (name & [H|H]); [discriminate|now exists name].
Qed.

Section Init.
Variable splitext : string -> string * string.
Variable join : string -> string -> string.

Lemma scan_listing (walk : list (string * list string)) :
  forall items,
  fold_left (fun items rf => fold_left (add_file splitext join (fst rf)) (snd rf) items)
    walk items
  = fold_left (step splitext join) (listing walk) items.
Proof.
  induction walk as [|[root files] walk IH]; intros items; cbn [fold_left listing flat_map].
  - reflexivity.
  - rewrite fold_left_app, IH. f_equal. cbn [fst snd]. clear IH.
    revert items. induction files as [|f files IHf]; intros items; cbn [fold_left map].
    + reflexivity.
    + apply IHf.
Qed.

Lemma last_of_snoc (ty : item_type) (name : string) (l : list (string * string))
    (rf : string * string) :
  last_of splitext join ty name (l ++ [rf])
  = if file_is splitext ty name rf then Some (join (fst rf) (snd rf))
    else last_of splitext join ty name l.
Proof.
  unfold last_of. rewrite rev_app_distr. cbn [rev app find].
  now destruct (file_is splitext ty name rf).
Qed.

Lemma scan_inv (l : list (string * string)) :
  NoDup (map fst (fold_left (step splitext join) l []))
  /\ forall name, items_get (fold_left (step splitext join) l []) name = known splitext join name l.
Proof.
  induction l as [|rf l IH] using rev_ind.
  - split; [constructor|reflexivity].
  - destruct IH as [Hn Hg]. rewrite fold_left_app. cbn [fold_left].
    set (items := fold_left (step splitext join) l []) in *.
    unfold step, add_file.
    destruct (splitext (snd rf)) as [name0 ext] eqn:Es.
    assert (F : forall ty name,
              file_is splitext ty name rf
              = (name0 =? name)
                && match item_type_of ext with
                   | Some ty' => item_type_eqb ty' ty
                   | None => false
                   end).
    { intros ty name. unfold file_is. now rewrite Es. }
    destruct (item_type_of ext) as [ty0|] eqn:Et.
    + assert (G : items_set items name0
                    (slot_set (match items_get items name0 with
                               | Some s => s
                               | None => Slot None None
                               end) ty0 (join (fst rf) (snd rf)))
                  = match items_get items name0 with
                    | Some s => items_set items name0 (slot_set s ty0 (join (fst rf) (snd rf)))
                    | None => items_set items name0
                                (slot_set (Slot None None) ty0 (join (fst rf) (snd rf)))
                    end) by now destruct (items_get items name0).
      rewrite <- G. split; [now apply nodup_items_set|].
      intros name. rewrite items_get_set. unfold known.
      rewrite !last_of_snoc, !F.
      destruct (name0 =? name) eqn:En; cbn [andb].
      * apply String.eqb_eq in En. subst name0.
        rewrite Hg. unfold known.
        destruct ty0; cbn [item_type_eqb slot_set];
          destruct (last_of splitext join DataFile name l),
                   (last_of splitext join TargetFile name l); reflexivity.
      * apply Hg.
    + split; [exact Hn|]. intros name. rewrite Hg. unfold known.
      rewrite !last_of_snoc, !F, !andb_false_r. reflexivity.
Qed.

Lemma paired_scan (walk : list (string * list string)) (d t : string) :
  In (Item d t) (paired (scan splitext join walk))
  <-> exists name,
        last_of splitext join DataFile name (listing walk) = Some d
        /\ last_of splitext join TargetFile name (listing walk) = Some t.
Proof.
  unfold scan. rewrite scan_listing.
  destruct (scan_inv (listing walk)) as [Hn Hg].
  rewrite paired_In. split; intros (name & H); exists name.
  - apply (items_get_In _ _ _ Hn) in H. rewrite Hg in H. unfold known in H.
    destruct (last_of splitext join DataFile name (listing walk)),
             (last_of splitext join TargetFile name (listing walk));
      inversion H; now subst.
  - apply (items_get_In _ _ _ Hn). rewrite Hg. unfold known.
    destruct H as [-> ->]. reflexivity.
Qed.
End Init.

End FilesFacts.

Module IndexFacts.
Import IndexFile IndexSpec.
Local Open Scope string_scope.

Lemma snoc_append (a : string) (c : ascii) (b : string) :
  (a ++ String c "") ++ b = a ++ String c b.
Proof. induction a as [|x a IH]; cbn [append]; [reflexivity|now rewrite IH]. Qed.

Lemma append_nil_r (a : string) : a ++ "" = a.
Proof. induction a as [|x a IH]; cbn [append]; [reflexivity|now rewrite IH]. Qed.

Lemma substring_prefix (a b : string) : substring 0 (String.length a) (a ++ b) = a.
Proof.
  induction a as [|x a IH]; cbn [append String.length substring].
  - now destruct b.
  - now rewrite IH.
Qed.

Lemma length_snoc (a : string) (c : ascii) :
  String.length (a ++ String c "") = S (String.length a).
Proof. induction a as [|x a IH]; cbn [append String.length]; [reflexivity|now rewrite IH]. Qed.

Lemma drop_last_snoc (a : string) (c : ascii) : drop_last (a ++ String c "") = a.
Proof.
  unfold drop_last. rewrite length_snoc. cbn [Nat.sub]. rewrite Nat.sub_0_r.
  apply substring_prefix.
Qed.

Lemma snoc_not_empty (a : string) (c : ascii) : (a ++ String c "" =? "") = false.
Proof. now destruct a. Qed.

Lemma readlines_from_line (n : string) :
  one_line n = true ->
  forall cur rest,
    readlines_from cur (n ++ String newline rest)
    = (cur ++ n ++ String newline "") :: readlines_from "" rest.
Proof.
  induction n as [|c n IH]; intros Hn cur rest; cbn [append readlines_from].
  - now rewrite Ascii.eqb_refl.
  - cbn [one_line] in Hn. apply andb_true_iff in Hn. destruct Hn as [Hc Hn].
    apply negb_true_iff in Hc. rewrite Hc, (IH Hn), snoc_append. reflexivity.
Qed.

Lemma readlines_from_rest (s : string) :
  one_line s = true ->
  forall cur, readlines_from cur s = if cur ++ s =? "" then [] else [cur ++ s].
Proof.
  induction s as [|c s IH]; intros Hs cur; cbn [readlines_from].
  - now rewrite append_nil_r.
  - cbn [one_line] in Hs. apply andb_true_iff in Hs. destruct Hs as [Hc Hs].
    apply negb_true_iff in Hc. rewrite Hc, (IH Hs), snoc_append. reflexivity.
Qed.

Lemma pathes_cons (n rest : string) :
  one_line n = true ->
  pathes (n ++ String newline rest) = n :: pathes rest.
Proof.
  intros Hn. unfold pathes, readlines. rewrite (@readlines_from_line n Hn).
  cbn [append filter]. rewrite snoc_not_empty. cbn [negb map].
  now rewrite drop_last_snoc.
Qed.

Lemma pathes_unlines (names : list string) (rest : string) :
  Forall (fun n => one_line n = true) names ->
  pathes (unlines names ++ rest) = (names ++ pathes rest)%list.
Proof.
  induction 1 as [|n names Hn _ IH]; cbn [unlines app append]; [reflexivity|].
  rewrite <- snoc_append, snoc_append.
  replace ((n ++ String newline (unlines names)) ++ rest)
    with (n ++ String newline (unlines names ++ rest)).
  - rewrite (@pathes_cons n _ Hn), IH. reflexivity.
  - clear. induction n as [|c n IH]; cbn [append]; [reflexivity|now rewrite IH].
Qed.

Lemma nonempty_lines (text : string) :
  forall cur, Forall (fun p => p <> "") (readlines_from cur text).
Proof.
  induction text as [|c text IH]; intros cur; cbn [readlines_from].
  - destruct (cur =? "") eqn:E; constructor; [|constructor].
    intros ->. discriminate.
  - destruct (Ascii.eqb c newline); [|apply IH].
    constructor; [|apply IH]. intros E.
    pose proof (snoc_not_empty cur c) as F. rewrite E in F. discriminate.
Qed.

End IndexFacts.

Module VisualizerFacts.
Import NumPy NumPyFacts MulticlassColormapVisualizer VisualizerSpec.

Lemma px3_mk3 (h w c : nat) (f : nat -> nat -> nat -> Z) (i j k : nat) :
  i < h -> j < w -> k < c -> px3 (mk3 h w c f) i j k = f i j k.
Proof.
  intros Hi Hj Hk. unfold px3, mk3, as_ndarray3. cbn [height width channels voxels].
  change (NdArray [h; w; c]
            (tab [h; w; c] (fun idx => match idx with [i0; j0; k0] => f i0 j0 k0 | _ => 0%Z end)))
    with (build [h; w; c] (fun idx => match idx with [i0; j0; k0] => f i0 j0 k0 | _ => 0%Z end)).
  rewrite item_build; [reflexivity|].
  repeat constructor; assumption.
Qed.

Lemma color_ok (colors : list (list Z)) (k i : nat) :
  i < length (nth k colors []) -> color colors k i = Ok (color_at colors k i).
Proof.
  intros Hi. unfold color, color_at.
  destruct (Nat.lt_ge_cases k (length colors)) as [Hk|Hk].
  - rewrite (nth_error_nth' colors [] Hk), (nth_error_nth' _ 0%Z Hi). reflexivity.
  - rewrite (nth_overflow colors [] Hk) in Hi. cbn in Hi. lia.
Qed.

Lemma color_short (colors : list (list Z)) (k i : nat) :
  length (nth k colors []) <= i -> color colors k i = Raise IndexError.
Proof.
  intros Hi. unfold color.
  destruct (nth_error colors k) as [row|] eqn:E; [|reflexivity].
  rewrite (nth_error_nth _ _ [] E) in Hi.
  apply nth_error_None in Hi. now rewrite Hi.
Qed.

Lemma paint_ok (img : image3) (k : nat) (cls : image) (v : Z) (h w : nat) :
  shaped h w 3 img -> rows cls = h -> cols cls = w -> k < 3 ->
  paint img k cls v
  = Ok (mk3 h w 3 (fun i j c =>
          if (c =? k) && (0 <? px cls i j)%Z then wrap8 v else px3 img i j c)).
Proof.
  intros (Hh & Hw & Hc) Hr Hcl Hk. unfold paint.
  rewrite Hh, Hw, Hc, Hr, Hcl, !Nat.eqb_refl.
  replace (k <? 3) with true by (symmetry; now apply Nat.ltb_lt).
  reflexivity.
Qed.

Lemma shaped_mk3 (h w c : nat) (f : nat -> nat -> nat -> Z) : shaped h w c (mk3 h w c f).
Proof. now repeat split. Qed.

Lemma overlay_class_ok (colors : list (list Z)) (other img : image3) (h w n i : nat) :
  shaped h w 3 img -> shaped h w n other ->
  (forall k, k < 3 -> i < length (nth k colors [])) ->
  exists img',
    overlay_class colors other img i = Ok img'
    /\ shaped h w 3 img'
    /\ forall r c k, r < h -> c < w -> k < 3 ->
       px3 img' r c k
       = if (0 <? px3 other r c i)%Z then wrap8 (color_at colors k i) else px3 img r c k.
Proof.
  intros Hs (Hh' & Hw' & _) Hcol. unfold overlay_class.
  rewrite Hh', Hw'. cbv zeta.
  set (cls := mk h w (fun r c => px3 other r c i)).
  rewrite !color_ok by (apply Hcol; lia). cbn [bind].
  rewrite (@paint_ok img 0 cls _ h w Hs eq_refl eq_refl) by lia. cbn [bind].
  rewrite (@paint_ok _ 1 cls _ h w (shaped_mk3 _ _ _ _) eq_refl eq_refl) by lia. cbn [bind].
  rewrite (@paint_ok _ 2 cls _ h w (shaped_mk3 _ _ _ _) eq_refl eq_refl) by lia.
  eexists. split; [reflexivity|]. split; [apply shaped_mk3|].
  intros r c k Hr Hc' Hk.
  rewrite !px3_mk3 by (assumption || lia). unfold cls. rewrite !px_mk by assumption.
  destruct (0 <? px3 other r c i)%Z; rewrite ?andb_true_r, ?andb_false_r; [|reflexivity].
  destruct k as [|[|[|k]]]; cbn [Nat.eqb]; try reflexivity. lia.
Qed.

Lemma overlay_app (colors : list (list Z)) (other : image3) (l1 l2 : list nat) :
  forall img,
  overlay colors other img (l1 ++ l2)
  = bind (overlay colors other img l1) (fun img' => overlay colors other img' l2).
Proof.
  induction l1 as [|i l1 IH]; intros img; cbn [app overlay bind]; [reflexivity|].
  destruct (overlay_class colors other img i) as [img'|ex]; cbn [bind];
    [apply IH|reflexivity].
Qed.

Lemma overlay_run (colors : list (list Z)) (other img : image3) (h w m : nat) :
  shaped h w 3 img -> shaped h w m other ->
  forall n,
  (forall k, k < 3 -> n <= length (nth k colors [])) ->
  exists img',
    overlay colors other img (seq 0 n) = Ok img'
    /\ shaped h w 3 img'
    /\ forall r c k, r < h -> c < w -> k < 3 ->
       px3 img' r c k
       = match last_present (fun i => px3 other r c i) n with
         | Some i => wrap8 (color_at colors k i)
         | None => px3 img r c k
         end.
Proof.
  intros Hs Ho. induction n as [|n IH]; intros Hcol.
  - exists img. repeat split; try apply Hs. 
  - destruct IH as (img1 & E1 & Hs1 & P1); [intros k Hk; specialize (Hcol k Hk); lia|].
    destruct (@overlay_class_ok colors other img1 h w m n Hs1 Ho) as (img2 & E2 & Hs2 & P2);
      [intros k Hk; specialize (Hcol k Hk); lia|].
    exists img2. rewrite seq_S, overlay_app, E1. cbn [bind Nat.add overlay].
    rewrite E2. cbn [bind]. split; [reflexivity|]. split; [exact Hs2|].
    intros r c k Hr Hc Hk. rewrite (P2 r c k Hr Hc Hk). cbn [last_present].
    destruct (0 <? px3 other r c n)%Z; [reflexivity|]. now apply P1.
Qed.

Lemma axis_index_ok (n : nat) (k : Z) :
  (0 <= k < Z.of_nat n)%Z -> axis_index n k = Ok (Z.to_nat k).
Proof.
  intros Hk. unfold axis_index.
  replace (0 <=? k)%Z with true by (symmetry; apply Z.leb_le; lia).
  replace (k <? Z.of_nat n)%Z with true by (symmetry; apply Z.ltb_lt; lia).
  reflexivity.
Qed.

End VisualizerFacts.

(* ================================================================== *)
(** * Borders between two masks *)

(** C1: on a composer with a frame that is not empty, where class [cls] has
    border tracking and no mask yet, add two binary masks in sequence (each
    full-frame without an offset, or within the frame with one).  Both
    calls succeed, and the stored border
    mask is 1 exactly at the pixels where the dilation of the accumulated
    mask and the dilation of the new contribution are both non-zero, and 0
    elsewhere; when the two dilations have disjoint support it is all
    zero.  The accumulated mask is the first mask as placed. *)
Theorem C1_border_is_the_overlap_of_the_dilations
    (self : MasksComposer.t) (cls : Z) (H W : nat) (l : list Z)
    (m1 m2 : NumPy.image) (o1 o2 : option (Z * Z)) :
  MasksComposer._mask_shape self = (H, W) ->
  0 < H -> 0 < W ->
  MasksComposer.dict_get (MasksComposer._masks self) cls = None ->
  MasksComposer._borders_as_class self = true ->
  MasksComposer._borders_between_classes self = Some l ->
  In cls l ->
  ComposerSpec.binary m1 -> ComposerSpec.binary m2 ->
  ComposerSpec.admissible H W m1 o1 -> ComposerSpec.admissible H W m2 o2 ->
  exists st1 acc b1 st2 acc2 b2,
    MasksComposer.add_mask self (Some m1) cls o1 = (st1, None)
    /\ MasksComposer.dict_get (MasksComposer._masks st1) cls
       = Some (MasksComposer.Bordered acc b1)
    /\ MasksComposer.add_mask st1 (Some m2) cls o2 = (st2, None)
    /\ MasksComposer.dict_get (MasksComposer._masks st2) cls
       = Some (MasksComposer.Bordered acc2 b2)
    /\ (NumPy.rows b2 = H /\ NumPy.cols b2 = W)
    /\ (forall i j, i < H -> j < W ->
        NumPy.px acc i j = NumPy.px (ComposerSpec.placement H W m1 o1) i j)
    /\ (forall i j, i < H -> j < W ->
        NumPy.px b2 i j
        = if (NumPy.px (OpenCV.dilate_image acc
                          (MasksComposer._dilate_masks_kernel self)) i j =? 0)%Z
             || (NumPy.px (OpenCV.dilate_image (ComposerSpec.placement H W m2 o2)
                             (MasksComposer._dilate_masks_kernel self)) i j =? 0)%Z
          then 0%Z else 1%Z)
    /\ ((forall i j, i < H -> j < W ->
           NumPy.px (OpenCV.dilate_image acc
                       (MasksComposer._dilate_masks_kernel self)) i j = 0%Z
           \/ NumPy.px (OpenCV.dilate_image (ComposerSpec.placement H W m2 o2)
                          (MasksComposer._dilate_masks_kernel self)) i j = 0%Z) ->
        forall i j, i < H -> j < W -> NumPy.px b2 i j = 0%Z).
Proof.
  intros Hshape HH HW Habsent Hflag Hbetween Hin Hb1 Hb2 Ha1 Ha2.
  pose proof (@ComposerFacts.tracks_borders_true self cls l Hflag Hbetween Hin) as Ht.
  assert (Hfresh : MasksComposer.get_class self cls = MasksComposer.Plain (NumPy.zeros H W)).
  { unfold MasksComposer.get_class. now rewrite Habsent, Hshape. }
  (* first call *)
  destruct (@ComposerFacts.bordered_step (MasksComposer.ensure_class self cls)
              (MasksComposer.Plain (NumPy.zeros H W)) m1 o1 H W HH HW
              (conj eq_refl eq_refl) Ha1)
    as [acc [b1 [Hstep1 [[Hacc_r Hacc_c] [[Hb1r Hb1c] [Pacc Pb1]]]]]].
  rewrite <- Hfresh in Hstep1.
  destruct (@ComposerFacts.add_mask_tracked self (Some m1) cls o1 _ Ht Hstep1)
    as [st1 [Hcall1 [Hget1 [Hshape1 [Hk1 Ht1]]]]].
  rewrite ComposerFacts.kernel_ensure in Pb1.
  cbn [MasksComposer.entry_mask ComposerSpec.carried_border] in Pacc, Pb1.
  pose proof (@ComposerFacts.placement_binary H W m1 o1 Hb1 Ha1) as Hp1.
  pose proof (@ComposerFacts.placement_binary H W m2 o2 Hb2 Ha2) as Hp2.
  destruct (@ComposerFacts.rows_placement H W m1 o1 Ha1) as [Hp1r Hp1c].
  destruct (@ComposerFacts.rows_placement H W m2 o2 Ha2) as [Hp2r Hp2c].
  assert (Pacc' : forall i j, i < H -> j < W ->
            NumPy.px acc i j = NumPy.px (ComposerSpec.placement H W m1 o1) i j).
  { intros i j Hi Hj. rewrite Pacc, ComposerFacts.px_zeros by assumption.
    destruct (Hp1 i j) as [E|E]; try lia; rewrite E; reflexivity. }
  assert (Pb1' : forall i j, i < H -> j < W -> NumPy.px b1 i j = 0%Z).
  { intros i j Hi Hj. rewrite Pb1 by assumption.
    replace (ComposerSpec.carried_border (MasksComposer.Plain (NumPy.zeros H W)) o1 i j)
      with 0%Z by (now destruct o1).
    rewrite ComposerFacts.dilate_zero
      by (cbn; try assumption; intros; now apply ComposerFacts.px_zeros).
    destruct (@ComposerFacts.dilate_binary (ComposerSpec.placement H W m1 o1)
                (MasksComposer._dilate_masks_kernel self) i j Hp1) as [E|E];
      try lia; rewrite E; reflexivity. }
  assert (Hbacc : ComposerSpec.binary acc).
  { intros i j Hi Hj. rewrite Pacc' by lia. apply Hp1; lia. }
  (* second call *)
  assert (Hcur : MasksComposer.get_class st1 cls = MasksComposer.Bordered acc b1).
  { unfold MasksComposer.get_class. now rewrite Hget1. }
  destruct (@ComposerFacts.bordered_step (MasksComposer.ensure_class st1 cls)
              (MasksComposer.Bordered acc b1) m2 o2 H W HH HW
              (conj (conj Hacc_r Hacc_c) (conj Hb1r Hb1c)) Ha2)
    as [acc2 [b2 [Hstep2 [_ [[Hb2r Hb2c] [_ Pb2]]]]]].
  rewrite <- Hcur in Hstep2.
  destruct (@ComposerFacts.add_mask_tracked st1 (Some m2) cls o2 _ Ht1 Hstep2)
    as [st2 [Hcall2 [Hget2 _]]].
  rewrite ComposerFacts.kernel_ensure, Hk1 in Pb2.
  cbn [MasksComposer.entry_mask] in Pb2.
  assert (Pb2' : forall i j, i < H -> j < W ->
    NumPy.px b2 i j
    = if (NumPy.px (OpenCV.dilate_image acc
                      (MasksComposer._dilate_masks_kernel self)) i j =? 0)%Z
         || (NumPy.px (OpenCV.dilate_image (ComposerSpec.placement H W m2 o2)
                         (MasksComposer._dilate_masks_kernel self)) i j =? 0)%Z
      then 0%Z else 1%Z).
  { intros i j Hi Hj. rewrite Pb2 by assumption.
    assert (Hcarried : ComposerSpec.carried_border (MasksComposer.Bordered acc b1) o2 i j = 0%Z).
    { destruct o2; cbn; [now apply Pb1'|reflexivity]. }
    rewrite Hcarried.
    destruct (@ComposerFacts.dilate_binary acc
                (MasksComposer._dilate_masks_kernel self) i j Hbacc) as [E|E];
      try lia;
    destruct (@ComposerFacts.dilate_binary (ComposerSpec.placement H W m2 o2)
                (MasksComposer._dilate_masks_kernel self) i j Hp2) as [F|F];
      try lia; rewrite E, F; reflexivity. }
  exists st1, acc, b1, st2, acc2, b2.
  split; [exact Hcall1|]. split; [exact Hget1|].
  split; [exact Hcall2|]. split; [exact Hget2|].
  split; [now split|]. split; [exact Pacc'|].
  split; [exact Pb2'|].
  intros Hdisj i j Hi Hj. rewrite Pb2' by assumption.
  destruct (Hdisj i j Hi Hj) as [E|E]; rewrite E; cbn; [reflexivity|].
  now rewrite orb_true_r.
Qed.

(** The theorem on a 1x3 frame: [[1, 0, 0]] without an offset, then the
    single pixel [[1]] at offset (0, 1). *)
Lemma C1_witness :
  exists st1 acc b1 st2 acc2 b2,
    MasksComposer.add_mask BorderExamples.fresh (Some (BorderExamples.row 1 0 0)) 0 None
    = (st1, None)
    /\ MasksComposer.dict_get (MasksComposer._masks st1) 0
       = Some (MasksComposer.Bordered acc b1)
    /\ MasksComposer.add_mask st1 (Some (NumPy.Image 1 1 [1%Z])) 0 (Some (0, 1)%Z)
       = (st2, None)
    /\ MasksComposer.dict_get (MasksComposer._masks st2) 0
       = Some (MasksComposer.Bordered acc2 b2)
    /\ forall i j, i < 1 -> j < 3 ->
       NumPy.px b2 i j
       = if (NumPy.px (OpenCV.dilate_image acc (Some MasksComposer.default_kernel)) i j =? 0)%Z
            || (NumPy.px (OpenCV.dilate_image
                            (ComposerSpec.placement 1 3 (NumPy.Image 1 1 [1%Z])
                               (Some (0, 1)%Z))
                            (Some MasksComposer.default_kernel)) i j =? 0)%Z
         then 0%Z else 1%Z.
Proof.
  destruct (@C1_border_is_the_overlap_of_the_dilations
              BorderExamples.fresh 0%Z 1 3 [0%Z]
              (BorderExamples.row 1 0 0) (NumPy.Image 1 1 [1%Z])
              None (Some (0, 1)%Z))
    as [st1 [acc [b1 [st2 [acc2 [b2 [H1 [H2 [H3 [H4 [_ [_ [H5 _]]]]]]]]]]]]].
  - reflexivity.
  - lia.
  - lia.
  - reflexivity.
  - reflexivity.
  - reflexivity.
  - simpl; auto.
  - intros i j Hi Hj.
    destruct i as [|i]; [|simpl in Hi; lia].
    destruct j as [|[|[|j]]]; cbn; auto. simpl in Hj; lia.
  - intros i j Hi Hj.
    destruct i as [|i]; [|simpl in Hi; lia].
    destruct j as [|j]; [cbn; auto|simpl in Hj; lia].
  - split; reflexivity.
  - unfold ComposerSpec.admissible, ComposerSpec.fits; simpl; lia.
  - exists st1, acc, b1, st2, acc2, b2. repeat (split; [assumption|]). exact H5.
Defined.

(* ================================================================== *)
(** * Offsets *)

(** C2, as stated, fails where the placed mask leaves the frame: the code
    has no bounds check and no [InvalidOffset].  A 1x1 mask at offset (2, 0)
    of a 2x2 frame selects an empty slice, the call returns normally and the
    contribution is dropped; a 2x1 mask at offset (1, 1) raises NumPy's
    [ValueError]; and the negative offset (-2, 0) counts from the end, so
    the 1x1 mask lands on row 0.  It also fails for a mask that fits: after
    [add_borders_as_class()] with its defaults the test
    [cls in self._borders_between_classes] raises [TypeError], and so does
    the sliced update of a class that holds a [{'mask', 'borders'}] entry
    and no longer has border tracking; in both cases nothing is added. *)
Lemma C2_offset_beyond_the_frame_is_not_rejected :
  MasksComposer.add_mask OffsetExamples.frame (Some OffsetExamples.pixel) 0 (Some (2, 0)%Z)
  = (OffsetExamples.with_canvas 0 0 0 0, None)
  /\ MasksComposer.add_mask OffsetExamples.frame (Some OffsetExamples.column) 0
       (Some (1, 1)%Z)
     = (OffsetExamples.with_canvas 0 0 0 0, Some ValueError)
  /\ MasksComposer.add_mask OffsetExamples.frame (Some OffsetExamples.pixel) 0
       (Some (-2, 0)%Z)
     = (OffsetExamples.with_canvas 1 0 0 0, None)
  /\ (ComposerSpec.fits 2 2 OffsetExamples.pixel (1, 1)%Z
      /\ snd (MasksComposer.add_mask OffsetExamples.no_classes
                (Some OffsetExamples.pixel) 0 (Some (1, 1)%Z)) = Some TypeError
      /\ NumPy.px (ComposerSpec.stored_mask
                     (fst (MasksComposer.add_mask OffsetExamples.no_classes
                             (Some OffsetExamples.pixel) 0 (Some (1, 1)%Z))) 0) 1 1
         = 0%Z)
  /\ (MasksComposer.add_mask OffsetExamples.left_behind
        (Some OffsetExamples.pixel) 0 (Some (1, 1)%Z)
      = (OffsetExamples.left_behind, Some TypeError)
      /\ NumPy.px (ComposerSpec.stored_mask OffsetExamples.left_behind 0) 1 1 = 0%Z).
Proof.
  repeat split; try (vm_compute; reflexivity);
    unfold ComposerSpec.fits; cbn; lia.
Qed.

(** C2 (amended): take a call [add_mask(mask, cls, offset=(r, c))] on a
    composer whose stored arrays have the frame's shape, for which the test
    [self._borders_as_class and cls in self._borders_between_classes]
    evaluates, to [tracked], and whose entry for [cls] is a plain array when
    [tracked] is false.  On a frame that is not empty, or without border
    tracking: when the placed mask fits the frame the call returns,
    [mask[i, j]] is added exactly at [(r + i, c + j)] of the accumulated mask
    (modulo 256, and clipped to [0, 1] for a class with border tracking),
    and the pixels outside the window keep their value (wrapped and clipped
    for such a class); for a non-negative offset at which the placed mask
    exceeds the frame the code makes no check of its own: the call raises
    NumPy's [ValueError] or returns normally, and in neither case is any
    part of the mask written.  On an empty frame a class with border
    tracking makes the call raise, [ValueError] or OpenCV's error, and the
    accumulated mask stays as it was. *)
Theorem C2_offset_places_the_mask
    (self : MasksComposer.t) (m : NumPy.image) (cls : Z) (r c : Z)
    (H W : nat) (tracked : bool) :
  MasksComposer._mask_shape self = (H, W) ->
  ComposerSpec.entry_shaped H W (MasksComposer.get_class self cls) ->
  MasksComposer.tracks_borders self cls = Ok tracked ->
  (tracked = false -> exists a, MasksComposer.get_class self cls = MasksComposer.Plain a) ->
  (ComposerSpec.fits H W m (r, c) ->
   (tracked = true -> 0 < H /\ 0 < W) ->
   exists st,
     MasksComposer.add_mask self (Some m) cls (Some (r, c)) = (st, None)
     /\ (NumPy.rows (ComposerSpec.stored_mask st cls) = H
         /\ NumPy.cols (ComposerSpec.stored_mask st cls) = W)
     /\ (forall i j, i < NumPy.rows m -> j < NumPy.cols m ->
         NumPy.px (ComposerSpec.stored_mask st cls) (Z.to_nat r + i) (Z.to_nat c + j)
         = ComposerSpec.summed tracked
             (NumPy.px (ComposerSpec.stored_mask self cls) (Z.to_nat r + i) (Z.to_nat c + j))
             (NumPy.px m i j))
     /\ (forall i j, i < H -> j < W ->
         NumPy.in_window (Z.to_nat r) (NumPy.rows m) i
         && NumPy.in_window (Z.to_nat c) (NumPy.cols m) j = false ->
         NumPy.px (ComposerSpec.stored_mask st cls) i j
         = ComposerSpec.kept tracked (NumPy.px (ComposerSpec.stored_mask self cls) i j)))
  /\ ((0 <= r)%Z -> (0 <= c)%Z -> ~ ComposerSpec.fits H W m (r, c) ->
      (tracked = true -> 0 < H /\ 0 < W) ->
      exists st ex,
        MasksComposer.add_mask self (Some m) cls (Some (r, c)) = (st, ex)
        /\ (ex = Some ValueError \/ ex = None)
        /\ (NumPy.rows (ComposerSpec.stored_mask st cls) = H
            /\ NumPy.cols (ComposerSpec.stored_mask st cls) = W)
        /\ forall i j, i < H -> j < W ->
           NumPy.px (ComposerSpec.stored_mask st cls) i j
           = match ex with
             | Some _ => NumPy.px (ComposerSpec.stored_mask self cls) i j
             | None =>
                 ComposerSpec.kept tracked
                   (NumPy.px (ComposerSpec.stored_mask self cls) i j)
             end)
  /\ (tracked = true -> H = 0 \/ W = 0 ->
      exists st ex,
        MasksComposer.add_mask self (Some m) cls (Some (r, c)) = (st, Some ex)
        /\ (ex = ValueError \/ ex = CvError)
        /\ ComposerSpec.stored_mask st cls = ComposerSpec.stored_mask self cls).
Proof.
  intros Hshape Hshaped Ht Hplain.
  destruct (@ComposerFacts.entry_mask_shaped H W _ Hshaped) as [Hr Hc].
  rewrite (@ComposerFacts.add_mask_step self (Some m) cls (Some (r, c)) tracked Ht).
  unfold ComposerSpec.stored_mask.
  split; [|split].
  - intros Hfits Hne. destruct tracked.
    + destruct (Hne eq_refl) as [HH HW].
      destruct (@ComposerFacts.bordered_step (MasksComposer.ensure_class self cls)
                  (MasksComposer.get_class self cls) m (Some (r, c)) H W HH HW
                  Hshaped Hfits)
        as [M [B [-> [[HMr HMc] [_ [PM _]]]]]].
      eexists. split; [reflexivity|].
      rewrite ComposerFacts.get_class_set. cbn [MasksComposer.entry_mask].
      split; [now split|].
      destruct Hfits as [Hr0 [Hr1 [Hc0 Hc1]]]. cbn [fst snd] in *.
      split.
      * intros i j Hi Hj. rewrite PM by lia.
        cbn [ComposerSpec.placement ComposerSpec.summed].
        rewrite NumPyFacts.px_mk by lia.
        replace (NumPy.in_window (Z.to_nat r) (NumPy.rows m) (Z.to_nat r + i)) with true
          by (symmetry; apply ComposerFacts.in_window_iff; lia).
        replace (NumPy.in_window (Z.to_nat c) (NumPy.cols m) (Z.to_nat c + j)) with true
          by (symmetry; apply ComposerFacts.in_window_iff; lia).
        cbn [andb]. repeat f_equal; lia.
      * intros i j Hi Hj Hout. rewrite PM by lia.
        cbn [ComposerSpec.placement ComposerSpec.kept].
        rewrite NumPyFacts.px_mk by lia. rewrite Hout. now rewrite Z.add_0_r.
    + destruct (Hplain eq_refl) as [a Ha]. rewrite Ha in *. cbn [MasksComposer.entry_mask] in *.
      unfold MasksComposer.add_mask_plain.
      rewrite <- Hr, <- Hc in Hfits.
      rewrite (@ComposerFacts.iadd_slice_fits a m r c Hfits). cbn [bind].
      eexists. split; [reflexivity|].
      rewrite ComposerFacts.get_class_set. cbn [MasksComposer.entry_mask].
      split; [now split|].
      destruct Hfits as [Hr0 [Hr1 [Hc0 Hc1]]]. cbn [fst snd] in *.
      split.
      * intros i j Hi Hj. rewrite NumPyFacts.px_mk by lia.
        cbn [ComposerSpec.summed].
        replace (NumPy.in_window (Z.to_nat r) (NumPy.rows m) (Z.to_nat r + i)) with true
          by (symmetry; apply ComposerFacts.in_window_iff; lia).
        replace (NumPy.in_window (Z.to_nat c) (NumPy.cols m) (Z.to_nat c + j)) with true
          by (symmetry; apply ComposerFacts.in_window_iff; lia).
        cbn [andb]. repeat f_equal; lia.
      * intros i j Hi Hj Hout. rewrite NumPyFacts.px_mk by lia.
        now rewrite Hout.
  - intros Hr0 Hc0 Hno Hne. destruct tracked.
    + destruct (Hne eq_refl) as [HH HW].
      assert (Hno' : ~ ComposerSpec.fits
                       (NumPy.rows (NumPy.zeros_like
                          (MasksComposer.entry_mask (MasksComposer.get_class self cls))))
                       (NumPy.cols (NumPy.zeros_like
                          (MasksComposer.entry_mask (MasksComposer.get_class self cls))))
                       m (r, c))
        by (cbn [NumPy.zeros_like NumPy.zeros NumPy.mk NumPy.rows NumPy.cols];
            now rewrite Hr, Hc).
      destruct (@ComposerFacts.set_slice_exceeds
                  (NumPy.zeros_like (MasksComposer.entry_mask (MasksComposer.get_class self cls)))
                  m r c Hr0 Hc0 Hno') as [E|E].
      * rewrite (@ComposerFacts.bordered_step_raise (MasksComposer.ensure_class self cls)
                   (MasksComposer.get_class self cls) m (Some (r, c)) ValueError E).
        exists (MasksComposer.ensure_class self cls), (Some ValueError).
        rewrite ComposerFacts.get_class_ensure.
        split; [reflexivity|]. split; [now left|]. split; [now split|]. reflexivity.
      * match type of E with _ = Ok ?t0 => set (t := t0) in E end.
        assert (Htr : NumPy.rows t = H) by exact Hr.
        assert (Htc : NumPy.cols t = W) by exact Hc.
        destruct (@ComposerFacts.bordered_step_target (MasksComposer.ensure_class self cls)
                    (MasksComposer.get_class self cls) m (Some (r, c)) H W t HH HW Hshaped
                    Htr Htc E)
          as [M [B [Hstep [[HMr HMc] [_ [PM _]]]]]].
        rewrite Hstep. subst t.
        eexists. exists None. split; [reflexivity|].
        rewrite ComposerFacts.get_class_set. cbn [MasksComposer.entry_mask].
        split; [now right|]. split; [now split|].
        intros i j Hi Hj. rewrite PM by lia. cbn [ComposerSpec.kept].
        rewrite NumPyFacts.px_mk
          by (cbn [NumPy.zeros_like NumPy.zeros NumPy.mk NumPy.rows NumPy.cols]; lia).
        unfold NumPy.zeros_like. rewrite ComposerFacts.px_zeros by lia.
        now rewrite Z.add_0_r.
    + destruct (Hplain eq_refl) as [a Ha]. rewrite Ha in *. cbn [MasksComposer.entry_mask] in *.
      unfold MasksComposer.add_mask_plain.
      rewrite <- Hr, <- Hc in Hno.
      destruct (@ComposerFacts.iadd_slice_exceeds a m r c Hr0 Hc0 Hno) as [E|E];
        rewrite E; cbn [bind].
      * exists (MasksComposer.ensure_class self cls), (Some ValueError).
        rewrite ComposerFacts.get_class_ensure, Ha. cbn [MasksComposer.entry_mask].
        split; [reflexivity|]. split; [now left|]. split; [now split|]. reflexivity.
      * eexists. exists None. split; [reflexivity|].
        rewrite ComposerFacts.get_class_set. cbn [MasksComposer.entry_mask].
        split; [now right|]. split; [now split|].
        intros i j Hi Hj. rewrite NumPyFacts.px_mk by lia. reflexivity.
  - intros -> Hemp.
    destruct (@ComposerFacts.bordered_step_empty (MasksComposer.ensure_class self cls)
                (MasksComposer.get_class self cls) m r c H W Hshaped Hemp) as [E|E];
      rewrite E; eexists; eexists; (split; [reflexivity|]);
      rewrite ComposerFacts.get_class_ensure; split; auto.
Qed.

(** The theorem on a fresh 2x2 frame: a 1x1 mask at offset (1, 1). *)
Lemma C2_witness :
  exists st,
    MasksComposer.add_mask OffsetExamples.frame (Some OffsetExamples.pixel) 0
      (Some (1, 1)%Z) = (st, None)
    /\ NumPy.px (ComposerSpec.stored_mask st 0) (Z.to_nat 1 + 0) (Z.to_nat 1 + 0)
       = ComposerSpec.summed false
           (NumPy.px (ComposerSpec.stored_mask OffsetExamples.frame 0)
                     (Z.to_nat 1 + 0) (Z.to_nat 1 + 0))
           (NumPy.px OffsetExamples.pixel 0 0).
Proof.
  destruct (@C2_offset_places_the_mask OffsetExamples.frame OffsetExamples.pixel
              0%Z 1%Z 1%Z 2 2 false) as [Hfit _].
  - reflexivity.
  - split; reflexivity.
  - reflexivity.
  - intros _. eexists. reflexivity.
  - destruct Hfit as [st [Hcall [_ [Hin _]]]].
    + unfold ComposerSpec.fits; simpl; lia.
    + discriminate.
    + exists st. split; [exact Hcall|].
      apply Hin; simpl; lia.
Defined.

(* ================================================================== *)
(** * Border accumulation across calls *)

(** C3 (the code differs): [add_mask] fetches [prev_borders] only inside
    [if offset is not None].  A later call WITHOUT an offset therefore
    replaces the stored borders by the borders of that call alone: the border
    pixel found by the second call is gone after the third, while the same
    third call with [offset = (0, 0)] keeps it.  The other half of the
    claim holds: whatever a call stores for a class with border tracking,
    mask and borders, has all its values in {0, 1}. *)
Theorem C3_borders_lost_when_offset_is_None :
  MasksComposer.dict_get (MasksComposer._masks BorderExamples.after_two) 0
  = Some (MasksComposer.Bordered (BorderExamples.row 1 1 0) (BorderExamples.row 0 1 0))
  /\ BorderExamples.third_without_offset
     = (MasksComposer.with_masks BorderExamples.fresh
          [(0%Z, MasksComposer.Bordered (BorderExamples.row 1 1 0)
                                        (BorderExamples.row 0 0 0))],
        None)
  /\ BorderExamples.third_with_offset
     = (MasksComposer.with_masks BorderExamples.fresh
          [(0%Z, MasksComposer.Bordered (BorderExamples.row 1 1 0)
                                        (BorderExamples.row 0 1 0))],
        None)
  /\ (forall self e mask offset e',
      MasksComposer.add_mask_bordered self e mask offset = Ok e' ->
      exists M B,
        e' = MasksComposer.Bordered M B
        /\ ComposerSpec.binary M /\ ComposerSpec.binary B).
Proof.
  split; [vm_compute; reflexivity|].
  split; [vm_compute; reflexivity|].
  split; [vm_compute; reflexivity|].
  intros self e mask offset e'. apply ComposerFacts.bordered_result_is_binary.
Qed.

(* ================================================================== *)
(** * Composition *)

(** C4 (the code differs): [compose()] stacks a second class without border
    tracking along a new LEADING axis ([np.stack((res, mask), axis=0)]): two
    1x2 classes give shape (2, 1, 2), not the (1, 2, 2) of a stack along a
    trailing axis.  With a third class, or with two border-tracked classes,
    the accumulated result and the next mask no longer share a shape and
    [np.stack] raises [ValueError]. *)
Theorem C4_compose_stacks_plain_classes_on_leading_axis :
  MasksComposer.compose ComposeExamples.two_plain
  = Ok (Some (NumPy.NdArray [2; 1; 2] [1; 1; 0; 0]%Z))
  /\ NumPy.stack [NumPy.NdArray [1; 2] [1; 1]%Z; NumPy.NdArray [1; 2] [0; 0]%Z] 2
     = Ok (NumPy.NdArray [1; 2; 2] [1; 0; 1; 0]%Z)
  /\ MasksComposer.compose ComposeExamples.three_plain = Raise ValueError
  /\ MasksComposer.compose ComposeExamples.two_bordered = Raise ValueError.
Proof. repeat split; vm_compute; reflexivity. Qed.

(* ================================================================== *)
(** * The annotation decoder *)

(** C5 (the code differs): for an object with neither bitmap nor points the
    decoder does return [(None, None)], but [_process_target] hands that
    [None] mask to [add_mask] unguarded, and the read raises: [TypeError]
    from [self._masks[cls] += None] without border tracking, an OpenCV error
    from [cv2.dilate(None, ...)] with it. *)
Theorem C5_empty_object_makes_the_read_raise
    (decode_alpha : string -> result NumPy.image)
    (drawContours : NumPy.image -> list (Z * Z) -> Z -> NumPy.image)
    (height width : nat) (title : string) (thickness : option nat) :
  SuperviselyDataset.object_to_mask decode_alpha drawContours
    (EmptyObjectExample.empty_object title) = Ok (None, None)
  /\ SuperviselyDataset._process_target decode_alpha drawContours
       (SuperviselyDataset.Dataset false thickness)
       (EmptyObjectExample.one_empty_object height width title)
     = Raise TypeError
  /\ SuperviselyDataset._process_target decode_alpha drawContours
       (SuperviselyDataset.Dataset true thickness)
       (EmptyObjectExample.one_empty_object height width title)
     = Raise CvError.
Proof.
  repeat split.
  destruct thickness;
    unfold SuperviselyDataset._process_target, MasksComposer.add_borders_as_class,
      MasksComposer.init, EmptyObjectExample.one_empty_object;
    cbn [SuperviselyDataset._use_border_as_class SuperviselyDataset._border_thikness
         SuperviselyDataset.objects SuperviselyDataset.add_objects
         SuperviselyDataset.size_height SuperviselyDataset.size_width
         MasksComposer._masks MasksComposer._mask_shape];
    change (SuperviselyDataset.object_to_mask decode_alpha drawContours
              (EmptyObjectExample.empty_object title)) with (Ok (@None NumPy.image, @None (Z * Z)));
    cbn [bind fst snd];
    unfold MasksComposer.add_mask;
    rewrite ComposerFacts.get_class_ensure;
    unfold MasksComposer.tracks_borders, MasksComposer.ensure_class;
    cbn [MasksComposer.dict_mem MasksComposer.dict_get MasksComposer._masks
         MasksComposer._borders_as_class MasksComposer.with_masks
         MasksComposer._borders_between_classes MasksComposer._mask_shape
         MasksComposer._dilate_masks_kernel MasksComposer.in_between_classes
         existsb Z.eqb orb bind MasksComposer.dict_set fst snd];
    unfold MasksComposer.add_mask_bordered; cbn [bind];
    rewrite ComposerFacts.calc_border_of_None; reflexivity.
Qed.




(* ================================================================== *)
(** * The class-count normaliser *)

(** C8: constructing the normaliser with [target_classes_num <= exists_class_idx]
    raises (the code raises a plain [Exception] carrying both numbers), in
    particular for [target_classes_num = 2, exists_class_idx = 2]; with
    [target_classes_num > exists_class_idx] construction succeeds and stores
    the three arguments. *)
Theorem C8_init_validates_class_count
    (D : Type) (ds : EmptyClassesAdd.dataset D) (total idx : Z) :
  ((total <= idx)%Z ->
     EmptyClassesAdd.init ds total idx
     = Raise (Exception_ (EmptyClassesAdd.init_message total idx)))
  /\ ((idx < total)%Z ->
     EmptyClassesAdd.init ds total idx = Ok (EmptyClassesAdd.Wrapper ds total idx))
  /\ EmptyClassesAdd.init ds 2 2
     = Raise (Exception_
         "Target classes number (2) can't be less or equal than exists class index (2)").
Proof.
  unfold EmptyClassesAdd.init. repeat split.
  - intros H. apply Z.leb_le in H. now rewrite H.
  - intros H. apply Z.leb_gt in H. now rewrite H.
Qed.




(** C9, as stated, fails twice.  For a target with more than three
    dimensions the message quotes the shape only: with a class count of 7
    and shape (1, 1, 1, 1) no "7" occurs in it.  And a three-dimensional
    target whose channel count is within the class count is not accepted:
    shape (2, 2, 2) under a class count of 3 passes both checks and then
    fails in [target[:, :, idx] = ...] with [ValueError]. *)
Lemma C9_message_and_acceptance_differ :
  (EmptyClassesAdd.getitem
     (EmptyClassesAdd.Wrapper
        (NormalizerExamples.constant NormalizerExamples.four_dims) 7 0) 0
   = Raise (RuntimeError
       "Dataset produce target with channels number more than 3.Target shape from dataset: (1, 1, 1, 1)")
   /\ NormalizerExamples.contains (EmptyClassesAdd.format_int 7)
        "Dataset produce target with channels number more than 3.Target shape from dataset: (1, 1, 1, 1)"
      = false)
  /\ EmptyClassesAdd.getitem
       (EmptyClassesAdd.Wrapper
          (NormalizerExamples.constant NormalizerExamples.two_channels) 3 0) 0
     = Raise ValueError.
Proof. repeat split; vm_compute; reflexivity. Qed.

(** C9 (amended): on every read the normaliser raises [RuntimeError] exactly
    when the wrapped target has more than three dimensions, or has three and
    a channel count above the configured class count.  In the first case the
    message quotes the offending shape; in the second it quotes the shape
    and the configured class count.  A two-dimensional target never raises
    [RuntimeError]; it is accepted exactly when
    [-total_classes <= exists_class_idx < total_classes], of which the
    constructor checks the upper bound only: an index outside raises
    [IndexError], and a negative class count raises [ValueError]. *)
Theorem C9_shape_errors
    (D : Type) (w : EmptyClassesAdd.t D) (item : Z) (s : EmptyClassesAdd.sample D) :
  EmptyClassesAdd._dataset w item = Ok s ->
  ((exists msg, EmptyClassesAdd.getitem w item = Raise (RuntimeError msg))
   <-> (3 < length (NumPy.array_shape (EmptyClassesAdd.sample_target s))
        \/ (length (NumPy.array_shape (EmptyClassesAdd.sample_target s)) = 3
            /\ (EmptyClassesAdd._target_classes_num w
                < Z.of_nat (nth 2 (NumPy.array_shape (EmptyClassesAdd.sample_target s)) 0%nat))%Z)))
  /\ (3 < length (NumPy.array_shape (EmptyClassesAdd.sample_target s)) ->
      exists msg,
        EmptyClassesAdd.getitem w item = Raise (RuntimeError msg)
        /\ NormalizerExamples.contains
             (EmptyClassesAdd.format_tuple
                (NumPy.array_shape (EmptyClassesAdd.sample_target s))) msg = true)
  /\ (length (NumPy.array_shape (EmptyClassesAdd.sample_target s)) = 3 ->
      (EmptyClassesAdd._target_classes_num w
       < Z.of_nat (nth 2 (NumPy.array_shape (EmptyClassesAdd.sample_target s)) 0%nat))%Z ->
      exists msg,
        EmptyClassesAdd.getitem w item = Raise (RuntimeError msg)
        /\ NormalizerExamples.contains
             (EmptyClassesAdd.format_tuple
                (NumPy.array_shape (EmptyClassesAdd.sample_target s))) msg = true
        /\ NormalizerExamples.contains
             (EmptyClassesAdd.format_int (EmptyClassesAdd._target_classes_num w)) msg = true)
  /\ (length (NumPy.array_shape (EmptyClassesAdd.sample_target s)) = 2 ->
      ((- EmptyClassesAdd._target_classes_num w <= EmptyClassesAdd._exists_class_idx w
        < EmptyClassesAdd._target_classes_num w)%Z ->
       exists r, EmptyClassesAdd.getitem w item = Ok r)
      /\ ((0 <= EmptyClassesAdd._target_classes_num w)%Z ->
          (EmptyClassesAdd._exists_class_idx w < - EmptyClassesAdd._target_classes_num w
           \/ EmptyClassesAdd._target_classes_num w <= EmptyClassesAdd._exists_class_idx w)%Z ->
          EmptyClassesAdd.getitem w item = Raise IndexError)
      /\ ((EmptyClassesAdd._target_classes_num w < 0)%Z ->
          EmptyClassesAdd.getitem w item = Raise ValueError)).
Proof.
  intros Hds. repeat match goal with |- _ /\ _ => split end.
  - unfold EmptyClassesAdd.getitem. rewrite Hds. cbn [bind].
    set (shp := NumPy.array_shape (EmptyClassesAdd.sample_target s)).
    set (k := EmptyClassesAdd._target_classes_num w).
    set (c := EmptyClassesAdd._exists_class_idx w).
    destruct (3 <? length shp) eqn:E3.
    { apply Nat.ltb_lt in E3. split; [intros _; now left|intros _; eexists; reflexivity]. }
    apply Nat.ltb_ge in E3.
    destruct ((length shp =? 3) && (k <? Z.of_nat (nth 2 shp 0%nat))%Z) eqn:Ech.
    { apply andb_prop in Ech. destruct Ech as [El Ek].
      apply Nat.eqb_eq in El. apply Z.ltb_lt in Ek.
      split; [intros _; right; now split|intros _; eexists; reflexivity]. }
    split.
    + intros [msg Hmsg]. exfalso.
      destruct shp as [|h [|wd rest]]; try discriminate.
      destruct (k <? 0)%Z; try discriminate.
      destruct ((_ <? 0) || _)%Z; try discriminate.
      unfold EmptyClassesAdd.write_channel in Hmsg.
      destruct rest as [|n [|m rest]]; try discriminate.
      destruct ((h =? 1) && (wd =? 1) && (n =? 1)); discriminate.
    + intros [H|[Hl Hk]]; [lia|].
      apply Nat.eqb_eq in Hl. apply Z.ltb_lt in Hk.
      rewrite Hl, Hk in Ech. discriminate.
  - intros E3. unfold EmptyClassesAdd.getitem. rewrite Hds. cbn [bind].
    apply Nat.ltb_lt in E3. rewrite E3.
    eexists. split; [reflexivity|].
    unfold EmptyClassesAdd.ndim_message.
    rewrite NormalizerFacts.append_assoc.
    apply NormalizerFacts.contains_end.
  - intros El Ek. unfold EmptyClassesAdd.getitem. rewrite Hds. cbn [bind].
    replace (3 <? length (NumPy.array_shape (EmptyClassesAdd.sample_target s)))
      with false by (symmetry; apply Nat.ltb_ge; lia).
    rewrite El. apply Z.ltb_lt in Ek. rewrite Ek. cbn [Nat.eqb andb].
    eexists. split; [reflexivity|].
    unfold EmptyClassesAdd.channels_message. split.
    + rewrite NormalizerFacts.append_assoc. apply NormalizerFacts.contains_app.
    + rewrite !NormalizerFacts.append_assoc.
      apply NormalizerFacts.contains_end.
  - intros Hl.
    destruct (@NormalizerFacts.getitem_bad_channel D w item s Hds Hl) as [Hv Hi].
    split; [|split; [exact Hi|exact Hv]].
    intros Hc. destruct s as [d target]. cbn [EmptyClassesAdd.sample_target] in *.
    destruct (NumPy.array_shape target) as [|h [|wd [|n rest]]] eqn:Es; try discriminate.
    eexists. exact (@NormalizerFacts.getitem_2d_channel D w item d target h wd Hds Es Hc).
Qed.

(** The theorem at a 2x2 target under a class count of 3 (accepted) and at
    the four-dimensional target under a class count of 7 (rejected). *)
Lemma C9_witness :
  (EmptyClassesAdd._dataset
     (EmptyClassesAdd.Wrapper (NormalizerExamples.constant NormalizerExamples.small) 3 1) 0%Z
   = Ok (EmptyClassesAdd.Sample tt NormalizerExamples.small)
   /\ exists r,
        EmptyClassesAdd.getitem
          (EmptyClassesAdd.Wrapper (NormalizerExamples.constant NormalizerExamples.small) 3 1) 0
        = Ok r)
  /\ exists msg,
       EmptyClassesAdd.getitem
         (EmptyClassesAdd.Wrapper (NormalizerExamples.constant NormalizerExamples.four_dims) 7 0) 0
       = Raise (RuntimeError msg)
       /\ NormalizerExamples.contains "(1, 1, 1, 1)" msg = true.
Proof.
  split.
  - split; [reflexivity|].
    apply (@C9_shape_errors unit
             (EmptyClassesAdd.Wrapper (NormalizerExamples.constant NormalizerExamples.small) 3 1)
             0%Z (EmptyClassesAdd.Sample tt NormalizerExamples.small) eq_refl).
    + reflexivity.
    + cbn. lia.
  - apply (@C9_shape_errors unit
             (EmptyClassesAdd.Wrapper (NormalizerExamples.constant NormalizerExamples.four_dims) 7 0)
             0%Z (EmptyClassesAdd.Sample tt NormalizerExamples.four_dims) eq_refl).
    cbn. lia.
Defined.

(** C10: whatever the element type of the wrapped target, the target
    returned by a read is a [uint8] array; for a two-dimensional target and
    a channel index of [-total_classes] or more the read succeeds and the
    channel [exists_class_idx] (counted from the end when negative) holds
    the wrapped values as stored into [uint8], numbers of [0, 256).  For a
    [float64] value whose integer part fits a 32-bit integer that is the
    value with its fraction dropped (rounding toward zero), modulo 256; for
    the pixel-mask adapter's [mask / 255] every mask value below 255 is
    therefore stored as 0 and only 255 as 1. *)
Theorem C10_targets_are_stored_as_uint8
    (D : Type) (ds : EmptyClassesAdd.dataset D) (total idx : Z)
    (w : EmptyClassesAdd.t D) (item : Z) (d : D) (target : NumPy.array)
    (h wd : nat) :
  EmptyClassesAdd.init ds total idx = Ok w ->
  (- total <= idx)%Z ->
  ds item = Ok (EmptyClassesAdd.Sample d target) ->
  NumPy.array_shape target = [h; wd] ->
  (forall (w' : EmptyClassesAdd.t D) item' r,
     EmptyClassesAdd.getitem w' item' = Ok r ->
     exists out : NumPy.ndarray Z, EmptyClassesAdd.sample_target r = NumPy.U8 out)
  /\ exists out,
    EmptyClassesAdd.getitem w item = Ok (EmptyClassesAdd.Sample d (NumPy.U8 out))
    /\ (forall i j, i < h -> j < wd ->
        NumPy.item 0%Z out [i; j; Z.to_nat (NormalizerSpec.channel_of total idx)]
        = NumPy.item_as_u8 target [i; j])
    /\ (forall a, target = NumPy.F64 a ->
        forall i j, i < h -> j < wd ->
        (0 <= NumPy.item 0%Z out [i; j; Z.to_nat (NormalizerSpec.channel_of total idx)]
         < 256)%Z
        /\ ((- 2 ^ 31 <= NumPy.trunc (NumPy.item PrimFloat.zero a [i; j]) < 2 ^ 31)%Z ->
            NumPy.item 0%Z out [i; j; Z.to_nat (NormalizerSpec.channel_of total idx)]
            = NumPy.wrap8 (NumPy.trunc (NumPy.item PrimFloat.zero a [i; j]))))
    /\ (forall mask, target = NumPy.F64 (NumPy.true_divide mask 255) ->
        forall i j, i < h -> j < wd ->
        (0 <= NumPy.item 0%Z mask [i; j] <= 255)%Z ->
        NumPy.item 0%Z out [i; j; Z.to_nat (NormalizerSpec.channel_of total idx)]
        = if (NumPy.item 0%Z mask [i; j] =? 255)%Z then 1%Z else 0%Z)
    /\ NumPy.trunc 0.5%float = 0%Z
    /\ NumPy.trunc 0.9990234375%float = 0%Z
    /\ NumPy.trunc 1%float = 1%Z
    /\ NumPy.trunc 2.75%float = 2%Z
    /\ NumPy.trunc (-2.75)%float = (-2)%Z.
Proof.
  intros Hinit Hidx Hds Hshape.
  apply NormalizerFacts.init_inv in Hinit. destruct Hinit as [-> Hlt].
  split; [intros w' item' r; apply NormalizerFacts.getitem_returns_u8|].
  exists (NormalizerExamples.expanded h wd total
            (NormalizerSpec.channel_of total idx) target).
  assert (Hc : (0 <= NormalizerSpec.channel_of total idx < total)%Z).
  { unfold NormalizerSpec.channel_of. destruct (Z.ltb_spec idx 0); lia. }
  assert (Hch : forall i j, i < h -> j < wd ->
            NumPy.item 0%Z
              (NormalizerExamples.expanded h wd total
                 (NormalizerSpec.channel_of total idx) target)
              [i; j; Z.to_nat (NormalizerSpec.channel_of total idx)]
            = NumPy.item_as_u8 target [i; j]).
  { intros i j Hi Hj.
    rewrite NormalizerFacts.item_expanded by (try assumption; lia).
    now rewrite Nat.eqb_refl. }
  split.
  { apply (@NormalizerFacts.getitem_2d_channel D
             (EmptyClassesAdd.Wrapper ds total idx) item d target h wd Hds Hshape).
    cbn [EmptyClassesAdd._target_classes_num EmptyClassesAdd._exists_class_idx]. lia. }
  split; [exact Hch|].
  split.
  { intros a -> i j Hi Hj. rewrite Hch by assumption. cbn [NumPy.item_as_u8].
    split; [apply CastFacts.f64_to_u8_range|apply CastFacts.f64_to_u8_fits]. }
  split.
  { intros mask -> i j Hi Hj Hpx. rewrite Hch by assumption. cbn [NumPy.item_as_u8].
    rewrite CastFacts.item_true_divide.
    now apply CastFacts.f64_to_u8_divide_by_255. }
  repeat split; vm_compute; reflexivity.
Qed.

(** The theorem at the pixel-mask adapter's item for the 1x2 mask
    [[255, 128]], read through [EmptyClassesAdd(dataset, 2, 0)]. *)
Lemma C10_witness :
  exists out,
    EmptyClassesAdd.getitem
      (EmptyClassesAdd.Wrapper
         (fun _ => Ok (PixartDataset.getitem tt (NumPy.NdArray [1; 2] [255; 128]%Z))) 2 0) 0
    = Ok (EmptyClassesAdd.Sample tt (NumPy.U8 out))
    /\ NumPy.item 0%Z out [0; 0; 0] = 1%Z
    /\ NumPy.item 0%Z out [0; 1; 0] = 0%Z.
Proof.
  destruct (@C10_targets_are_stored_as_uint8 unit
              (fun _ => Ok (PixartDataset.getitem tt (NumPy.NdArray [1; 2] [255; 128]%Z)))
              2 0
              (EmptyClassesAdd.Wrapper
                 (fun _ => Ok (PixartDataset.getitem tt (NumPy.NdArray [1; 2] [255; 128]%Z))) 2 0)
              0%Z tt (NumPy.F64 (NumPy.true_divide (NumPy.NdArray [1; 2] [255; 128]%Z) 255))
              1 2 eq_refl ltac:(lia) eq_refl eq_refl)
    as [_ [out [Hget [_ [_ [Hmask _]]]]]].
  exists out. split; [exact Hget|].
  split.
  - apply (Hmask _ eq_refl 0 0); [lia|lia|vm_compute; split; discriminate].
  - apply (Hmask _ eq_refl 0 1); [lia|lia|vm_compute; split; discriminate].
Defined.

(* ================================================================== *)
(** * The composer across calls *)

(** X1: [add_mask], whatever its arguments and whether or not it raises,
    leaves the entries of every other class as they are, keeps the classes
    in their order and puts a new class last, and changes nothing of the
    composer's configuration. *)
Theorem add_mask_touches_one_class
    (self : MasksComposer.t) (mask : option NumPy.image) (cls : Z)
    (offset : option (Z * Z)) :
  (forall cls', cls' <> cls ->
     MasksComposer.dict_get (MasksComposer._masks (fst (MasksComposer.add_mask self mask cls offset))) cls'
     = MasksComposer.dict_get (MasksComposer._masks self) cls')
  /\ ComposerRuns.keys (MasksComposer._masks (fst (MasksComposer.add_mask self mask cls offset)))
     = (if MasksComposer.dict_mem (MasksComposer._masks self) cls
        then ComposerRuns.keys (MasksComposer._masks self)
        else ComposerRuns.keys (MasksComposer._masks self) ++ [cls])
  /\ MasksComposer._mask_shape (fst (MasksComposer.add_mask self mask cls offset))
     = MasksComposer._mask_shape self
  /\ MasksComposer._borders_as_class (fst (MasksComposer.add_mask self mask cls offset))
     = MasksComposer._borders_as_class self
  /\ MasksComposer._borders_between_classes (fst (MasksComposer.add_mask self mask cls offset))
     = MasksComposer._borders_between_classes self
  /\ MasksComposer._dilate_masks_kernel (fst (MasksComposer.add_mask self mask cls offset))
     = MasksComposer._dilate_masks_kernel self.
Proof.
  destruct (ComposerMoreFacts.add_mask_state self mask cls offset)
    as [[_ ->]|[_ [e' ->]]].
  - split; [intros cls' Hne; now apply ComposerMoreFacts.dict_get_ensure_other|].
    split; [apply ComposerMoreFacts.keys_ensure|].
    unfold MasksComposer.ensure_class.
    destruct (MasksComposer.dict_mem (MasksComposer._masks self) cls); repeat split.
  - cbn [MasksComposer.with_masks MasksComposer._masks MasksComposer._mask_shape
         MasksComposer._borders_as_class MasksComposer._borders_between_classes
         MasksComposer._dilate_masks_kernel].
    split.
    { intros cls' Hne. rewrite ComposerMoreFacts.dict_get_set_other by assumption.
      now apply ComposerMoreFacts.dict_get_ensure_other. }
    split.
    { rewrite ComposerMoreFacts.keys_dict_set, ComposerMoreFacts.dict_mem_ensure.
      apply ComposerMoreFacts.keys_ensure. }
    unfold MasksComposer.ensure_class.
    destruct (MasksComposer.dict_mem (MasksComposer._masks self) cls); repeat split.
Qed.

(** X2: the shape invariant of the composer.  When every stored array has
    the frame's shape, so has every stored array after [add_mask], whatever
    the mask, class and offset, and whether the call returns or raises. *)
Theorem add_mask_keeps_frame_shape
    (self : MasksComposer.t) (mask : option NumPy.image) (cls : Z)
    (offset : option (Z * Z)) (H W : nat) :
  MasksComposer._mask_shape self = (H, W) ->
  ComposerRuns.all_shaped H W (MasksComposer._masks self) ->
  ComposerRuns.all_shaped H W
    (MasksComposer._masks (fst (MasksComposer.add_mask self mask cls offset))).
Proof.
  intros Hs Hd.
  pose proof (@ComposerShapeFacts.all_shaped_ensure self cls H W Hs Hd) as He.
  pose proof (@ComposerShapeFacts.get_class_shaped self cls H W Hs Hd) as Hg.
  unfold MasksComposer.add_mask. rewrite ComposerFacts.get_class_ensure.
  destruct (MasksComposer.tracks_borders (MasksComposer.ensure_class self cls) cls)
    as [[|]|ex]; cbn [bind fst snd]; try exact He.
  - destruct (MasksComposer.add_mask_bordered _ _ mask offset) as [e'|ex] eqn:E;
      cbn [fst]; [|exact He].
    cbn [MasksComposer.with_masks MasksComposer._masks].
    apply ComposerShapeFacts.all_shaped_set; [exact He|].
    destruct (@ComposerFacts.entry_mask_shaped H W _ Hg) as [Hr Hc].
    eapply ComposerShapeFacts.bordered_result_shape; eassumption.
  - destruct (MasksComposer.add_mask_plain _ mask offset) as [e'|ex] eqn:E;
      cbn [fst]; [|exact He].
    cbn [MasksComposer.with_masks MasksComposer._masks].
    apply ComposerShapeFacts.all_shaped_set; [exact He|].
    eapply ComposerShapeFacts.plain_result_shape; eassumption.
Qed.

(** The invariant on the composer of the border example, through a call
    that raises. *)
Lemma add_mask_keeps_frame_shape_witness :
  ComposerRuns.all_shaped 1 3
    (MasksComposer._masks
       (fst (MasksComposer.add_mask BorderExamples.after_two
               (Some (NumPy.Image 2 2 [1; 1; 1; 1]%Z)) 0 (Some (0, 2)%Z)))).
Proof.
  apply add_mask_keeps_frame_shape.
  - reflexivity.
  - repeat constructor.
Defined.

(** X3: a class without border tracking counts, and the count wraps.  After
    [n] calls [add_mask(m, cls)] without an offset on a class that had no
    mask, with [m] of the frame's shape, none of the calls raises and every
    pixel holds [n * m[i, j]] modulo 256: nothing is clipped to 1, and a
    pixel covered 256 times reads 0 again. *)
Theorem plain_class_counts_modulo_256
    (self : MasksComposer.t) (m : NumPy.image) (cls : Z) (n : nat) :
  MasksComposer._borders_as_class self = false ->
  MasksComposer.dict_get (MasksComposer._masks self) cls = None ->
  MasksComposer._mask_shape self = (NumPy.rows m, NumPy.cols m) ->
  (forall k, k < n ->
     snd (MasksComposer.add_mask (ComposerRuns.add_many self m cls k) (Some m) cls None)
     = None)
  /\ (forall i j, i < NumPy.rows m -> j < NumPy.cols m ->
      NumPy.px (ComposerSpec.stored_mask (ComposerRuns.add_many self m cls n) cls) i j
      = NumPy.wrap8 (Z.of_nat n * NumPy.px m i j)).
Proof.
  intros Hoff Habsent Hshape.
  assert (Inv : forall k,
    MasksComposer._borders_as_class (ComposerRuns.add_many self m cls k) = false
    /\ exists a,
         MasksComposer.get_class (ComposerRuns.add_many self m cls k) cls
         = MasksComposer.Plain a
         /\ NumPy.rows a = NumPy.rows m /\ NumPy.cols a = NumPy.cols m
         /\ forall i j, i < NumPy.rows m -> j < NumPy.cols m ->
            NumPy.px a i j = NumPy.wrap8 (Z.of_nat k * NumPy.px m i j)).
  { induction k as [|k [IHf [a [IHg [IHr [IHc IHp]]]]]].
    - split; [exact Hoff|].
      exists (NumPy.zeros (NumPy.rows m) (NumPy.cols m)).
      split; [|split; [reflexivity|split; [reflexivity|]]].
      + cbn [ComposerRuns.add_many]. unfold MasksComposer.get_class.
        now rewrite Habsent, Hshape.
      + intros i j Hi Hj. now rewrite ComposerFacts.px_zeros by assumption.
    - cbn [ComposerRuns.add_many].
      destruct (@PlainRunFacts.plain_full_frame_step
                  (ComposerRuns.add_many self m cls k) m a cls IHf IHg IHr IHc)
        as [_ Hg].
      split; [now rewrite PlainRunFacts.flag_add_mask|].
      eexists. split; [exact Hg|]. split; [exact IHr|]. split; [exact IHc|].
      intros i j Hi Hj. rewrite NumPyFacts.px_mk by lia.
      rewrite ComposerFacts.bpx_px, IHp by assumption.
      unfold NumPy.wrap8. rewrite Z.add_mod_idemp_l by lia.
      f_equal. lia. }
  split.
  - intros k _. destruct (Inv k) as [Hf [a [Hg [Hr [Hc _]]]]].
    exact (proj1 (@PlainRunFacts.plain_full_frame_step
                    (ComposerRuns.add_many self m cls k) m a cls Hf Hg Hr Hc)).
  - intros i j Hi Hj. destruct (Inv n) as [_ [a [Hg [_ [_ Hp]]]]].
    unfold ComposerSpec.stored_mask. rewrite Hg. now apply Hp.
Qed.

(** The count on a 1x1 frame: three calls give 3, 256 calls give 0. *)
Lemma plain_class_counts_modulo_256_witness :
  NumPy.px (ComposerSpec.stored_mask
              (ComposerRuns.add_many (MasksComposer.init (1, 1)) OffsetExamples.pixel 0 3) 0)
           0 0 = NumPy.wrap8 (Z.of_nat 3 * NumPy.px OffsetExamples.pixel 0 0)
  /\ NumPy.px (ComposerSpec.stored_mask
                 (ComposerRuns.add_many (MasksComposer.init (1, 1)) OffsetExamples.pixel 0 256) 0)
              0 0 = NumPy.wrap8 (Z.of_nat 256 * NumPy.px OffsetExamples.pixel 0 0).
Proof.
  split.
  - apply (@plain_class_counts_modulo_256 (MasksComposer.init (1, 1))
             OffsetExamples.pixel 0%Z 3 eq_refl eq_refl eq_refl); simpl; lia.
  - apply (@plain_class_counts_modulo_256 (MasksComposer.init (1, 1))
             OffsetExamples.pixel 0%Z 256 eq_refl eq_refl eq_refl); simpl; lia.
Defined.

(** X4: [add_mask(None, cls, offset)] raises for every composer, class and
    offset, and all it changes is that the class gets its zero canvas if it
    had none: the [None] mask an object without bitmap and points decodes
    to can never be added. *)
Theorem add_mask_of_None_always_raises
    (self : MasksComposer.t) (cls : Z) (offset : option (Z * Z)) :
  (exists ex, snd (MasksComposer.add_mask self None cls offset) = Some ex)
  /\ fst (MasksComposer.add_mask self None cls offset)
     = MasksComposer.ensure_class self cls.
Proof.
  unfold MasksComposer.add_mask.
  destruct (MasksComposer.tracks_borders (MasksComposer.ensure_class self cls) cls)
    as [[|]|ex]; cbn [bind].
  - unfold MasksComposer.add_mask_bordered.
    destruct offset as [[r c]|]; cbn [bind fst snd];
      rewrite ?ComposerFacts.calc_border_of_None; cbn [bind fst snd];
      split; try reflexivity; eexists; reflexivity.
  - unfold MasksComposer.add_mask_plain.
    destruct offset as [[r c]|]; cbn [fst snd].
    + split; [eexists|]; reflexivity.
    + destruct (MasksComposer.get_class _ cls); cbn [fst snd];
        (split; [eexists|]; reflexivity).
  - cbn [fst snd]. split; [eexists|]; reflexivity.
Qed.

(** X5: [add_borders_as_class()] called with its default
    [between_classes=None] makes every later [add_mask] raise [TypeError]
    ([cls in None]), whatever the mask, class and offset; no mask is
    stored. *)
Theorem borders_without_classes_block_add_mask
    (self : MasksComposer.t) (kernel : option NumPy.image)
    (mask : option NumPy.image) (cls : Z) (offset : option (Z * Z)) :
  MasksComposer.add_mask (MasksComposer.add_borders_as_class self None kernel)
    mask cls offset
  = (MasksComposer.ensure_class (MasksComposer.add_borders_as_class self None kernel) cls,
     Some TypeError).
Proof.
  unfold MasksComposer.add_mask.
  rewrite ComposerFacts.tracks_borders_ensure. reflexivity.
Qed.

(** X6: the border between two masks does not depend on their order: for
    two masks of one shape, [_calc_border_between_masks(m1, m2)] and
    [_calc_border_between_masks(m2, m1)] are the same array. *)
Theorem border_between_masks_is_symmetric
    (self : MasksComposer.t) (m1 m2 : NumPy.image) :
  NumPy.rows m1 = NumPy.rows m2 -> NumPy.cols m1 = NumPy.cols m2 ->
  MasksComposer._calc_border_between_masks self m1 (Some m2)
  = MasksComposer._calc_border_between_masks self m2 (Some m1).
Proof.
  intros Hr Hc. unfold MasksComposer._calc_border_between_masks, OpenCV.dilate.
  rewrite <- Hr, <- Hc.
  destruct ((NumPy.rows m1 =? 0) || (NumPy.cols m1 =? 0)); [reflexivity|].
  cbn [bind].
  rewrite !ComposerFacts.add_same_shape
    by (cbn [OpenCV.dilate_image NumPy.mk NumPy.rows NumPy.cols]; congruence).
  cbn [bind].
  rewrite !ComposerFacts.set_where_same_shape by reflexivity.
  f_equal. cbn [NumPy.zeros_like NumPy.zeros NumPy.mk NumPy.rows NumPy.cols].
  rewrite <- Hr, <- Hc. apply NumPyFacts.mk_ext. intros i j Hi Hj.
  rewrite !NumPyFacts.px_mk
    by (cbn [OpenCV.dilate_image NumPy.mk NumPy.rows NumPy.cols]; lia).
  rewrite !ComposerFacts.bpx_px
    by (cbn [OpenCV.dilate_image NumPy.mk NumPy.rows NumPy.cols]; lia).
  rewrite Z.add_comm.
  unfold NumPy.zeros_like.
  rewrite !ComposerFacts.px_zeros by lia. reflexivity.
Qed.

(** The symmetry on the two rows of the border example. *)
Lemma border_between_masks_is_symmetric_witness :
  MasksComposer._calc_border_between_masks BorderExamples.fresh
    (BorderExamples.row 1 0 0) (Some (BorderExamples.row 0 1 0))
  = MasksComposer._calc_border_between_masks BorderExamples.fresh
      (BorderExamples.row 0 1 0) (Some (BorderExamples.row 1 0 0)).
Proof.
  apply border_between_masks_is_symmetric; reflexivity.
Defined.

(* ================================================================== *)
(** * Stacking the classes *)

(** X7: [compose()] cannot stack more than two classes.  With three or more
    classes, or with two or more when the first one has border tracking, it
    raises [ValueError] whatever the masks hold: after the first stack the
    result has three axes and no class mask has its shape any more. *)
Theorem compose_raises_beyond_two_classes (self : MasksComposer.t) :
  (3 <= length (MasksComposer._masks self)
   \/ exists k m b rest,
        MasksComposer._masks self = (k, MasksComposer.Bordered m b) :: rest /\ rest <> []) ->
  MasksComposer.compose self = Raise ValueError.
Proof.
  unfold MasksComposer.compose. intros [Hlen|[k [m [b [rest [-> Hne]]]]]].
  - destruct (MasksComposer._masks self) as [|[k1 e1] [|[k2 e2] [|[k3 e3] rest]]];
      try (simpl in Hlen; lia).
    cbn [MasksComposer.compose_loop].
    destruct (MasksComposer.compose_step None e1) as [x1|ex] eqn:E1; cbn [bind];
      [|apply ComposeFacts.compose_step_raises in E1; now subst].
    apply ComposeFacts.compose_step_first in E1. destruct E1 as [r1 [-> _]].
    destruct (MasksComposer.compose_step (Some r1) e2) as [x2|ex] eqn:E2; cbn [bind];
      [|apply ComposeFacts.compose_step_raises in E2; now subst].
    apply ComposeFacts.compose_step_next in E2. destruct E2 as [_ [r2 [-> Hnd]]].
    apply (@ComposeFacts.compose_loop_after_3d ((k3, e3) :: rest) r2 Hnd). discriminate.
  - cbn [MasksComposer.compose_loop].
    destruct (MasksComposer.compose_step None (MasksComposer.Bordered m b))
      as [x1|ex] eqn:E1; cbn [bind];
      [|apply ComposeFacts.compose_step_raises in E1; now subst].
    apply ComposeFacts.compose_step_first in E1. destruct E1 as [r1 [-> Hnd]].
    now apply ComposeFacts.compose_loop_after_3d.
Qed.

(** Three classes without border tracking. *)
Lemma compose_raises_beyond_two_classes_witness :
  MasksComposer.compose ComposeExamples.three_plain = Raise ValueError.
Proof.
  apply compose_raises_beyond_two_classes. left. vm_compute. lia.
Defined.

(** X8: the layouts [compose()] does produce, for masks of the frame's shape
    (H, W).  A single class with border tracking gives an array of shape
    (H, W, 2) with the mask in channel 0 and the borders in channel 1; a
    class without border tracking followed by one with it gives (H, W, 3)
    with the first class in channel 0; two classes without border tracking
    give (2, H, W), the class index first. *)
Theorem compose_layouts
    (self : MasksComposer.t) (k1 k2 : Z) (a m b : NumPy.image) (H W : nat) :
  (NumPy.rows a = H /\ NumPy.cols a = W) ->
  (NumPy.rows m = H /\ NumPy.cols m = W) ->
  (NumPy.rows b = H /\ NumPy.cols b = W) ->
  (exists r,
     MasksComposer.compose
       (MasksComposer.with_masks self [(k1, MasksComposer.Bordered m b)]) = Ok (Some r)
     /\ NumPy.shape r = [H; W; 2]
     /\ forall i j, i < H -> j < W ->
        NumPy.item 0%Z r [i; j; 0] = NumPy.px m i j
        /\ NumPy.item 0%Z r [i; j; 1] = NumPy.px b i j)
  /\ (exists r,
     MasksComposer.compose
       (MasksComposer.with_masks self
          [(k1, MasksComposer.Plain a); (k2, MasksComposer.Bordered m b)]) = Ok (Some r)
     /\ NumPy.shape r = [H; W; 3]
     /\ forall i j, i < H -> j < W ->
        NumPy.item 0%Z r [i; j; 0] = NumPy.px a i j
        /\ NumPy.item 0%Z r [i; j; 1] = NumPy.px m i j
        /\ NumPy.item 0%Z r [i; j; 2] = NumPy.px b i j)
  /\ (exists r,
     MasksComposer.compose
       (MasksComposer.with_masks self
          [(k1, MasksComposer.Plain a); (k2, MasksComposer.Plain m)]) = Ok (Some r)
     /\ NumPy.shape r = [2; H; W]
     /\ forall i j, i < H -> j < W ->
        NumPy.item 0%Z r [0; i; j] = NumPy.px a i j
        /\ NumPy.item 0%Z r [1; i; j] = NumPy.px m i j).
Proof.
  intros [Ar Ac] [Mr Mc] [Br Bc].
  unfold MasksComposer.compose.
  cbn [MasksComposer.with_masks MasksComposer._masks MasksComposer.compose_loop].
  unfold MasksComposer.compose_step. cbn [bind].
  unfold NumPy.stack, NumPy.as_ndarray, NumPy.ndim.
  cbn [NumPy.shape forallb length].
  rewrite Ar, Ac, Mr, Mc, Br, Bc.
  assert (Hsame : NumPy.shape_eqb [H; W] [H; W] = true) by now apply ComposeFacts.shape_eqb_eq.
  rewrite !Hsame. cbn [andb Nat.leb bind firstn skipn app].
  split; [|split]; eexists; (split; [reflexivity|]); (split; [reflexivity|]);
    intros i j Hi Hj; repeat split;
    rewrite NumPyFacts.item_build by (repeat constructor; lia);
    cbn [nth firstn skipn app];
    match goal with
    | |- NumPy.item 0%Z (NumPy.NdArray [H; W] (NumPy.pixels ?x)) [i; j] = _ =>
        rewrite <- (ComposeFacts.item_as_ndarray x i j);
        unfold NumPy.as_ndarray; congruence
    end.
Qed.

(** The layouts for the stored arrays of the border example. *)
Lemma compose_layouts_witness :
  exists r,
    MasksComposer.compose
      (MasksComposer.with_masks BorderExamples.fresh
         [(0%Z, MasksComposer.Bordered (BorderExamples.row 1 1 0) (BorderExamples.row 0 1 0))])
    = Ok (Some r)
    /\ NumPy.shape r = [1; 3; 2]
    /\ forall i j, i < 1 -> j < 3 ->
       NumPy.item 0%Z r [i; j; 0] = NumPy.px (BorderExamples.row 1 1 0) i j
       /\ NumPy.item 0%Z r [i; j; 1] = NumPy.px (BorderExamples.row 0 1 0) i j.
Proof.
  apply (@compose_layouts BorderExamples.fresh 0%Z 1%Z
           (BorderExamples.row 0 0 0) (BorderExamples.row 1 1 0) (BorderExamples.row 0 1 0)
           1 3); split; reflexivity.
Defined.

(* ================================================================== *)
(** * Decoding and reading annotations *)

(** X9: an object with a bitmap is decoded from the bitmap alone, whatever
    points it also carries.  A payload that fails to decode ends the call
    with that exception; a payload that decodes to an alpha channel gives a
    mask of the alpha channel's shape that is 1 exactly where alpha is
    positive and 0 elsewhere, and the stored origin [[x, y]] comes back as
    [(y, x)], each reduced modulo 2^16 by the [uint16] conversion. *)
Theorem bitmap_object_decodes_to_thresholded_alpha
    (decode_alpha : string -> result NumPy.image)
    (drawContours : NumPy.image -> list (Z * Z) -> Z -> NumPy.image)
    (obj : SuperviselyDataset.object_t) (b : SuperviselyDataset.bitmap_t) :
  SuperviselyDataset.bitmap obj = Some b ->
  (forall ex, decode_alpha (SuperviselyDataset.bitmap_data b) = Raise ex ->
     SuperviselyDataset.object_to_mask decode_alpha drawContours obj = Raise ex)
  /\ (forall alpha, decode_alpha (SuperviselyDataset.bitmap_data b) = Ok alpha ->
      exists mask,
        SuperviselyDataset.object_to_mask decode_alpha drawContours obj
        = Ok (Some mask,
              Some ((snd (SuperviselyDataset.bitmap_origin b) mod 65536)%Z,
                    (fst (SuperviselyDataset.bitmap_origin b) mod 65536)%Z))
        /\ NumPy.rows mask = NumPy.rows alpha /\ NumPy.cols mask = NumPy.cols alpha
        /\ forall i j, i < NumPy.rows alpha -> j < NumPy.cols alpha ->
           (0 <= NumPy.px alpha i j)%Z ->
           (NumPy.px mask i j = 0%Z \/ NumPy.px mask i j = 1%Z)
           /\ (NumPy.px mask i j = 1%Z <-> (0 < NumPy.px alpha i j)%Z)).
Proof.
  intros Hb. unfold SuperviselyDataset.object_to_mask. rewrite Hb. split.
  - intros ex ->. reflexivity.
  - intros alpha ->. cbn [bind]. eexists. split; [reflexivity|].
    split; [reflexivity|]. split; [reflexivity|].
    intros i j Hi Hj H0. now apply DecoderFacts.binarize_spec.
Qed.

(** An object with a bitmap at origin [[x, y]] = [[7, 3]] and with points. *)
Lemma bitmap_object_decodes_to_thresholded_alpha_witness :
  exists mask,
    SuperviselyDataset.object_to_mask
      (fun _ => Ok (NumPy.Image 1 2 [0; 255]%Z)) Polygon.flood
      (SuperviselyDataset.Object "person"
         (Some (SuperviselyDataset.Bitmap "payload" (7, 3)%Z)) Polygon.square [])
    = Ok (Some mask, Some ((3 mod 65536)%Z, (7 mod 65536)%Z))
    /\ NumPy.rows mask = 1 /\ NumPy.cols mask = 2
    /\ forall i j, i < 1 -> j < 2 ->
       (0 <= NumPy.px (NumPy.Image 1 2 [0; 255]%Z) i j)%Z ->
       (NumPy.px mask i j = 0%Z \/ NumPy.px mask i j = 1%Z)
       /\ (NumPy.px mask i j = 1%Z <-> (0 < NumPy.px (NumPy.Image 1 2 [0; 255]%Z) i j)%Z).
Proof.
  exact (proj2 (@bitmap_object_decodes_to_thresholded_alpha
           (fun _ => Ok (NumPy.Image 1 2 [0; 255]%Z)) Polygon.flood
           (SuperviselyDataset.Object "person"
              (Some (SuperviselyDataset.Bitmap "payload" (7, 3)%Z)) Polygon.square [])
           (SuperviselyDataset.Bitmap "payload" (7, 3)%Z) eq_refl)
           (NumPy.Image 1 2 [0; 255]%Z) eq_refl).
Defined.

(** X10: an object without bitmap that has interior points but no exterior
    point makes the decoder raise [ValueError]: the branch for polygons is
    entered on the total number of points, and [pts.min(axis=0)] is then
    taken of the empty array of exterior points. *)
Theorem interior_points_alone_raise
    (decode_alpha : string -> result NumPy.image)
    (drawContours : NumPy.image -> list (Z * Z) -> Z -> NumPy.image)
    (title : string) (q : Z * Z) (interior : list (Z * Z)) :
  SuperviselyDataset.object_to_mask decode_alpha drawContours
    (SuperviselyDataset.Object title None [] (q :: interior))
  = Raise ValueError.
Proof.
  unfold SuperviselyDataset.object_to_mask.
  cbn [SuperviselyDataset.bitmap SuperviselyDataset.points_interior
       SuperviselyDataset.points_exterior length].
  now rewrite Nat.add_0_r.
Qed.

(** X11: a read that succeeds returns [None] exactly for an annotation
    without objects: [_process_target] yields [None] (no array at all, not
    an all-zero frame) when [target['objects']] is empty, and an array as
    soon as there is an object. *)
Theorem process_target_is_None_only_without_objects
    (decode_alpha : string -> result NumPy.image)
    (drawContours : NumPy.image -> list (Z * Z) -> Z -> NumPy.image)
    (self : SuperviselyDataset.t) (target : SuperviselyDataset.target_t) :
  SuperviselyDataset._process_target decode_alpha drawContours self target = Ok None
  <-> SuperviselyDataset.objects target = [].
Proof.
  unfold SuperviselyDataset._process_target.
  set (composer := if SuperviselyDataset._use_border_as_class self then _ else _).
  assert (Hempty : MasksComposer._masks composer = []).
  { subst composer. destruct (SuperviselyDataset._use_border_as_class self);
      [destruct (SuperviselyDataset._border_thikness self)|]; reflexivity. }
  split.
  - intros E.
    destruct (SuperviselyDataset.add_objects decode_alpha drawContours composer
                (SuperviselyDataset.objects target)) as [c'|ex] eqn:Eo;
      cbn [bind] in E; [|discriminate].
    destruct (SuperviselyDataset.objects target) as [|obj objs] eqn:Eobjs; [reflexivity|].
    exfalso.
    assert (Hmem : MasksComposer.dict_mem (MasksComposer._masks c') 0 = true).
    { eapply DecoderFacts.add_objects_keeps_class_0; [exact Eo|]. right. discriminate. }
    unfold MasksComposer.compose in E.
    apply DecoderFacts.compose_nonempty in E; [congruence|].
    intros Hnil. rewrite Hnil in Hmem. discriminate.
  - intros ->. cbn [SuperviselyDataset.add_objects bind].
    unfold MasksComposer.compose. now rewrite Hempty.
Qed.

(** X12: the read of an annotation with one object, end to end.  When the
    object decodes to a binary mask and an origin at which the mask lies
    within the frame, [_process_target] returns, without border tracking,
    the (H, W) frame holding the mask at its origin and 0 elsewhere; with
    border tracking and a frame that is not empty, an (H, W, 2) array whose
    channel 0 is that frame and whose channel 1, the borders, is all zero.
    With border tracking on an empty frame the read raises OpenCV's error,
    which the dilation of the empty canvas gives. *)
Theorem single_object_read
    (decode_alpha : string -> result NumPy.image)
    (drawContours : NumPy.image -> list (Z * Z) -> Z -> NumPy.image)
    (thickness : option nat) (H W : nat) (obj : SuperviselyDataset.object_t)
    (mask : NumPy.image) (r c : Z) :
  SuperviselyDataset.object_to_mask decode_alpha drawContours obj
  = Ok (Some mask, Some (r, c)) ->
  ComposerSpec.fits H W mask (r, c) ->
  ComposerSpec.binary mask ->
  (exists nd,
     SuperviselyDataset._process_target decode_alpha drawContours
       (SuperviselyDataset.Dataset false thickness) (SuperviselyDataset.Target H W [obj])
     = Ok (Some nd)
     /\ NumPy.shape nd = [H; W]
     /\ forall i j, i < H -> j < W ->
        NumPy.item 0%Z nd [i; j]
        = NumPy.px (ComposerSpec.placement H W mask (Some (r, c))) i j)
  /\ (0 < H -> 0 < W ->
      exists nd,
     SuperviselyDataset._process_target decode_alpha drawContours
       (SuperviselyDataset.Dataset true thickness) (SuperviselyDataset.Target H W [obj])
     = Ok (Some nd)
     /\ NumPy.shape nd = [H; W; 2]
     /\ forall i j, i < H -> j < W ->
        NumPy.item 0%Z nd [i; j; 0]
        = NumPy.px (ComposerSpec.placement H W mask (Some (r, c))) i j
        /\ NumPy.item 0%Z nd [i; j; 1] = 0%Z)
  /\ (H = 0 \/ W = 0 ->
      SuperviselyDataset._process_target decode_alpha drawContours
        (SuperviselyDataset.Dataset true thickness) (SuperviselyDataset.Target H W [obj])
      = Raise CvError).
Proof.
  intros Hdec Hfits Hbin.
  unfold SuperviselyDataset._process_target.
  cbn [SuperviselyDataset._use_border_as_class SuperviselyDataset._border_thikness
       SuperviselyDataset.size_height SuperviselyDataset.size_width
       SuperviselyDataset.objects SuperviselyDataset.add_objects].
  rewrite Hdec. cbn [bind fst snd].
  set (composer :=
         match thickness with
         | Some k => MasksComposer.add_borders_as_class (MasksComposer.init (H, W))
                       (Some [0%Z]) (Some (NumPy.ones k k))
         | None => MasksComposer.add_borders_as_class (MasksComposer.init (H, W))
                     (Some [0%Z]) (Some MasksComposer.default_kernel)
         end).
  assert (Ht : MasksComposer.tracks_borders composer 0 = Ok true)
    by (subst composer; destruct thickness; reflexivity).
  assert (Hg : MasksComposer.get_class composer 0 = MasksComposer.Plain (NumPy.zeros H W))
    by (subst composer; destruct thickness; reflexivity).
  assert (Hm : MasksComposer._masks (MasksComposer.ensure_class composer 0)
               = [(0%Z, MasksComposer.Plain (NumPy.zeros H W))])
    by (subst composer; destruct thickness; reflexivity).
  split; [|split].
  - rewrite (@ComposerFacts.add_mask_step (MasksComposer.init (H, W)) (Some mask) 0%Z
               (Some (r, c)) false eq_refl).
    change (MasksComposer.get_class (MasksComposer.init (H, W)) 0)
      with (MasksComposer.Plain (NumPy.zeros H W)).
    cbn [MasksComposer.add_mask_plain].
    rewrite (@ComposerFacts.iadd_slice_fits (NumPy.zeros H W) mask r c Hfits).
    cbn [bind]. unfold MasksComposer.compose.
    eexists. split; [reflexivity|]. split; [reflexivity|].
    intros i j Hi Hj. rewrite ComposeFacts.item_as_ndarray.
    cbn [ComposerSpec.placement].
    rewrite !NumPyFacts.px_mk by (cbn; assumption).
    rewrite !ComposerFacts.px_zeros by assumption.
    destruct (NumPy.in_window (Z.to_nat r) (NumPy.rows mask) i
              && NumPy.in_window (Z.to_nat c) (NumPy.cols mask) j) eqn:Ew; [|reflexivity].
    apply andb_true_iff in Ew. destruct Ew as [Ei Ej].
    apply ComposerFacts.in_window_iff in Ei. apply ComposerFacts.in_window_iff in Ej.
    destruct (Hbin (i - Z.to_nat r) (j - Z.to_nat c)) as [E|E]; try lia;
      rewrite E; reflexivity.
  - intros HH HW.
    rewrite (@ComposerFacts.add_mask_step composer (Some mask) 0%Z (Some (r, c)) true Ht).
    rewrite Hg.
    destruct (@ReadFacts.first_bordered_call (MasksComposer.ensure_class composer 0)
                mask (Some (r, c)) H W HH HW Hbin Hfits)
      as [M [B [-> [[Mr Mc] [[Br Bc] [PM PB]]]]]].
    unfold MasksComposer.compose.
    cbn [MasksComposer.with_masks MasksComposer._masks bind]. rewrite Hm.
    change (MasksComposer.dict_set [(0%Z, MasksComposer.Plain (NumPy.zeros H W))] 0
              (MasksComposer.Bordered M B))
      with [(0%Z, MasksComposer.Bordered M B)].
    destruct (@ReadFacts.compose_loop_single_bordered 0%Z M B H W Mr Mc Br Bc)
      as [nd [-> [Hshape Hitem]]].
    exists nd. split; [reflexivity|]. split; [exact Hshape|].
    intros i j Hi Hj. destruct (Hitem i j Hi Hj) as [E0 E1].
    rewrite E0, E1, PM, PB by assumption. now split.
  - intros Hemp.
    rewrite (@ComposerFacts.add_mask_step composer (Some mask) 0%Z (Some (r, c)) true Ht).
    rewrite Hg.
    rewrite (@ComposerFacts.bordered_step_empty_fits (MasksComposer.ensure_class composer 0)
               (MasksComposer.Plain (NumPy.zeros H W)) mask r c H W
               (conj eq_refl eq_refl) Hfits Hemp).
    reflexivity.
Qed.

(** The read of one bitmap object on a 2x3 frame. *)
Lemma single_object_read_witness :
  exists nd,
    SuperviselyDataset._process_target
      (fun _ => Ok (NumPy.Image 1 2 [0; 255]%Z)) Polygon.flood
      (SuperviselyDataset.Dataset false None)
      (SuperviselyDataset.Target 2 3
         [SuperviselyDataset.Object "person"
            (Some (SuperviselyDataset.Bitmap "payload" (1, 1)%Z)) [] []])
    = Ok (Some nd)
    /\ NumPy.shape nd = [2; 3]
    /\ forall i j, i < 2 -> j < 3 ->
       NumPy.item 0%Z nd [i; j]
       = NumPy.px (ComposerSpec.placement 2 3
                     (NumPy.binarize (NumPy.Image 1 2 [0; 255]%Z)) (Some (1, 1)%Z)) i j.
Proof.
  refine (proj1 (@single_object_read
           (fun _ => Ok (NumPy.Image 1 2 [0; 255]%Z)) Polygon.flood None 2 3
           (SuperviselyDataset.Object "person"
              (Some (SuperviselyDataset.Bitmap "payload" (1, 1)%Z)) [] [])
           (NumPy.binarize (NumPy.Image 1 2 [0; 255]%Z)) 1%Z 1%Z eq_refl _ _)).
  - unfold ComposerSpec.fits; simpl; lia.
  - intros i j Hi Hj.
    destruct i as [|i]; [|simpl in Hi; lia].
    destruct j as [|[|j]]; [left|right|simpl in Hj; lia]; reflexivity.
Defined.

(* ================================================================== *)
(** * Channel indices and target ranks *)

(** X13: the constructor checks [exists_class_idx] from above only, so a
    negative index is accepted, and a read of a two-dimensional target then
    follows NumPy's indexing.  An index in [-total_classes, -1] counts from
    the last channel: the target lands in channel
    [total_classes + exists_class_idx].  An index below [-total_classes]
    makes every read raise [IndexError], and a negative [total_classes]
    makes every read raise [ValueError]. *)
Theorem negative_channel_index_counts_from_the_end
    (D : Type) (ds : EmptyClassesAdd.dataset D) (total idx : Z)
    (w : EmptyClassesAdd.t D) (item : Z) (d : D) (target : NumPy.array) (h wd : nat) :
  EmptyClassesAdd.init ds total idx = Ok w ->
  (idx < 0)%Z ->
  ds item = Ok (EmptyClassesAdd.Sample d target) ->
  NumPy.array_shape target = [h; wd] ->
  ((total < 0)%Z -> EmptyClassesAdd.getitem w item = Raise ValueError)
  /\ ((0 <= total)%Z -> (idx < - total)%Z ->
      EmptyClassesAdd.getitem w item = Raise IndexError)
  /\ ((0 <= total)%Z -> (- total <= idx)%Z ->
      exists out,
        EmptyClassesAdd.getitem w item = Ok (EmptyClassesAdd.Sample d (NumPy.U8 out))
        /\ NumPy.shape out = [h; wd; Z.to_nat total]
        /\ forall i j ch, i < h -> j < wd -> ch < Z.to_nat total ->
           NumPy.item 0%Z out [i; j; ch]
           = if ch =? Z.to_nat (total + idx)
             then NumPy.item_as_u8 target [i; j] else 0%Z).
Proof.
  intros Hinit Hneg Hds Hshape.
  apply NormalizerFacts.init_inv in Hinit. destruct Hinit as [-> Hlt].
  unfold EmptyClassesAdd.getitem.
  cbn [EmptyClassesAdd._dataset EmptyClassesAdd._target_classes_num
       EmptyClassesAdd._exists_class_idx].
  rewrite Hds. cbn [bind EmptyClassesAdd.sample_target EmptyClassesAdd.sample_data].
  rewrite Hshape. cbn [length Nat.ltb Nat.leb Nat.eqb andb].
  replace (idx <? 0)%Z with true by (symmetry; apply Z.ltb_lt; lia).
  split; [|split].
  - intros Ht. now replace (total <? 0)%Z with true by (symmetry; apply Z.ltb_lt; lia).
  - intros Ht Hlow.
    replace (total <? 0)%Z with false by (symmetry; apply Z.ltb_ge; lia).
    now replace (idx + total <? 0)%Z with true by (symmetry; apply Z.ltb_lt; lia).
  - intros Ht Hin.
    replace (total <? 0)%Z with false by (symmetry; apply Z.ltb_ge; lia).
    replace (idx + total <? 0)%Z with false by (symmetry; apply Z.ltb_ge; lia).
    replace (total <=? idx + total)%Z with false by (symmetry; apply Z.leb_gt; lia).
    cbn [orb EmptyClassesAdd.write_channel bind].
    eexists. split; [reflexivity|]. split; [reflexivity|].
    intros i j ch Hi Hj Hch.
    rewrite NumPyFacts.item_build by (repeat constructor; assumption).
    now replace (idx + total)%Z with (total + idx)%Z by lia.
Qed.

(** The index -1 under a class count of 3: the target lands in channel 2. *)
Lemma negative_channel_index_counts_from_the_end_witness :
  exists out,
    EmptyClassesAdd.getitem
      (EmptyClassesAdd.Wrapper (NormalizerExamples.constant NormalizerExamples.small) 3 (-1)) 0
    = Ok (EmptyClassesAdd.Sample tt (NumPy.U8 out))
    /\ NumPy.shape out = [2; 2; Z.to_nat 3]
    /\ forall i j ch, i < 2 -> j < 2 -> ch < Z.to_nat 3 ->
       NumPy.item 0%Z out [i; j; ch]
       = if ch =? Z.to_nat (3 + -1)
         then NumPy.item_as_u8 NormalizerExamples.small [i; j] else 0%Z.
Proof.
  refine (proj2 (proj2 (@negative_channel_index_counts_from_the_end unit
            (NormalizerExamples.constant NormalizerExamples.small) 3 (-1)
            (EmptyClassesAdd.Wrapper (NormalizerExamples.constant NormalizerExamples.small) 3 (-1))
            0%Z tt NormalizerExamples.small 2 2 eq_refl _ eq_refl eq_refl)) _ _); lia.
Defined.

(** X14: targets that are not two-dimensional.  A target with fewer than two
    dimensions makes the read raise [IndexError] ([target_shape[1]]).  A
    three-dimensional target whose channel count is within the class count
    passes the validation, but is then assigned to one (H, W) channel: the
    read raises [ValueError] unless the target has shape (1, 1, 1), in which
    case its single value is written. *)
Theorem targets_of_other_ranks
    (D : Type) (w : EmptyClassesAdd.t D) (item : Z) (s : EmptyClassesAdd.sample D) :
  EmptyClassesAdd._dataset w item = Ok s ->
  (0 <= EmptyClassesAdd._exists_class_idx w < EmptyClassesAdd._target_classes_num w)%Z ->
  (length (NumPy.array_shape (EmptyClassesAdd.sample_target s)) < 2 ->
   EmptyClassesAdd.getitem w item = Raise IndexError)
  /\ (forall h wd n,
      NumPy.array_shape (EmptyClassesAdd.sample_target s) = [h; wd; n] ->
      (Z.of_nat n <= EmptyClassesAdd._target_classes_num w)%Z ->
      ([h; wd; n] <> [1; 1; 1] -> EmptyClassesAdd.getitem w item = Raise ValueError)
      /\ ([h; wd; n] = [1; 1; 1] ->
          exists out,
            EmptyClassesAdd.getitem w item
            = Ok (EmptyClassesAdd.Sample (EmptyClassesAdd.sample_data s) (NumPy.U8 out))
            /\ NumPy.shape out
               = [1; 1; Z.to_nat (EmptyClassesAdd._target_classes_num w)]
            /\ NumPy.item 0%Z out
                 [0; 0; Z.to_nat (EmptyClassesAdd._exists_class_idx w)]
               = NumPy.item_as_u8 (EmptyClassesAdd.sample_target s) [0; 0; 0])).
Proof.
  intros Hds [Hc0 Hck].
  unfold EmptyClassesAdd.getitem. rewrite Hds. cbn [bind].
  set (k := EmptyClassesAdd._target_classes_num w) in *.
  set (c := EmptyClassesAdd._exists_class_idx w) in *.
  split.
  - intros Hlen.
    destruct (NumPy.array_shape (EmptyClassesAdd.sample_target s)) as [|h [|wd rest]];
      cbn in Hlen |- *; try reflexivity; lia.
  - intros h wd n Hshape Hn. rewrite Hshape.
    cbn [length Nat.ltb Nat.leb Nat.eqb andb nth].
    replace (k <? Z.of_nat n)%Z with false by (symmetry; apply Z.ltb_ge; lia).
    replace (k <? 0)%Z with false by (symmetry; apply Z.ltb_ge; lia).
    replace (c <? 0)%Z with false by (symmetry; apply Z.ltb_ge; lia).
    replace (c <? 0)%Z with false by (symmetry; apply Z.ltb_ge; lia).
    replace (k <=? c)%Z with false by (symmetry; apply Z.leb_gt; lia).
    cbn [orb EmptyClassesAdd.write_channel].
    split.
    + intros Hne.
      destruct (Nat.eqb_spec h 1) as [->|]; [|reflexivity].
      destruct (Nat.eqb_spec wd 1) as [->|]; [|reflexivity].
      destruct (Nat.eqb_spec n 1) as [->|]; [congruence|reflexivity].
    + intros E. inversion E; subst h wd n. cbn [Nat.eqb andb bind].
      eexists. split; [reflexivity|]. split; [reflexivity|].
      rewrite NumPyFacts.item_build by (repeat constructor; lia).
      now rewrite Nat.eqb_refl.
Qed.

(** The three-dimensional target of two channels under a class count of 3. *)
Lemma targets_of_other_ranks_witness :
  EmptyClassesAdd.getitem
    (EmptyClassesAdd.Wrapper (NormalizerExamples.constant NormalizerExamples.two_channels) 3 0) 0
  = Raise ValueError.
Proof.
  refine (proj1 (proj2 (@targets_of_other_ranks unit
            (EmptyClassesAdd.Wrapper
               (NormalizerExamples.constant NormalizerExamples.two_channels) 3 0)
            0%Z (EmptyClassesAdd.Sample tt NormalizerExamples.two_channels) eq_refl _)
            2 2 2 eq_refl _) _).
  - cbn; lia.
  - cbn; lia.
  - discriminate.
Defined.

(* ================================================================== *)
(** * [class AugmentedDataset]: registered transforms *)

(** X15: a wrapper on which no transform was registered is transparent: a
    read returns what the wrapped dataset returns, item or exception. *)
Theorem augmented_dataset_without_augs_is_transparent
    (V : Type) (dataset : Z -> result (AugmentedDataset.sample V)) (item : Z) :
  AugmentedDataset.getitem (AugmentedDataset.init dataset) item = dataset item.
Proof.
  unfold AugmentedDataset.getitem, AugmentedDataset.init.
  cbn [AugmentedDataset._dataset AugmentedDataset._augs AugmentedDataset._augs_for_whole].
  destruct (dataset item) as [[items|items]|ex]; cbn [bind AugmentedDataset.apply_fields];
    [rewrite AugmentedFacts.apply_dict_nil|rewrite AugmentedFacts.apply_seq_nil|];
    reflexivity.
Qed.

(** X16: whole-item transforms run in the order they were registered, after
    the per-field ones: registering one more with [add_aug(aug)] gives a
    wrapper whose read is the earlier wrapper's read followed by [aug], and
    an exception of either is the read's exception. *)
Theorem whole_item_aug_runs_last
    (V : Type) (self : AugmentedDataset.t V) (a : AugmentedDataset.aug V) (item : Z) :
  AugmentedDataset.getitem (AugmentedDataset.add_aug self a None) item
  = bind (AugmentedDataset.getitem self item) (AugmentedDataset.on_sample a).
Proof.
  unfold AugmentedDataset.getitem, AugmentedDataset.add_aug.
  cbn [AugmentedDataset._dataset AugmentedDataset._augs AugmentedDataset._augs_for_whole].
  rewrite !AugmentedFacts.bind_assoc.
  destruct (AugmentedDataset._dataset self item) as [res|ex]; cbn [bind]; [|reflexivity].
  destruct (AugmentedDataset.apply_fields (AugmentedDataset._augs self) res)
    as [res'|ex]; cbn [bind]; [|reflexivity].
  apply AugmentedFacts.apply_whole_app.
Qed.

(** X17: a per-field transform registered under a key the item does not have
    is never called: for a [dict] item without the key, and for a list item
    when the key is not one of its positions, the read is the same as
    without that registration. *)
Theorem aug_for_an_absent_field_is_ignored
    (V : Type) (self : AugmentedDataset.t V) (a : AugmentedDataset.aug V)
    (k : AugmentedDataset.key) (item : Z) :
  (forall items, AugmentedDataset._dataset self item = Ok (AugmentedDataset.Dict items) ->
     ~ In k (map fst items)) ->
  (forall items, AugmentedDataset._dataset self item = Ok (AugmentedDataset.Seq items) ->
     forall i, i < length items -> k <> AugmentedDataset.Index i) ->
  AugmentedDataset.getitem (AugmentedDataset.add_aug self a (Some k)) item
  = AugmentedDataset.getitem self item.
Proof.
  intros Hdict Hseq.
  unfold AugmentedDataset.getitem, AugmentedDataset.add_aug.
  cbn [AugmentedDataset._dataset AugmentedDataset._augs AugmentedDataset._augs_for_whole].
  destruct (AugmentedDataset._dataset self item) as [[items|items]|ex] eqn:E;
    cbn [bind AugmentedDataset.apply_fields]; [| |reflexivity].
  - now rewrite AugmentedFacts.apply_dict_set_absent by (now apply Hdict).
  - rewrite AugmentedFacts.apply_seq_set_absent; [reflexivity|].
    intros i Hi. apply (Hseq items eq_refl). lia.
Qed.


(** The transform registered under ['mask'], a key the items do not have. *)
Lemma aug_for_an_absent_field_is_ignored_witness :
  AugmentedDataset.getitem
    (AugmentedDataset.add_aug (AugmentedDataset.init AugmentedExamples.pairs)
       AugmentedExamples.plus_ten (Some (AugmentedDataset.Name "mask"))) 0
  = AugmentedDataset.getitem (AugmentedDataset.init AugmentedExamples.pairs) 0.
Proof.
  apply aug_for_an_absent_field_is_ignored.
  - intros items E. inversion E. cbn. intros [H|[H|[]]]; discriminate.
  - intros items E. discriminate.
Defined.

(** X18: registering a per-field transform under a key that already has one
    replaces it: the wrapper is the same as if only the later transform had
    been registered, so the earlier one is never applied again. *)
Theorem later_field_aug_replaces_the_earlier
    (V : Type) (self : AugmentedDataset.t V) (a b : AugmentedDataset.aug V)
    (k : AugmentedDataset.key) :
  AugmentedDataset.add_aug (AugmentedDataset.add_aug self a (Some k)) b (Some k)
  = AugmentedDataset.add_aug self b (Some k).
Proof.
  unfold AugmentedDataset.add_aug.
  cbn [AugmentedDataset._dataset AugmentedDataset._augs AugmentedDataset._augs_for_whole].
  now rewrite AugmentedFacts.augs_set_set.
Qed.

(* ================================================================== *)
(** * [PixartDataset.__init__]: the entries *)

(** X19: when [PixartDataset(images_pathes)] is built, its entries follow
    the given names rearranged by the integer value of their stem, in
    non-decreasing order; names whose mask file [<stem>.png] does not exist
    are left out, and each remaining name [p] gives the entry
    [{'data': train/p, 'target': train_mask/<stem>.png}]. *)
Theorem pixart_entries_are_ordered_by_number
    (splitext : string -> string * string) (int : string -> result Z)
    (join : string -> string -> string) (exists_ : string -> bool)
    (images_pathes : list string) (entries : list PixartPaths.entry) :
  PixartPaths.init splitext int join exists_ images_pathes = Ok entries ->
  exists keyed : list (Z * string),
    Permutation (map snd keyed) images_pathes
    /\ Forall (fun kp => int (fst (splitext (snd kp))) = Ok (fst kp)) keyed
    /\ Sorted Z.le (map fst keyed)
    /\ entries
       = map (fun p => PixartPaths.Entry (join (PixartPaths.images_dir join) p)
                         (PixartPaths.mask_of splitext join p))
           (filter (fun p => exists_ (PixartPaths.mask_of splitext join p))
              (map snd keyed)).
Proof. apply PixartFacts.init_ok. Qed.

(** The listing [10, 2, 7] where [7] has no mask gives the entries of [2]
    and [10], in this order. *)
Lemma pixart_entries_are_ordered_by_number_witness :
  exists keyed : list (Z * string),
    Permutation (map snd keyed) PixartExamples.listing
    /\ Forall (fun kp => PixartExamples.int (fst (PixartExamples.splitext (snd kp)))
                         = Ok (fst kp)) keyed
    /\ Sorted Z.le (map fst keyed)
    /\ [PixartPaths.Entry "datasets/pixart/train/2" "datasets/pixart/train_mask/2.png";
        PixartPaths.Entry "datasets/pixart/train/10" "datasets/pixart/train_mask/10.png"]
       = map (fun p => PixartPaths.Entry
                         (PixartExamples.join (PixartPaths.images_dir PixartExamples.join) p)
                         (PixartPaths.mask_of PixartExamples.splitext PixartExamples.join p))
           (filter (fun p => PixartExamples.exists_
                               (PixartPaths.mask_of PixartExamples.splitext
                                  PixartExamples.join p))
              (map snd keyed)).
Proof.
  apply (@pixart_entries_are_ordered_by_number PixartExamples.splitext PixartExamples.int
           PixartExamples.join PixartExamples.exists_ PixartExamples.listing).
  reflexivity.
Defined.

(** X20: the constructor of [PixartDataset] raises exactly when the stem of
    some given name is not accepted by [int], whether or not that name has
    a mask file: the keys of all names are computed before any file is
    looked up. *)
Theorem pixart_init_raises_on_a_non_numeric_name
    (splitext : string -> string * string) (int : string -> result Z)
    (join : string -> string -> string) (exists_ : string -> bool)
    (images_pathes : list string) :
  (exists p, In p images_pathes /\ exists ex, int (fst (splitext p)) = Raise ex)
  <-> exists ex, PixartPaths.init splitext int join exists_ images_pathes = Raise ex.
Proof.
  rewrite PixartFacts.with_keys_raises. unfold PixartPaths.init.
  destruct (PixartPaths.with_keys splitext int images_pathes) as [keyed|ex]; cbn [bind].
  - split; intros (ex & E); discriminate.
  - split; intros _; now exists ex.
Qed.

(** X21: [len] of a [PixartDataset] is the number of given names whose mask
    file exists, so it never exceeds the number of names given. *)
Theorem pixart_len_counts_the_names_with_a_mask
    (splitext : string -> string * string) (int : string -> result Z)
    (join : string -> string -> string) (exists_ : string -> bool)
    (images_pathes : list string) (entries : list PixartPaths.entry) :
  PixartPaths.init splitext int join exists_ images_pathes = Ok entries ->
  PixartPaths.len entries
  = length (filter (fun p => exists_ (PixartPaths.mask_of splitext join p)) images_pathes)
  /\ PixartPaths.len entries <= length images_pathes.
Proof.
  intros E. destruct (PixartFacts.init_ok _ _ _ _ _ E) as (keyed & Hp & _ & _ & ->).
  unfold PixartPaths.len. rewrite length_map.
  assert (L : length (filter (fun p => exists_ (PixartPaths.mask_of splitext join p))
                        (map snd keyed))
              = length (filter (fun p => exists_ (PixartPaths.mask_of splitext join p))
                          images_pathes)).
  { apply Permutation_length. clear E.
    induction Hp; cbn [filter].
    - reflexivity.
    - destruct (exists_ _); [now constructor|assumption].
    - destruct (exists_ (PixartPaths.mask_of splitext join y)),
               (exists_ (PixartPaths.mask_of splitext join x));
        try reflexivity; apply perm_swap.
    - etransitivity; eassumption. }
  split; [exact L|]. rewrite L. apply filter_length_le.
Qed.

Lemma pixart_len_counts_the_names_with_a_mask_witness :
  PixartPaths.len
    [PixartPaths.Entry "datasets/pixart/train/2" "datasets/pixart/train_mask/2.png";
     PixartPaths.Entry "datasets/pixart/train/10" "datasets/pixart/train_mask/10.png"]
  = length (filter (fun p => PixartExamples.exists_
                               (PixartPaths.mask_of PixartExamples.splitext
                                  PixartExamples.join p)) PixartExamples.listing)
  /\ PixartPaths.len
       [PixartPaths.Entry "datasets/pixart/train/2" "datasets/pixart/train_mask/2.png";
        PixartPaths.Entry "datasets/pixart/train/10" "datasets/pixart/train_mask/10.png"]
     <= length PixartExamples.listing.
Proof.
  apply (@pixart_len_counts_the_names_with_a_mask PixartExamples.splitext
           PixartExamples.int PixartExamples.join PixartExamples.exists_).
  reflexivity.
Defined.

(* ================================================================== *)
(** * [SuperviselyDataset._filter_items]: the kept items *)

(** X22: what [_filter_items] returns follows the given items in their
    order: one entry for every item that is not tagged ['not-marked-people']
    (or for every item, when [include_not_marked_people] is set), with the
    item's image path and its annotation, whose tags and size are unchanged
    and whose objects are all kept in order, the neutral ones excepted when
    [include_neutral_objects] is not set. *)
Theorem filter_items_keeps_the_order_of_the_items
    (load : string -> result SuperviselyItems.document)
    (items : list SuperviselyItems.item)
    (include_not_marked_people include_neutral_objects : bool)
    (res : list SuperviselyItems.loaded) :
  SuperviselyItems._filter_items load items include_not_marked_people
    include_neutral_objects = Ok res ->
  Forall2 (FilterSpec.made_of load include_neutral_objects)
    (filter (FilterSpec.passes load include_not_marked_people) items) res.
Proof. apply FilterFacts.filter_items_made_of. Qed.

Lemma filter_items_keeps_the_order_of_the_items_witness :
  Forall2 (FilterSpec.made_of FilterExamples.load false)
    (filter (FilterSpec.passes FilterExamples.load false) FilterExamples.items)
    FilterExamples.filtered.
Proof.
  apply (@filter_items_keeps_the_order_of_the_items FilterExamples.load
           FilterExamples.items false false FilterExamples.filtered).
  reflexivity.
Defined.

(** X23: when [include_not_marked_people] is not set, no returned item is
    tagged ['not-marked-people']; when [include_neutral_objects] is not set,
    no returned annotation holds an object of class ['neutral']. *)
Theorem filter_items_excludes_what_is_not_asked_for
    (load : string -> result SuperviselyItems.document)
    (items : list SuperviselyItems.item)
    (include_not_marked_people include_neutral_objects : bool)
    (res : list SuperviselyItems.loaded) :
  SuperviselyItems._filter_items load items include_not_marked_people
    include_neutral_objects = Ok res ->
  (include_not_marked_people = false ->
   forall l, In l res ->
     ~ In "not-marked-people"%string (SuperviselyItems.tags (SuperviselyItems.loaded_target l)))
  /\ (include_neutral_objects = false ->
      forall l obj, In l res ->
        In obj (SuperviselyDataset.objects
                  (SuperviselyItems.annotation (SuperviselyItems.loaded_target l))) ->
        SuperviselyDataset.classTitle obj <> "neutral"%string).
Proof.
  intros E. apply FilterFacts.filter_items_made_of in E.
  remember (filter (FilterSpec.passes load include_not_marked_people) items) as kept
    eqn:Ek.
  assert (Hk : forall it, In it kept ->
            FilterSpec.passes load include_not_marked_people it = true).
  { intros it Hin. subst kept. now apply filter_In in Hin. }
  clear Ek. split.
  - intros -> l Hl.
    induction E as [|it l' kept' res' Hm E IH]; [destruct Hl|].
    destruct Hl as [->|Hl]; [|apply IH; [intros; apply Hk; now right|exact Hl]].
    destruct Hm as (_ & d & El & Et & _).
    specialize (Hk it (or_introl eq_refl)). unfold FilterSpec.passes in Hk.
    rewrite El in Hk. cbn [orb] in Hk. rewrite Et, <- FilterFacts.mem_In.
    destruct (SuperviselyItems.mem _ _); [discriminate|congruence].
  - intros -> l obj Hl Ho. clear Hk.
    induction E as [|it l' kept' res' Hm E IH]; [destruct Hl|].
    destruct Hl as [->|Hl]; [|now apply IH].
    destruct Hm as (_ & d & _ & _ & _ & _ & Eo). rewrite Eo in Ho.
    apply filter_In in Ho. destruct Ho as [_ Hn].
    unfold SuperviselyItems.not_neutral in Hn. intros Ec. rewrite Ec in Hn.
    discriminate.
Qed.

Lemma filter_items_excludes_what_is_not_asked_for_witness :
  (false = false ->
   forall l, In l FilterExamples.filtered ->
     ~ In "not-marked-people"%string (SuperviselyItems.tags (SuperviselyItems.loaded_target l)))
  /\ (false = false ->
      forall l obj, In l FilterExamples.filtered ->
        In obj (SuperviselyDataset.objects
                  (SuperviselyItems.annotation (SuperviselyItems.loaded_target l))) ->
        SuperviselyDataset.classTitle obj <> "neutral"%string).
Proof.
  apply (@filter_items_excludes_what_is_not_asked_for FilterExamples.load
           FilterExamples.items false false FilterExamples.filtered).
  reflexivity.
Defined.

(** X24: [_filter_items] opens and parses the annotation of every item
    before it decides to keep it, so, whatever the flags, the call raises
    when one of the annotation files fails to load, even that of an item
    the flags would skip.  With both flags set nothing of a loaded
    annotation is read, and the call raises exactly then. *)
Theorem filter_items_raises_when_an_annotation_fails_to_load
    (load : string -> result SuperviselyItems.document)
    (items : list SuperviselyItems.item) :
  (forall include_not_marked_people include_neutral_objects : bool,
     (exists it, In it items
                 /\ exists ex, load (SuperviselyItems.item_target it) = Raise ex) ->
     exists ex, SuperviselyItems._filter_items load items include_not_marked_people
                  include_neutral_objects = Raise ex)
  /\ ((exists ex, SuperviselyItems._filter_items load items true true = Raise ex) ->
      exists it, In it items
                 /\ exists ex, load (SuperviselyItems.item_target it) = Raise ex).
Proof.
  split.
  - intros nmp neu. apply FilterFacts.filter_items_raises.
  - apply FilterFacts.filter_items_raises.
Qed.

(* ================================================================== *)
(** * [SuperviselyDataset.__init__]: the paired items *)

(** X25: [SuperviselyDataset.__init__] pairs images with annotations by the
    stem of the file name alone, across all visited directories, and the
    last visited file of each kind wins: before filtering, [{'data': d,
    'target': t}] is an item exactly when, for some stem, [d] is the path of
    the last [.png] or [.jpg] file with that stem and [t] the path of the
    last [.json] file with it.  A stem that lacks one of the two gives no
    item, and files of other extensions are ignored. *)
Theorem items_pair_the_last_files_of_a_stem
    (splitext : string -> string * string) (join : string -> string -> string)
    (walk : list (string * list string)) (d t : string) :
  In (SuperviselyItems.Item d t)
     (SuperviselyFiles.paired (SuperviselyFiles.scan splitext join walk))
  <-> exists name,
        FilesSpec.last_of splitext join SuperviselyFiles.DataFile name
          (FilesSpec.listing walk) = Some d
        /\ FilesSpec.last_of splitext join SuperviselyFiles.TargetFile name
             (FilesSpec.listing walk) = Some t.
Proof. apply FilesFacts.paired_scan. Qed.

(* ================================================================== *)
(** * [create_augmented_dataset]: the names read *)

(** X26: the index file read back.  When the file of
    [create_augmented_dataset] holds names without newline characters, one
    per line, each line ended by a newline, the names read are exactly these
    names in their order; an empty line gives the empty name and is not
    skipped. *)
Theorem index_file_names_are_read_back (names : list string) :
  Forall (fun n => IndexSpec.one_line n = true) names ->
  IndexFile.pathes (IndexSpec.unlines names) = names.
Proof.
  intros Hn.
  rewrite <- (IndexFacts.append_nil_r (IndexSpec.unlines names)).
  rewrite (@IndexFacts.pathes_unlines names _ Hn). cbn. apply app_nil_r.
Qed.

Lemma index_file_names_are_read_back_witness :
  IndexFile.pathes (IndexSpec.unlines ["10.jpg"; ""; "2.jpg"]%string)
  = ["10.jpg"; ""; "2.jpg"]%string.
Proof.
  apply index_file_names_are_read_back.
  repeat constructor.
Defined.

(** X27: an index file whose last line is not ended by a newline loses the
    last character of its last name: every line is cut by one character,
    newline or not. *)
Theorem index_file_without_final_newline_cuts_the_last_name
    (names : list string) (stem : string) (c : ascii) :
  Forall (fun n => IndexSpec.one_line n = true) names ->
  IndexSpec.one_line (stem ++ String c "") = true ->
  IndexFile.pathes (IndexSpec.unlines names ++ (stem ++ String c ""))
  = (names ++ [stem])%list.
Proof.
  intros Hn Hl. rewrite (@IndexFacts.pathes_unlines names _ Hn). f_equal.
  unfold IndexFile.pathes, IndexFile.readlines.
  rewrite (@IndexFacts.readlines_from_rest _ Hl). cbn [append].
  rewrite IndexFacts.snoc_not_empty. cbn [filter].
  rewrite IndexFacts.snoc_not_empty. cbn [negb map].
  now rewrite IndexFacts.drop_last_snoc.
Qed.

Lemma index_file_without_final_newline_cuts_the_last_name_witness :
  IndexFile.pathes (IndexSpec.unlines ["10.jpg"]%string ++ ("2.jp" ++ String "g"%char ""))
  = (["10.jpg"] ++ ["2.jp"])%list%string.
Proof.
  apply index_file_without_final_newline_cuts_the_last_name.
  - repeat constructor.
  - reflexivity.
Defined.

(** X28: the test [p != ''] of the comprehension never removes a line:
    [readlines] gives no empty string, so the names are the lines of the
    file, each without its last character. *)
Theorem index_file_filter_keeps_every_line (text : string) :
  IndexFile.pathes text = map IndexFile.drop_last (IndexFile.readlines text).
Proof.
  unfold IndexFile.pathes, IndexFile.readlines. f_equal.
  pose proof (IndexFacts.nonempty_lines text "") as H.
  induction H as [|p l Hp _ IH]; cbn [filter]; [reflexivity|].
  destruct (String.eqb_spec p ""); [contradiction|]. cbn [negb]. now rewrite IH.
Qed.

(* ================================================================== *)
(** * [MulticlassColormapVisualizer.process_img]: the overlay *)

(** X29: what [MulticlassColormapVisualizer.process_img] draws.  With
    colours given for every other class, a mask of shape (H, W, C) and a
    main class in [0, C), whenever the parent class returns an (H, W, 3)
    blend the result is an (H, W, 3) image in which a pixel where none of
    the other classes is positive keeps the blend, and a pixel where some
    are positive gets, in each of its three channels, the colour of the
    last such class: later classes paint over earlier ones.  The classes
    are numbered as the channels of the mask with the main one left out. *)
Theorem overlay_paints_the_last_class_present
    (Img : Type) (process_img_super : Img -> NumPy.image ->
                                      result MulticlassColormapVisualizer.image3)
    (linspace : Z -> Z -> nat -> list Z)
    (main : Z) (colors : list (list Z)) (image : Img)
    (mask blend : MulticlassColormapVisualizer.image3) (h w c : nat) :
  VisualizerSpec.shaped h w c mask ->
  (0 <= main < Z.of_nat c)%Z ->
  (forall k, k < 3 -> c - 1 <= length (nth k colors [])) ->
  process_img_super image
    (NumPy.mk h w (fun i j => MulticlassColormapVisualizer.px3 mask i j (Z.to_nat main)))
  = Ok blend ->
  VisualizerSpec.shaped h w 3 blend ->
  exists img,
    snd (MulticlassColormapVisualizer.process_img process_img_super linspace
           (MulticlassColormapVisualizer.Visualizer main (Some colors)) image mask)
    = Ok img
    /\ VisualizerSpec.shaped h w 3 img
    /\ forall i j k, i < h -> j < w -> k < 3 ->
       MulticlassColormapVisualizer.px3 img i j k
       = match VisualizerSpec.last_present
                 (fun n => MulticlassColormapVisualizer.px3 mask i j
                             (VisualizerSpec.skip (Z.to_nat main) n)) (c - 1) with
         | Some n => NumPy.wrap8 (VisualizerSpec.color_at colors k n)
         | None => MulticlassColormapVisualizer.px3 blend i j k
         end.
Proof.
  intros (Hh & Hw & Hc) Hmain Hcol Hblend Hs.
  unfold MulticlassColormapVisualizer.process_img,
    MulticlassColormapVisualizer.channel, MulticlassColormapVisualizer.delete.
  cbn [MulticlassColormapVisualizer._main_class
       MulticlassColormapVisualizer._other_colors].
  rewrite Hh, Hw, Hc, (@VisualizerFacts.axis_index_ok c main Hmain). cbn [bind].
  rewrite Hblend. cbn [snd MulticlassColormapVisualizer.mk3
                       MulticlassColormapVisualizer.channels].
  set (other := MulticlassColormapVisualizer.mk3 h w (c - 1) _).
  assert (Ho : VisualizerSpec.shaped h w (c - 1) other) by now repeat split.
  destruct (@VisualizerFacts.overlay_run colors other blend h w (c - 1) Hs Ho (c - 1) Hcol)
    as (img & E & Hs' & P).
  exists img. split; [exact E|]. split; [exact Hs'|].
  intros i j k Hi Hj Hk. rewrite (P i j k Hi Hj Hk).
  assert (L : forall n, n <= c - 1 ->
            VisualizerSpec.last_present
              (fun n0 => MulticlassColormapVisualizer.px3 other i j n0) n
            = VisualizerSpec.last_present
                (fun n0 => MulticlassColormapVisualizer.px3 mask i j
                             (VisualizerSpec.skip (Z.to_nat main) n0)) n).
  { induction n as [|n IH]; intros Hn; cbn [VisualizerSpec.last_present]; [reflexivity|].
    unfold other at 1. rewrite VisualizerFacts.px3_mk3 by lia.
    fold (VisualizerSpec.skip (Z.to_nat main) n). rewrite IH by lia. reflexivity. }
  rewrite L by lia. reflexivity.
Qed.

(** Four classes with class 0 the main one: at pixel (0, 0) the classes 2
    and 3 of the mask are present and the colour is that of class 3. *)
Lemma overlay_paints_the_last_class_present_witness :
  exists img,
    snd (MulticlassColormapVisualizer.process_img VisualizerExamples.black
           VisualizerExamples.ramp
           (MulticlassColormapVisualizer.Visualizer 0 (Some VisualizerExamples.palette))
           tt VisualizerExamples.mask)
    = Ok img
    /\ VisualizerSpec.shaped 1 2 3 img
    /\ forall i j k, i < 1 -> j < 2 -> k < 3 ->
       MulticlassColormapVisualizer.px3 img i j k
       = match VisualizerSpec.last_present
                 (fun n => MulticlassColormapVisualizer.px3 VisualizerExamples.mask i j
                             (VisualizerSpec.skip (Z.to_nat 0) n)) (4 - 1) with
         | Some n => NumPy.wrap8 (VisualizerSpec.color_at VisualizerExamples.palette k n)
         | None =>
             MulticlassColormapVisualizer.px3
               (MulticlassColormapVisualizer.mk3 1 2 3 (fun _ _ _ => 0%Z)) i j k
         end.
Proof.
  apply (@overlay_paints_the_last_class_present unit VisualizerExamples.black
           VisualizerExamples.ramp 0%Z VisualizerExamples.palette tt
           VisualizerExamples.mask
           (MulticlassColormapVisualizer.mk3 1 2 3 (fun _ _ _ => 0%Z)) 1 2 4).
  - repeat split.
  - lia.
  - intros k Hk. destruct k as [|[|[|k]]]; cbn; lia.
  - reflexivity.
  - repeat split.
Defined.

(** X30: the colours [process_img] computes when none were given are as
    many as the mask has rows, not as many as it has other classes.  For a
    mask of shape (H, W, C) with more than H other classes the call raises
    [IndexError] when it reaches class H; with at most H it returns an
    image.  In both cases the visualizer keeps the colours computed for
    this H and uses them in later calls. *)
Theorem default_colors_are_counted_by_rows
    (Img : Type) (process_img_super : Img -> NumPy.image ->
                                      result MulticlassColormapVisualizer.image3)
    (linspace : Z -> Z -> nat -> list Z)
    (main : Z) (image : Img)
    (mask blend : MulticlassColormapVisualizer.image3) (h w c : nat) :
  (forall start stop num, length (linspace start stop num) = num) ->
  VisualizerSpec.shaped h w c mask ->
  (0 <= main < Z.of_nat c)%Z ->
  process_img_super image
    (NumPy.mk h w (fun i j => MulticlassColormapVisualizer.px3 mask i j (Z.to_nat main)))
  = Ok blend ->
  VisualizerSpec.shaped h w 3 blend ->
  (h < c - 1 ->
   snd (MulticlassColormapVisualizer.process_img process_img_super linspace
          (MulticlassColormapVisualizer.Visualizer main None) image mask)
   = Raise IndexError)
  /\ (c - 1 <= h ->
      exists img,
        snd (MulticlassColormapVisualizer.process_img process_img_super linspace
               (MulticlassColormapVisualizer.Visualizer main None) image mask)
        = Ok img)
  /\ MulticlassColormapVisualizer._other_colors
       (fst (MulticlassColormapVisualizer.process_img process_img_super linspace
               (MulticlassColormapVisualizer.Visualizer main None) image mask))
     = Some (MulticlassColormapVisualizer.default_colors linspace h).
Proof.
  intros Hlen (Hh & Hw & Hc) Hmain Hblend Hs.
  unfold MulticlassColormapVisualizer.process_img,
    MulticlassColormapVisualizer.channel, MulticlassColormapVisualizer.delete.
  cbn [MulticlassColormapVisualizer._main_class
       MulticlassColormapVisualizer._other_colors].
  rewrite Hh, Hw, Hc, (@VisualizerFacts.axis_index_ok c main Hmain). cbn [bind].
  rewrite Hblend. cbn [snd fst MulticlassColormapVisualizer.mk3
                       MulticlassColormapVisualizer.channels
                       MulticlassColormapVisualizer.height
                       MulticlassColormapVisualizer._other_colors].
  set (other := MulticlassColormapVisualizer.mk3 h w (c - 1) _).
  set (colors := MulticlassColormapVisualizer.default_colors linspace h).
  assert (Ho : VisualizerSpec.shaped h w (c - 1) other) by now repeat split.
  assert (Hrow : forall k, k < 3 -> length (nth k colors []) = h).
  { intros k Hk. destruct k as [|[|[|k]]]; cbn; try apply Hlen. lia. }
  split; [|split; [|reflexivity]].
  - intros Hlt.
    replace (c - 1) with (h + S (c - 1 - S h)) by lia.
    rewrite seq_app, VisualizerFacts.overlay_app.
    destruct (@VisualizerFacts.overlay_run colors other blend h w (c - 1) Hs Ho h)
      as (img & E & _); [intros k Hk; rewrite (Hrow k Hk); lia|].
    rewrite E. cbn [bind Nat.add seq MulticlassColormapVisualizer.overlay].
    unfold MulticlassColormapVisualizer.overlay_class.
    rewrite (@VisualizerFacts.color_short colors 0 h) by (rewrite Hrow; lia).
    reflexivity.
  - intros Hle.
    destruct (@VisualizerFacts.overlay_run colors other blend h w (c - 1) Hs Ho (c - 1))
      as (img & E & _); [intros k Hk; rewrite (Hrow k Hk); lia|].
    now exists img.
Qed.

Lemma default_colors_are_counted_by_rows_witness :
  (1 < 4 - 1 ->
   snd (MulticlassColormapVisualizer.process_img VisualizerExamples.black
          VisualizerExamples.ramp
          (MulticlassColormapVisualizer.Visualizer 0 None) tt VisualizerExamples.mask)
   = Raise IndexError)
  /\ (4 - 1 <= 1 ->
      exists img,
        snd (MulticlassColormapVisualizer.process_img VisualizerExamples.black
               VisualizerExamples.ramp
               (MulticlassColormapVisualizer.Visualizer 0 None) tt VisualizerExamples.mask)
        = Ok img)
  /\ MulticlassColormapVisualizer._other_colors
       (fst (MulticlassColormapVisualizer.process_img VisualizerExamples.black
               VisualizerExamples.ramp
               (MulticlassColormapVisualizer.Visualizer 0 None) tt VisualizerExamples.mask))
     = Some (MulticlassColormapVisualizer.default_colors VisualizerExamples.ramp 1).
Proof.
  apply (@default_colors_are_counted_by_rows unit VisualizerExamples.black
           VisualizerExamples.ramp 0%Z tt VisualizerExamples.mask
           (MulticlassColormapVisualizer.mk3 1 2 3 (fun _ _ _ => 0%Z)) 1 2 4).
  - intros start stop num. apply repeat_length.
  - repeat split.
  - lia.
  - reflexivity.
  - repeat split.
Defined.
